(** * Credit ledger and EZFP payment adapter of open-webui

    A shallow embedding of

    - [backend/open_webui/utils/credit/ezfp.py]  (class [EZFPClient]),
    - [backend/open_webui/models/credits.py]     (classes [CreditsTable],
      [TradeTicketTable], [CreditLogTable]) and
    - [backend/open_webui/utils/auth.py]         (session tokens,
      authorization headers, the current user),

    followed by the properties of the specification, each proved or
    refuted on the embedding.

    Conventions.  Python [str] values are byte strings (the UTF-8 encoding
    of the text; a character is a lead byte with the continuation bytes
    that follow it), integers are [Z], dictionaries are association lists
    in insertion order.  Code that raises returns in a sum type whose left
    side is the exception. *)

From Stdlib Require Import ZArith List String Ascii Bool Lia Permutation Sorted.
From Stdlib Require Import DecimalString.
Import ListNotations.
Local Open Scope string_scope.
Local Open Scope Z_scope.
Set Warnings "-register-all".


(* ===================================================================== *)
(** ** Python strings *)
(* ===================================================================== *)

Module PyStr.

(** [c.lower()] on one character; only the ASCII letters have a lower-case
    form among single bytes. *)
Definition lower_ascii (c : ascii) : ascii :=
  let n := N_of_ascii c in
  if ((65 <=? n) && (n <=? 90))%N then ascii_of_N (n + 32) else c.

(** [s.lower()] *)
Fixpoint lower (s : string) : string :=
  match s with
  | EmptyString => EmptyString
  | String c s' => String (lower_ascii c) (lower s')
  end.

(** [s.startswith(sub)] *)
Fixpoint starts_with (sub s : string) : bool :=
  match sub, s with
  | EmptyString, _ => true
  | String a sub', String b s' => Ascii.eqb a b && starts_with sub' s'
  | String _ _, EmptyString => false
  end.

(** [s.find(sub)] scanning from position [i]: the lowest index at which
    [sub] occurs, or -1. *)
Fixpoint find_from (sub s : string) (i : Z) : Z :=
  if starts_with sub s then i
  else match s with
       | EmptyString => -1
       | String _ s' => find_from sub s' (i + 1)
       end.

Definition find (s sub : string) : Z := find_from sub s 0.

(** [sep.join(parts)] *)
Fixpoint join (sep : string) (parts : list string) : string :=
  match parts with
  | [] => ""
  | [p] => p
  | p :: ps => p ++ sep ++ join sep ps
  end.

(** [str(n)] for an [int]. *)
Definition str_int (n : Z) : string := NilZero.string_of_int (Z.to_int n).

(** Insertion of a string into a list sorted by [<=] on code points;
    [list.sort()] on strings returns the sorted arrangement. *)
Fixpoint insert_sorted (x : string) (l : list string) : list string :=
  match l with
  | [] => [x]
  | y :: l' => if String.leb x y then x :: l else y :: insert_sorted x l'
  end.

Definition sort (l : list string) : list string :=
  fold_right insert_sorted [] l.

(** The order [list.sort()] uses on strings. *)
Definition str_le (a b : string) : Prop := String.leb a b = true.

(** [s.rstrip('/')] : drop the trailing slashes. *)
Fixpoint rstrip_slash (s : string) : string :=
  match s with
  | EmptyString => EmptyString
  | String c s' =>
      match rstrip_slash s' with
      | EmptyString => if Ascii.eqb c "/" then EmptyString else String c EmptyString
      | r => String c r
      end
  end.

End PyStr.

(* ===================================================================== *)
(** ** Python values, exceptions and dictionaries *)
(* ===================================================================== *)

Module Py.

(** The scalar values that occur as fields of a payment payload. *)
Inductive scalar :=
| SNone
| SBool (b : bool)
| SInt (n : Z)
| SStr (s : string).

(** JSON-like values: what [resp.json()] returns, and what the [detail]
    and [metadata] dictionaries hold. *)
Inductive pyval :=
| PAtom (a : scalar)
| PList (l : list pyval)
| PDict (d : list (string * pyval)).

Definition PStr (s : string) : pyval := PAtom (SStr s).
Definition PInt (n : Z) : pyval := PAtom (SInt n).

(** Truth value of a scalar: [None], [False], [0] and [''] are false. *)
Definition truthy (v : scalar) : bool :=
  match v with
  | SNone => false
  | SBool b => b
  | SInt n => negb (n =? 0)
  | SStr s => negb (String.eqb s "")
  end.

(** Truth value of a value: empty containers are false. *)
Definition truthy_val (v : pyval) : bool :=
  match v with
  | PAtom a => truthy a
  | PList l => match l with [] => false | _ => true end
  | PDict d => match d with [] => false | _ => true end
  end.

(** [str(v)], as an f-string formats a field. *)
Definition str (v : scalar) : string :=
  match v with
  | SNone => "None"
  | SBool true => "True"
  | SBool false => "False"
  | SInt n => PyStr.str_int n
  | SStr s => s
  end.

(** [a == b]: [bool] is a subtype of [int], values of unrelated types are
    unequal. *)
Definition py_eq (a b : scalar) : bool :=
  match a, b with
  | SNone, SNone => true
  | SStr x, SStr y => String.eqb x y
  | SInt x, SInt y => x =? y
  | SBool x, SBool y => Bool.eqb x y
  | SBool x, SInt y | SInt y, SBool x => (if x then 1 else 0) =? y
  | _, _ => false
  end.

Inductive exn :=
| KeyError (key : string)
| ValueError (msg : string)
| AttributeError (msg : string)
| ValidationError (msg : string)
| IntegrityError (msg : string)
| OperationalError (msg : string)
| TransportError (msg : string)
| HTTPException (status_code : Z) (detail : string).

(** [str(err)] *)
Definition str_exn (e : exn) : string :=
  match e with
  | KeyError k => "'" ++ k ++ "'"
  | ValueError m | AttributeError m | ValidationError m
  | IntegrityError m | OperationalError m | TransportError m => m
  | HTTPException c d => PyStr.str_int c ++ ": " ++ d
  end.

(** Dictionaries with string keys, in insertion order. *)
Section Dict.
Context {V : Type}.

(** [d.get(k)] *)
Fixpoint dict_get (d : list (string * V)) (k : string) : option V :=
  match d with
  | [] => None
  | (k', v) :: d' => if String.eqb k' k then Some v else dict_get d' k
  end.

(** [d[k]] *)
Definition getitem (d : list (string * V)) (k : string) : exn + V :=
  match dict_get d k with
  | Some v => inr v
  | None => inl (KeyError k)
  end.

(** [d[k] = v]: an existing key keeps its position, a new one goes last. *)
Fixpoint dict_set (d : list (string * V)) (k : string) (v : V) : list (string * V) :=
  match d with
  | [] => [(k, v)]
  | (k', v') :: d' =>
      if String.eqb k' k then (k, v) :: d' else (k', v') :: dict_set d' k v
  end.
End Dict.

End Py.

(* ===================================================================== *)
(** ** [EZFPClient.get_device_from_ua] *)
(* ===================================================================== *)

Module Device.
Import PyStr.

Definition get_device_from_ua (ua : string) : string :=
  let ua := lower ua in
  if negb (find ua "micromessenger" =? -1) then "wechat"
  else if negb (find ua "qq" =? -1) then "qq"
  else if negb (find ua "alipay" =? -1) then "alipay"
  else if negb (find ua "android" =? -1) || negb (find ua "iphone" =? -1)
       then "mobile"
  else "pc".

(** The classification as the specification words it: a priority list of
    (needle, class) rules tried in order against the lower-cased string,
    with a default. *)
Definition occurs (needle hay : string) : Prop :=
  exists pre post, hay = pre ++ needle ++ post.

Definition device_rules : list (string * string) :=
  [ ("micromessenger", "wechat"); ("qq", "qq"); ("alipay", "alipay");
    ("android", "mobile"); ("iphone", "mobile") ].

Inductive first_match (hay : string) : list (string * string) -> string -> Prop :=
| fm_default : first_match hay [] "pc"
| fm_here needle cls rest :
    occurs needle hay -> first_match hay ((needle, cls) :: rest) cls
| fm_later needle cls rest out :
    ~ occurs needle hay -> first_match hay rest out ->
    first_match hay ((needle, cls) :: rest) out.

End Device.

(* ===================================================================== *)
(** ** [hashlib.md5(...).hexdigest()]  (RFC 1321) *)
(* ===================================================================== *)

Module MD5.
Local Open Scope list_scope.

Definition mask32 : Z := 0xffffffff.
Definition add32 (x y : Z) : Z := Z.land (x + y) mask32.
Definition not32 (x : Z) : Z := Z.lxor x mask32.
Definition rotl32 (x : Z) (c : Z) : Z :=
  Z.land (Z.lor (Z.shiftl x c) (Z.shiftr x (32 - c))) mask32.

Definition K : list Z :=
  [ 0xd76aa478; 0xe8c7b756; 0x242070db; 0xc1bdceee;
    0xf57c0faf; 0x4787c62a; 0xa8304613; 0xfd469501;
    0x698098d8; 0x8b44f7af; 0xffff5bb1; 0x895cd7be;
    0x6b901122; 0xfd987193; 0xa679438e; 0x49b40821;
    0xf61e2562; 0xc040b340; 0x265e5a51; 0xe9b6c7aa;
    0xd62f105d; 0x02441453; 0xd8a1e681; 0xe7d3fbc8;
    0x21e1cde6; 0xc33707d6; 0xf4d50d87; 0x455a14ed;
    0xa9e3e905; 0xfcefa3f8; 0x676f02d9; 0x8d2a4c8a;
    0xfffa3942; 0x8771f681; 0x6d9d6122; 0xfde5380c;
    0xa4beea44; 0x4bdecfa9; 0xf6bb4b60; 0xbebfbc70;
    0x289b7ec6; 0xeaa127fa; 0xd4ef3085; 0x04881d05;
    0xd9d4d039; 0xe6db99e5; 0x1fa27cf8; 0xc4ac5665;
    0xf4292244; 0x432aff97; 0xab9423a7; 0xfc93a039;
    0x655b59c3; 0x8f0ccc92; 0xffeff47d; 0x85845dd1;
    0x6fa87e4f; 0xfe2ce6e0; 0xa3014314; 0x4e0811a1;
    0xf7537e82; 0xbd3af235; 0x2ad7d2bb; 0xeb86d391 ].

Definition shifts : list Z :=
  [ 7; 12; 17; 22; 7; 12; 17; 22; 7; 12; 17; 22; 7; 12; 17; 22;
    5;  9; 14; 20; 5;  9; 14; 20; 5;  9; 14; 20; 5;  9; 14; 20;
    4; 11; 16; 23; 4; 11; 16; 23; 4; 11; 16; 23; 4; 11; 16; 23;
    6; 10; 15; 21; 6; 10; 15; 21; 6; 10; 15; 21; 6; 10; 15; 21 ].

Definition bytes_of_string (s : string) : list Z :=
  map (fun c => Z.of_N (N_of_ascii c)) (list_ascii_of_string s).

(** Little-endian encoding of [x] on [n] bytes. *)
Fixpoint le_bytes (n : nat) (x : Z) : list Z :=
  match n with
  | O => []
  | S n' => Z.land x 0xff :: le_bytes n' (Z.shiftr x 8)
  end.

Fixpoint le_word (bs : list Z) : Z :=
  match bs with
  | [] => 0
  | b :: bs' => Z.lor b (Z.shiftl (le_word bs') 8)
  end.

(** The message followed by 0x80, zero bytes up to 56 modulo 64 and the
    bit length on 64 bits. *)
Definition pad (msg : list Z) : list Z :=
  let len := Z.of_nat (List.length msg) in
  let zeros := Z.to_nat ((55 - len) mod 64) in
  msg ++ [0x80] ++ repeat 0 zeros ++ le_bytes 8 (Z.land (8 * len) 0xffffffffffffffff).

Fixpoint words (n : nat) (bs : list Z) : list Z :=
  match n with
  | O => []
  | S n' => le_word (firstn 4 bs) :: words n' (skipn 4 bs)
  end.

Record state := mkState { sa : Z; sb : Z; sc : Z; sd : Z }.

Definition init : state :=
  mkState 0x67452301 0xefcdab89 0x98badcfe 0x10325476.

Definition round (m : list Z) (st : state) (i : Z) : state :=
  let '(mkState a b c d) := st in
  let '(f, g) :=
    if i <? 16 then (Z.lor (Z.land b c) (Z.land (not32 b) d), i)
    else if i <? 32 then (Z.lor (Z.land d b) (Z.land (not32 d) c), (5 * i + 1) mod 16)
    else if i <? 48 then (Z.lxor (Z.lxor b c) d, (3 * i + 5) mod 16)
    else (Z.lxor c (Z.lor b (not32 d)), (7 * i) mod 16) in
  let f := add32 (add32 (add32 f a) (nth (Z.to_nat i) K 0)) (nth (Z.to_nat g) m 0) in
  mkState d (add32 b (rotl32 f (nth (Z.to_nat i) shifts 0))) b c.

Definition process_block (st : state) (block : list Z) : state :=
  let m := words 16 block in
  let st' := fold_left (round m) (map Z.of_nat (seq 0 64)) st in
  mkState (add32 (sa st) (sa st')) (add32 (sb st) (sb st'))
          (add32 (sc st) (sc st')) (add32 (sd st) (sd st')).

Fixpoint process (n : nat) (st : state) (bs : list Z) : state :=
  match n with
  | O => st
  | S n' => process n' (process_block st (firstn 64 bs)) (skipn 64 bs)
  end.

Definition digest (msg : list Z) : list Z :=
  let p := pad msg in
  let st := process (Nat.div (List.length p) 64) init p in
  le_bytes 4 (sa st) ++ le_bytes 4 (sb st) ++ le_bytes 4 (sc st) ++ le_bytes 4 (sd st).

Definition hex_digit (n : Z) : ascii :=
  if n <? 10 then ascii_of_N (Z.to_N (48 + n)) else ascii_of_N (Z.to_N (87 + n)).

Fixpoint hex (bs : list Z) : string :=
  match bs with
  | [] => EmptyString
  | b :: bs' => String (hex_digit (Z.shiftr b 4)) (String (hex_digit (Z.land b 0xf)) (hex bs'))
  end.

(** [hashlib.md5(s.encode()).hexdigest()] *)
Definition hexdigest (s : string) : string := hex (digest (bytes_of_string s)).

End MD5.


(* ===================================================================== *)
(** ** [EZFPClient]: signing, verification, trade creation *)
(* ===================================================================== *)

Module Ezfp.
Import Py PyStr.

(** The values of [open_webui.config] the client reads. *)
Record Config := {
  EZFP_PID : string;
  EZFP_KEY : string;
  EZFP_ENDPOINT : string;
  EZFP_CALLBACK_HOST : string;
  WEBUI_NAME : string
}.

Definition dict := list (string * scalar).

(** [copy.deepcopy(payload)]: a dictionary of immutable scalars is copied
    field by field, so the copy is the same value and later writes to it
    leave the original alone. *)
Definition deepcopy (payload : dict) : dict := map (fun kv => kv) payload.

Section Client.
Variable cfg : Config.

(** [k in ["sign", "sign_type"]] *)
Definition is_sign_key (k : string) : bool :=
  String.eqb k "sign" || String.eqb k "sign_type".

(** The list comprehension of [sign]: the fields [f"{k}={v}"] whose value
    is true and whose key is not a signature key. *)
Definition sign_params (payload : dict) : list string :=
  map (fun kv => fst kv ++ "=" ++ str (snd kv))
      (filter (fun kv => truthy (snd kv) && negb (is_sign_key (fst kv))) payload).

Definition plain_text (payload : dict) : string :=
  join "&" (sort (sign_params payload)) ++ EZFP_KEY cfg.

Definition sign (payload : dict) : dict :=
  let sign := MD5.hexdigest (plain_text payload) in
  let payload := dict_set payload "sign" (SStr sign) in
  let payload := dict_set payload "sign_type" (SStr "MD5") in
  payload.

(** [verify]: each subscript may raise [KeyError]; [and] evaluates its
    right operand only when the left one is true. *)
Definition verify (payload : dict) : exn + bool :=
  match getitem payload "pid" with
  | inl e => inl e
  | inr pid =>
      if negb (py_eq pid (SStr (EZFP_PID cfg))) then inr false
      else
        let payload2 := sign (deepcopy payload) in
        match getitem payload "sign" with
        | inl e => inl e
        | inr s1 =>
            match getitem payload2 "sign" with
            | inl e => inl e
            | inr s2 =>
                if py_eq s1 s2 then
                  match getitem payload "sign_type" with
                  | inl e => inl e
                  | inr t1 =>
                      match getitem payload2 "sign_type" with
                      | inl e => inl e
                      | inr t2 => inr (py_eq t1 t2)
                      end
                  end
                else inr false
            end
        end
  end.

(** What the HTTP client does is outside the repository: the transport
    is a pair of functions that answer or raise. *)
Section Transport.
(** [int(...)]: the builtin's reading of a text as a number, which
    answers or raises [ValueError].  Which texts it accepts (white space
    around the numeral, underscores between digits, the digits of every
    script the runtime knows, a bound on the number of digits) is the
    runtime's matter and not written in the repository. *)
Variable py_int : string -> exn + Z.
Variable float : Type.
(** ["%.2f" % amount] *)
Variable format_2f : float -> string.
Variable response : Type.
(** [await client.post(url=..., params=...)] *)
Variable client_post : string -> dict -> exn + response.
(** [resp.json()] *)
Variable response_json : response -> exn + pyval.

Inductive event :=
| EvPost (url : string) (params : dict)
| EvClose.

Definition trade_payload (pid : Z) (pay_type out_trade_no : string)
           (amount : float) (client_ip ua : string) : dict :=
  [ ("pid", SInt pid);
    ("type", SStr pay_type);
    ("out_trade_no", SStr out_trade_no);
    ("notify_url", SStr (rstrip_slash (EZFP_CALLBACK_HOST cfg) ++ "/api/v1/credit/callback"));
    ("return_url", SStr (EZFP_CALLBACK_HOST cfg));
    ("name", SStr (WEBUI_NAME cfg ++ " Credit"));
    ("money", SStr (format_2f amount));
    ("clientip", SStr client_ip);
    ("device", SStr (Device.get_device_from_ua ua)) ].

(** [create_trade] returns its result together with the client events
    it caused; the [finally] clause closes the client on every path
    that created it.  [aclose] is taken to complete normally. *)
Definition create_trade (pay_type out_trade_no : string) (amount : float)
           (client_ip ua : string) : (exn + pyval) * list event :=
  match py_int (EZFP_PID cfg) with
  | inl e => (inl e, [])
  | inr pid =>
      let payload := trade_payload pid pay_type out_trade_no amount client_ip ua in
      let payload := sign payload in
      let url := rstrip_slash (EZFP_ENDPOINT cfg) ++ "/mapi.php" in
      let outcome :=
        match client_post url payload with
        | inl err => inr (PDict [("code", PInt (-1)); ("msg", PStr (str_exn err))])
        | inr resp =>
            match response_json resp with
            | inl err => inr (PDict [("code", PInt (-1)); ("msg", PStr (str_exn err))])
            | inr body => inr body
            end
        end in
      (outcome, [EvPost url payload; EvClose])
  end.
End Transport.
End Client.

End Ezfp.

(* ===================================================================== *)
(** ** The relational store and the monad of the table classes *)
(* ===================================================================== *)

Module Store.
Import Py.
Local Open Scope list_scope.

(** A [Numeric(precision=24, scale=12)] column: the number of 10^-12
    units.  [Decimal] addition and comparison are exact on such values. *)
Definition decimal := Z.
Definition decimal_scale : Z := 10 ^ 12.
Definition decimal_of_int (n : Z) : decimal := n * decimal_scale.

(** [uuid.uuid4().hex] as the number it spells. *)
Definition uuid := N.

Definition jdict := list (string * pyval).

(** Row of table [credit]; [CreditModel] has the same fields. *)
Record Credit := mkCredit {
  c_id : uuid;
  c_user_id : string;
  c_credit : decimal;
  c_updated_at : Z;
  c_created_at : Z
}.

(** Row of table [credit_log]; [CreditLogModel] has the same fields. *)
Record CreditLog := mkCreditLog {
  l_id : uuid;
  l_user_id : string;
  l_credit : decimal;
  l_detail : jdict;
  l_created_at : Z
}.

(** Row of table [trade_ticket]; a [TradeTicketModel] validated from a
    row has the same fields with the same values. *)
Record TradeTicket := mkTradeTicket {
  t_id : string;
  t_user_id : string;
  t_amount : decimal;
  t_detail : jdict;
  t_created_at : Z
}.

(** A [float] that is a number, as [float.as_integer_ratio()] gives it:
    [numerator / 2 ^ log2_denominator]. *)
Record pyfloat := mkFloat {
  numerator : Z;
  log2_denominator : N
}.

(** A [Decimal] in memory, of any scale: [coefficient / 10 ^ places]. *)
Record Decimal := mkDecimal {
  coefficient : Z;
  places : N
}.

(** [Decimal(x)] of a float is its exact value:
    [n / 2 ^ k = n * 5 ^ k / 10 ^ k]. *)
Definition Decimal_of_float (x : pyfloat) : Decimal :=
  mkDecimal (numerator x * 5 ^ Z.of_N (log2_denominator x)) (log2_denominator x).

(** The [Decimal] read from a column. *)
Definition Decimal_of_column (v : decimal) : Decimal := mkDecimal v 12.

(** [a == b] on [Decimal]: the same number, whatever the scales. *)
Definition same_number (a b : Decimal) : Prop :=
  coefficient a * 10 ^ Z.of_N (places b) = coefficient b * 10 ^ Z.of_N (places a).

(** A [TradeTicketModel] built in memory: its [amount] is the [Decimal] it
    was given, which need not fit the column. *)
Record TradeTicketModel := mkTicketModel {
  tm_id : string;
  tm_user_id : string;
  tm_amount : Decimal;
  tm_detail : jdict;
  tm_created_at : Z
}.

Record database := mkDatabase {
  credit_tbl : list Credit;
  credit_log_tbl : list CreditLog;
  trade_ticket_tbl : list TradeTicket
}.

(** Everything the table classes read or change: the committed database,
    the outcome of each coming database operation ([true]: it raises; an
    exhausted list means no further failure), the clock behind
    [time.time()], the supply behind [uuid4] and the error annotations
    sent to the chat store. *)
Record world := mkWorld {
  store : database;
  faults : list bool;
  clock : Z;
  next_uuid : N;
  chat_errors : list (pyval * pyval * pyval)
}.

(** Computations that change the world and return or raise. *)
Definition M (A : Type) : Type := world -> (exn + A) * world.

Definition ret {A} (a : A) : M A := fun w => (inr a, w).

Definition bind {A B} (m : M A) (k : A -> M B) : M B :=
  fun w => match m w with
           | (inr a, w') => k a w'
           | (inl e, w') => (inl e, w')
           end.

Definition raise {A} (e : exn) : M A := fun w => (inl e, w).

(** [try: body except Exception as err: handler(err)] *)
Definition try_except {A} (body : M A) (handler : exn -> M A) : M A :=
  fun w => match body w with
           | (inr a, w') => (inr a, w')
           | (inl e, w') => handler e w'
           end.

Declare Scope py_scope.
Delimit Scope py_scope with py.
Notation "x <- m ;; k" := (bind m (fun x => k))
  (at level 100, m at next level, right associativity) : py_scope.
Notation "m ;;; k" := (bind m (fun _ => k))
  (at level 100, right associativity) : py_scope.
Local Open Scope py_scope.

(** [int(time.time())] *)
Definition time_now : M Z := fun w => (inr (clock w), w).

(** [uuid.uuid4().hex] *)
Definition uuid4 : M uuid :=
  fun w => (inr (next_uuid w),
            mkWorld (store w) (faults w) (clock w) (N.succ (next_uuid w)) (chat_errors w)).

(** A database operation consults the next outcome. *)
Definition db_op : M unit :=
  fun w => match faults w with
           | [] => (inr tt, w)
           | f :: rest =>
               let w' := mkWorld (store w) rest (clock w) (next_uuid w) (chat_errors w) in
               if f then (inl (OperationalError "database error"), w') else (inr tt, w')
           end.

(** Modelled from the spec: [open_webui.internal.db.get_db], the session
    factory, is not among the sources.  The specification describes it as
    the scoped acquisition of a transactional resource with commit or
    rollback on every exit path: a session works on its own copy of the
    committed database, and what it has not committed is lost when the
    [with] block is left, also by an exception. *)
Definition get_db : M database := fun w => (inr (store w), w).

(** [db.commit()] *)
Definition db_commit (s : database) : M unit :=
  db_op ;;;
  fun w => (inr tt, mkWorld s (faults w) (clock w) (next_uuid w) (chat_errors w)).

(** The filters of the queries. *)
Definition user_is (u : string) : Credit -> bool := fun r => String.eqb (c_user_id r) u.
Definition ticket_is (id : string) : TradeTicket -> bool := fun r => String.eqb (t_id r) id.

(** [db.add(Credit(...))]: primary key [id], [user_id] unique.  A
    violated constraint is reported by the session before the block can
    commit. *)
Definition add_credit (s : database) (row : Credit) : M database :=
  db_op ;;;
  if existsb (fun r => N.eqb (c_id r) (c_id row) || String.eqb (c_user_id r) (c_user_id row))
             (credit_tbl s)
  then raise (IntegrityError "UNIQUE constraint failed: credit")
  else ret (mkDatabase (credit_tbl s ++ [row]) (credit_log_tbl s) (trade_ticket_tbl s)).

(** [db.add(CreditLog(...))]: primary key [id]. *)
Definition add_credit_log (s : database) (row : CreditLog) : M database :=
  db_op ;;;
  if existsb (fun r => N.eqb (l_id r) (l_id row)) (credit_log_tbl s)
  then raise (IntegrityError "UNIQUE constraint failed: credit_log.id")
  else ret (mkDatabase (credit_tbl s) (credit_log_tbl s ++ [row]) (trade_ticket_tbl s)).

(** [db.add(TradeTicket(...))]: primary key [id]. *)
Definition add_trade_ticket (s : database) (row : TradeTicket) : M database :=
  db_op ;;;
  if existsb (ticket_is (t_id row)) (trade_ticket_tbl s)
  then raise (IntegrityError "UNIQUE constraint failed: trade_ticket.id")
  else ret (mkDatabase (credit_tbl s) (credit_log_tbl s) (trade_ticket_tbl s ++ [row])).

(** [db.query(Credit).filter(Credit.user_id == user_id).first()] *)
Definition first_credit (s : database) (user_id : string) : M (option Credit) :=
  db_op ;;;
  ret (List.find (user_is user_id) (credit_tbl s)).

(** [db.query(TradeTicket).filter(TradeTicket.id == id).first()] *)
Definition first_ticket (s : database) (id : string) : M (option TradeTicket) :=
  db_op ;;;
  ret (List.find (ticket_is id) (trade_ticket_tbl s)).

(** [db.query(Credit).filter(Credit.user_id == user_id).update(...)]:
    every matching row is rewritten by [f], evaluated by the database on
    the row's current values. *)
Definition update_credit (s : database) (user_id : string) (f : Credit -> Credit) : M database :=
  db_op ;;;
  ret (mkDatabase
         (map (fun r => if user_is user_id r then f r else r) (credit_tbl s))
         (credit_log_tbl s) (trade_ticket_tbl s)).

(** [db.query(TradeTicket).filter(TradeTicket.id == id).update({"detail": detail})] *)
Definition update_ticket_detail (s : database) (id : string) (detail : jdict) : M database :=
  db_op ;;;
  ret (mkDatabase
         (credit_tbl s) (credit_log_tbl s)
         (map (fun r => if ticket_is id r
                        then mkTradeTicket (t_id r) (t_user_id r) (t_amount r) detail (t_created_at r)
                        else r)
              (trade_ticket_tbl s))).

(** [ORDER BY created_at DESC]: rows with equal time stamps stay in table
    order. *)
Fixpoint insert_newest (x : CreditLog) (l : list CreditLog) : list CreditLog :=
  match l with
  | [] => [x]
  | y :: l' => if l_created_at y <=? l_created_at x then x :: l else y :: insert_newest x l'
  end.

Definition order_newest_first (l : list CreditLog) : list CreditLog :=
  fold_right insert_newest [] l.

(** The balance the [credit] table holds for a user. *)
Definition balance_of (s : database) (user_id : string) : option decimal :=
  option_map c_credit (List.find (user_is user_id) (credit_tbl s)).

(** The log rows of a user, in table order. *)
Definition logs_of (s : database) (user_id : string) : list CreditLog :=
  filter (fun r => String.eqb (l_user_id r) user_id) (credit_log_tbl s).

Definition newer_or_same (a b : CreditLog) : Prop := l_created_at b <= l_created_at a.

(** The identifiers in the tables were drawn from the supply: the next
    [uuid4] differs from each of them. *)
Definition ids_fresh (w : world) : Prop :=
  (forall r, In r (credit_tbl (store w)) -> (c_id r < next_uuid w)%N)
  /\ (forall r, In r (credit_log_tbl (store w)) -> (l_id r < next_uuid w)%N).

(** A decimal printed with its twelve fractional digits. *)
Definition pad_left (width : nat) (s : string) : string :=
  (string_of_list_ascii (repeat "0"%char (width - String.length s)) ++ s)%string.

Definition str_decimal (d : decimal) : string :=
  let sign := if d <? 0 then "-" else "" in
  let whole := PyStr.str_int (Z.abs d / decimal_scale) in
  let frac := pad_left 12 (PyStr.str_int (Z.abs d mod decimal_scale)) in
  (sign ++ whole ++ "." ++ frac)%string.

(** The error kinds of the service, read off the HTTP status. *)
Inductive error_kind := AccessDenied | NotFound | Conflict | Internal.

Definition kind_of (e : exn) : error_kind :=
  match e with
  | HTTPException 403 _ => AccessDenied
  | HTTPException 404 _ => NotFound
  | HTTPException 409 _ => Conflict
  | _ => Internal
  end.

End Store.

(* ===================================================================== *)
(** ** [CreditsTable], [TradeTicketTable], [CreditLogTable] *)
(* ===================================================================== *)

Module Credits.
Import Py Store.
Local Open Scope list_scope.
Local Open Scope py_scope.

Record SetCreditFormDetail := mkDetail {
  api_path : string;
  api_params : jdict;
  desc : string;
  usage : jdict
}.

(** [SetCreditFormDetail(desc=...)]: the other fields take their defaults. *)
Definition detail_with_desc (d : string) : SetCreditFormDetail := mkDetail "" [] d [].

(** [detail.model_dump()] *)
Definition model_dump (d : SetCreditFormDetail) : jdict :=
  [ ("api_path", PStr (api_path d));
    ("api_params", PDict (api_params d));
    ("desc", PStr (desc d));
    ("usage", PDict (usage d)) ].

Record AddCreditForm := mkAddCreditForm {
  add_user_id : string;
  add_amount : decimal;
  add_detail : SetCreditFormDetail
}.

Record SetCreditForm := mkSetCreditForm {
  set_user_id : string;
  set_credit : decimal;
  set_detail : SetCreditFormDetail
}.

Record CreditLogSimpleDetail := mkSimpleDetail {
  sd_desc : string;
  sd_api_params_model : jdict;
  sd_usage : jdict
}.

Record CreditLogSimpleModel := mkSimpleModel {
  sm_id : uuid;
  sm_user_id : string;
  sm_credit : decimal;
  sm_detail : CreditLogSimpleDetail;
  sm_created_at : Z
}.

(** Validation of a stored [detail] as [CreditLogSimpleDetail]:
    [desc] and [usage] have defaults, [api_params] is required, and each
    field must have its declared type. *)
Definition validate_detail (d : jdict) : exn + CreditLogSimpleDetail :=
  let bad := inl (ValidationError "validation error for CreditLogSimpleModel") in
  match dict_get d "api_params" with
  | Some (PDict ap) =>
      match match dict_get ap "model" with
            | None => Some []
            | Some (PDict m) => Some m
            | Some _ => None
            end,
            match dict_get d "desc" with
            | None => Some ""
            | Some (PAtom (SStr s)) => Some s
            | Some _ => None
            end,
            match dict_get d "usage" with
            | None => Some []
            | Some (PDict u) => Some u
            | Some _ => None
            end
      with
      | Some m, Some s, Some u => inr (mkSimpleDetail s m u)
      | _, _, _ => bad
      end
  | _ => bad
  end.

(** [CreditLogSimpleModel.model_validate(log)] *)
Definition validate_log (r : CreditLog) : M CreditLogSimpleModel :=
  match validate_detail (l_detail r) with
  | inl e => raise e
  | inr d => ret (mkSimpleModel (l_id r) (l_user_id r) (l_credit r) d (l_created_at r))
  end.

Fixpoint validate_logs (rows : list CreditLog) : M (list CreditLogSimpleModel) :=
  match rows with
  | [] => ret []
  | r :: rows' =>
      m <- validate_log r ;;
      ms <- validate_logs rows' ;;
      ret (m :: ms)
  end.

Section Tables.
(** [Decimal(CREDIT_DEFAULT_CREDIT.value)] *)
Variable CREDIT_DEFAULT_CREDIT : decimal.
(** What the database keeps of a [Decimal] written to a column
    [Numeric(precision=24, scale=12)]; the backend and its rounding are
    not part of the repository. *)
Variable numeric_24_12 : Decimal -> decimal.

(** The balance a user starts from: the stored one, or the default a
    first row is created with. *)
Definition opening_balance (s : database) (u : string) : decimal :=
  match balance_of s u with
  | Some b => b
  | None => CREDIT_DEFAULT_CREDIT
  end.

(** *** CreditsTable *)

Definition insert_new_credit (user_id : string) : M (option Credit) :=
  try_except
    (id <- uuid4 ;;
     updated_at <- time_now ;;
     created_at <- time_now ;;
     let credit_model := mkCredit id user_id CREDIT_DEFAULT_CREDIT updated_at created_at in
     db <- get_db ;;
     db <- add_credit db credit_model ;;
     db_commit db ;;;
     db_op ;;;                               (* db.refresh(result) *)
     ret (Some credit_model))
    (fun _ => ret None).

Definition get_credit_by_user_id (user_id : string) : M (option Credit) :=
  try_except
    (db <- get_db ;;
     credit <- first_credit db user_id ;;
     match credit with
     | Some c => ret (Some c)
     | None => raise (ValidationError "validation error for CreditModel")
     end)
    (fun _ => ret None).

(** [Credit.user_id.in_(user_ids)]; the rows come in table order. *)
Definition list_credits_by_user_id (user_ids : list string) : M (list Credit) :=
  try_except
    (db <- get_db ;;
     db_op ;;;
     ret (filter (fun r => existsb (String.eqb (c_user_id r)) user_ids) (credit_tbl db)))
    (fun _ => ret []).

Definition init_credit_by_user_id (user_id : string) : M Credit :=
  found <- get_credit_by_user_id user_id ;;
  credit_model <- match found with
                  | Some c => ret (Some c)
                  | None => insert_new_credit user_id
                  end ;;
  match credit_model with
  | Some c => ret c
  | None => raise (HTTPException 500 "credit initialize failed")
  end.

Definition set_credit_by_user_id (form_data : SetCreditForm) : M (option Credit) :=
  credit_model <- init_credit_by_user_id (set_user_id form_data) ;;
  log_id <- uuid4 ;;
  log_created_at <- time_now ;;
  let log := mkCreditLog log_id (set_user_id form_data) (set_credit form_data)
                         (model_dump (set_detail form_data)) log_created_at in
  (db <- get_db ;;
   db <- add_credit_log db log ;;
   now <- time_now ;;
   db <- update_credit db (c_user_id credit_model)
           (fun r => mkCredit (c_id r) (c_user_id r) (set_credit form_data) now (c_created_at r)) ;;
   db_commit db) ;;;
  get_credit_by_user_id (set_user_id form_data).

Definition add_credit_by_user_id (form_data : AddCreditForm) : M (option Credit) :=
  credit_model <- init_credit_by_user_id (add_user_id form_data) ;;
  log_id <- uuid4 ;;
  log_created_at <- time_now ;;
  let log := mkCreditLog log_id (add_user_id form_data)
                         (c_credit credit_model + add_amount form_data)
                         (model_dump (add_detail form_data)) log_created_at in
  (db <- get_db ;;
   db <- add_credit_log db log ;;
   now <- time_now ;;
   db <- update_credit db (add_user_id form_data)
           (fun r => mkCredit (c_id r) (c_user_id r) (c_credit r + add_amount form_data)
                              now (c_created_at r)) ;;
   db_commit db) ;;;
  get_credit_by_user_id (add_user_id form_data).

(** [add_credit_by_user_id] in its two steps: the read of the user's row
    (the call of [init_credit_by_user_id]) and, in a session of its own,
    the write of the log row and of the balance.  The log row is computed
    from the row read, the balance from the row stored. *)
Definition add_credit_read (form_data : AddCreditForm) : M Credit :=
  init_credit_by_user_id (add_user_id form_data).

Definition add_credit_write (form_data : AddCreditForm) (credit_model : Credit)
  : M (option Credit) :=
  log_id <- uuid4 ;;
  log_created_at <- time_now ;;
  let log := mkCreditLog log_id (add_user_id form_data)
                         (c_credit credit_model + add_amount form_data)
                         (model_dump (add_detail form_data)) log_created_at in
  (db <- get_db ;;
   db <- add_credit_log db log ;;
   now <- time_now ;;
   db <- update_credit db (add_user_id form_data)
           (fun r => mkCredit (c_id r) (c_user_id r) (c_credit r + add_amount form_data)
                              now (c_created_at r)) ;;
   db_commit db) ;;;
  get_credit_by_user_id (add_user_id form_data).

(** Two requests served by two workers: the second call runs between the
    read and the write of the first. *)
Definition add_interleaved (first second : AddCreditForm) : M (option Credit) :=
  credit_model <- add_credit_read first ;;
  add_credit_by_user_id second ;;;
  add_credit_write first credit_model.

(** The rows the transaction of [set_credit_by_user_id] writes, from the
    world [w0] it starts in. *)
Definition set_log_row (form : SetCreditForm) (w0 : world) : CreditLog :=
  mkCreditLog (next_uuid w0) (set_user_id form) (set_credit form)
              (model_dump (set_detail form)) (clock w0).

Definition set_row (form : SetCreditForm) (w0 : world) (r : Credit) : Credit :=
  if user_is (set_user_id form) r
  then mkCredit (c_id r) (c_user_id r) (set_credit form) (clock w0) (c_created_at r)
  else r.

(** The rows the transaction of [add_credit_by_user_id] writes; [c] is
    the row read before the transaction. *)
Definition add_log_row (form : AddCreditForm) (w0 : world) (c : Credit) : CreditLog :=
  mkCreditLog (next_uuid w0) (add_user_id form) (c_credit c + add_amount form)
              (model_dump (add_detail form)) (clock w0).

Definition add_row (form : AddCreditForm) (w0 : world) (r : Credit) : Credit :=
  if user_is (add_user_id form) r
  then mkCredit (c_id r) (c_user_id r) (c_credit r + add_amount form) (clock w0)
                (c_created_at r)
  else r.

(** The world [set_credit_by_user_id] leaves from the world [w0] after the
    initialisation, when the database answers. *)
Definition after_set (form : SetCreditForm) (w0 : world) : world :=
  mkWorld (mkDatabase (map (set_row form w0) (credit_tbl (store w0)))
                      (credit_log_tbl (store w0) ++ [set_log_row form w0])
                      (trade_ticket_tbl (store w0)))
          [] (clock w0) (N.succ (next_uuid w0)) (chat_errors w0).

Definition after_add (form : AddCreditForm) (w0 : world) (c : Credit) : world :=
  mkWorld (mkDatabase (map (add_row form w0) (credit_tbl (store w0)))
                      (credit_log_tbl (store w0) ++ [add_log_row form w0 c])
                      (trade_ticket_tbl (store w0)))
          [] (clock w0) (N.succ (next_uuid w0)) (chat_errors w0).

(** The ticket table after [update_credit_by_id] has stored [detail]. *)
Definition with_detail (id : string) (detail : jdict) (tbl : list TradeTicket)
  : list TradeTicket :=
  map (fun r => if ticket_is id r
                then mkTradeTicket (t_id r) (t_user_id r) (t_amount r) detail (t_created_at r)
                else r) tbl.

(** [metadata.get(k)] *)
Definition meta_get (metadata : jdict) (k : string) : pyval :=
  match dict_get metadata k with
  | Some v => v
  | None => PAtom SNone
  end.

(** Modelled from the spec: [Chats.upsert_message_to_chat_by_id_and_message_id]
    belongs to the chat store, which is not among the sources; the
    specification names it as the collaborator that annotates a message
    with an error.  The call [(chat_id, message_id, payload)] is recorded. *)
Definition upsert_message_to_chat (chat_id message_id payload : pyval) : M unit :=
  fun w => (inr tt,
            mkWorld (store w) (faults w) (clock w) (next_uuid w)
                    (chat_errors w ++ [(chat_id, message_id, payload)])).

Definition check_credit_by_user_id (user_id error_msg : string)
           (metadata : option jdict) : M unit :=
  credit <- init_credit_by_user_id user_id ;;
  if c_credit credit <=? 0 then
    match metadata with
    | Some md =>
        if truthy_val (PDict md) then
          let chat_id := meta_get md "chat_id" in
          let message_id :=
            if truthy_val (meta_get md "message_id")
            then meta_get md "message_id" else meta_get md "id" in
          if truthy_val chat_id && truthy_val message_id
          then upsert_message_to_chat chat_id message_id
                 (PDict [("error", PDict [("content", PStr error_msg)])])
          else ret tt
        else ret tt
    | None => ret tt
    end ;;;
    raise (HTTPException 403 error_msg)
  else ret tt.

(** *** TradeTicketTable *)

(** [amount] is the value the [Numeric(24, 12)] column holds for
    [Decimal(amount)]. *)
(** [insert_new_ticket]: the row takes the column's value of
    [Decimal(amount)]; the model returned is the one built in memory, not
    one read back. *)
Definition insert_new_ticket (id user_id : string) (amount : pyfloat)
           (detail : jdict) : M TradeTicketModel :=
  try_except
    (created_at <- time_now ;;
     let ticket := mkTicketModel id user_id (Decimal_of_float amount) detail created_at in
     db <- get_db ;;
     db <- add_trade_ticket db
             (mkTradeTicket (tm_id ticket) (tm_user_id ticket)
                            (numeric_24_12 (tm_amount ticket))
                            (tm_detail ticket) (tm_created_at ticket)) ;;
     db_commit db ;;;
     ret ticket)
    (fun err => raise (HTTPException 500 (str_exn err))).

Definition get_ticket_by_id (id : string) : M (option TradeTicket) :=
  try_except
    (db <- get_db ;;
     ticket <- first_ticket db id ;;
     match ticket with
     | Some t => ret (Some t)
     | None => raise (ValidationError "validation error for TradeTicketModel")
     end)
    (fun _ => ret None).

(** The body has no [return]: the call answers [None] on every path. *)
Definition update_credit_by_id (id : string) (detail : jdict) : M (option TradeTicket) :=
  try_except
    (db <- get_db ;;
     db <- update_ticket_detail db id detail ;;
     db_commit db ;;;
     ticket <- get_ticket_by_id id ;;
     match ticket with
     | None => raise (AttributeError "'NoneType' object has no attribute 'user_id'")
     | Some t =>
         add_credit_by_user_id
           (mkAddCreditForm (t_user_id t) (t_amount t) (detail_with_desc "payment success")) ;;;
         ret None
     end)
    (fun _ => ret None).

(** *** CreditLogTable *)

(** [query.offset(n)] and [query.limit(n)] on a non-negative count. *)
Definition get_credit_log_by_user_id (user_id : string)
           (offset limit : option nat) : M (list CreditLogSimpleModel) :=
  db <- get_db ;;
  let query := filter (fun r => String.eqb (l_user_id r) user_id) (credit_log_tbl db) in
  let query := order_newest_first query in
  let query := match offset with
               | Some n => if Nat.eqb n 0 then query else skipn n query
               | None => query
               end in
  let query := match limit with
               | Some n => if Nat.eqb n 0 then query else firstn n query
               | None => query
               end in
  db_op ;;;
  validate_logs query.

End Tables.
End Credits.

(* ===================================================================== *)
(** ** [utils/auth.py]: session tokens, authorization headers, roles *)
(* ===================================================================== *)

Module Auth.
Import Py PyStr.
Local Open Scope list_scope.

(** *** Strings *)

(** A byte that continues a character of more than one byte. *)
Definition is_continuation (c : ascii) : bool :=
  let n := N_of_ascii c in ((128 <=? n) && (n <? 192))%N.

(** The text from its first character boundary on. *)
Fixpoint skip_continuation (s : string) : string :=
  match s with
  | EmptyString => EmptyString
  | String c s' => if is_continuation c then skip_continuation s' else s
  end.

(** The text begins at a character boundary, as every text and every
    piece cut from a text between two characters does. *)
Definition whole (s : string) : bool :=
  match s with
  | EmptyString => true
  | String c _ => negb (is_continuation c)
  end.

(** [len(s)]: the number of characters. *)
Fixpoint len (s : string) : nat :=
  match s with
  | EmptyString => O
  | String c s' => if is_continuation c then len s' else S (len s')
  end.

(** [s[n:]]: the text without its first [n] characters. *)
Fixpoint drop (n : nat) (s : string) : string :=
  match n, s with
  | O, _ => s
  | S n', String _ s' => drop n' (skip_continuation s')
  | S _, EmptyString => EmptyString
  end.

(** [s.split(sep)] for a separator of one character: the pieces between
    the occurrences of the separator, empty pieces included. *)
Fixpoint split_char (sep : ascii) (s : string) : list string :=
  match s with
  | EmptyString => [EmptyString]
  | String c s' =>
      if Ascii.eqb c sep then EmptyString :: split_char sep s'
      else match split_char sep s' with
           | piece :: pieces => String c piece :: pieces
           | [] => [String c EmptyString]
           end
  end.

(** [sep not in s] *)
Definition free_of (sep : ascii) (s : string) : Prop := ~ In sep (list_ascii_of_string s).

(** A token pair [[created_at, token]] sorts at or before another. *)
Definition newer_token (a b : string * string) : Prop := String.leb (fst b) (fst a) = true.

(** [[created_at, token]] of an item [(token, created_at)] of the hash. *)
Definition swap_item (kv : string * string) : string * string := (snd kv, fst kv).

(** The white space [str.strip()] removes.  Of one byte: U+0009 to
    U+000D, U+001C to U+001F and the space. *)
Definition is_space (c : ascii) : bool :=
  let n := N_of_ascii c in
  (((9 <=? n) && (n <=? 13)) || ((28 <=? n) && (n <=? 32)))%N.

(** Of two bytes: U+0085 and U+00A0. *)
Definition is_space2 (a b : ascii) : bool :=
  let x := N_of_ascii a in
  let y := N_of_ascii b in
  ((x =? 194) && ((y =? 133) || (y =? 160)))%N.

(** Of three bytes: U+1680, U+2000 to U+200A, U+2028, U+2029, U+202F,
    U+205F and U+3000. *)
Definition is_space3 (a b c : ascii) : bool :=
  let x := N_of_ascii a in
  let y := N_of_ascii b in
  let z := N_of_ascii c in
  (((x =? 225) && (y =? 154) && (z =? 128))
   || ((x =? 226) && (y =? 128)
       && (((128 <=? z) && (z <=? 138)) || (z =? 168) || (z =? 169) || (z =? 175)))
   || ((x =? 226) && (y =? 129) && (z =? 159))
   || ((x =? 227) && (y =? 128) && (z =? 128)))%N.

(** [s.lstrip()] *)
Fixpoint lstrip (s : string) : string :=
  match s with
  | EmptyString => EmptyString
  | String a s1 =>
      if is_space a then lstrip s1
      else match s1 with
           | EmptyString => s
           | String b s2 =>
               if is_space2 a b then lstrip s2
               else match s2 with
                    | EmptyString => s
                    | String c s3 => if is_space3 a b c then lstrip s3 else s
                    end
           end
  end.

(** The text is white space from its first byte to its last. *)
Fixpoint all_space (s : string) : bool :=
  match s with
  | EmptyString => true
  | String a s1 =>
      if is_space a then all_space s1
      else match s1 with
           | EmptyString => false
           | String b s2 =>
               if is_space2 a b then all_space s2
               else match s2 with
                    | EmptyString => false
                    | String c s3 => if is_space3 a b c then all_space s3 else false
                    end
           end
  end.

(** [s.rstrip()]: the text up to the point from which only white space
    follows. *)
Fixpoint rstrip (s : string) : string :=
  match s with
  | EmptyString => EmptyString
  | String c s' => if all_space s then EmptyString else String c (rstrip s')
  end.

(** [s.strip()] *)
Definition strip (s : string) : string := rstrip (lstrip s).

(** *** The Redis hashes behind the session-token limit *)

(** A hash maps a field to a value; the client decodes both as strings
    ([decode_responses=True]). *)
Definition hash := list (string * string).
Definition redis := list (string * hash).

(** [redis_client.hgetall(key)]: the empty dictionary for a missing key. *)
Definition hgetall (r : redis) (key : string) : hash :=
  match dict_get r key with
  | Some h => h
  | None => []
  end.

(** [redis_client.hset(name=..., key=..., value=...)] *)
Definition hset (r : redis) (name field value : string) : redis :=
  dict_set r name (dict_set (hgetall r name) field value).

(** [redis_client.hdel(key, *fields)]; Redis drops a hash that has lost
    its last field. *)
Definition hdel (r : redis) (name : string) (fields : list string) : redis :=
  match filter (fun kv => negb (existsb (String.eqb (fst kv)) fields)) (hgetall r name) with
  | [] => filter (fun kh => negb (String.eqb (fst kh) name)) r
  | h => dict_set r name h
  end.

(** What the functions of the module read and change: the Redis client
    ([None] when no Redis is configured), the clock behind
    [time.time_ns()], the users whose last-active time was refreshed at
    once and those for whom the refresh was handed to the background
    tasks. *)
Record world := mkWorld {
  redis_client : option redis;
  time_ns : Z;
  refreshed : list string;
  scheduled : list string
}.

Definition dict := list (string * scalar).

(** [jwt_cache_key]: the f-string formats the id with [str]. *)
Definition jwt_cache_key (id : scalar) : string := ("enhanced:jwt:" ++ str id)%string.

(** [tokens.sort(key=lambda x: x[0], reverse=True)]: descending by the
    first component as a string; the sort is stable, pairs with equal keys
    keep their order. *)
Fixpoint insert_token (x : string * string) (l : list (string * string))
  : list (string * string) :=
  match l with
  | [] => [x]
  | y :: l' => if String.leb (fst y) (fst x) then x :: l else y :: insert_token x l'
  end.

Definition sort_tokens (l : list (string * string)) : list (string * string) :=
  fold_right insert_token [] l.

Record UserModel := mkUser {
  um_id : string;
  um_role : string
}.

(** The texts of [open_webui.constants.ERROR_MESSAGES] the module uses. *)
Record Messages := {
  API_KEY_NOT_ALLOWED : string;
  INVALID_TOKEN : string;
  UNAUTHORIZED : string;
  ACCESS_PROHIBITED : string
}.

(** What a request carries for [get_current_user]. *)
Record Request := {
  cookies : list (string * string);
  enable_api_key : bool;
  ENABLE_API_KEY_ENDPOINT_RESTRICTIONS : bool;
  API_KEY_ALLOWED_ENDPOINTS : string;
  url_path : string
}.

Section Sessions.
(** [ENHANCED_JWT_MAX_COUNT.value] *)
Variable ENHANCED_JWT_MAX_COUNT : string.
(** [int(...)], as in the payment client: the builtin's reading of a text. *)
Variable py_int : string -> exn + Z.
(** [jwt.decode(token, SESSION_SECRET, algorithms=[ALGORITHM])] *)
Variable jwt_decode : string -> exn + dict.
(** [Users.get_user_by_id] and [Users.get_user_by_api_key] *)
Variable get_user_by_id : scalar -> option UserModel.
Variable get_user_by_api_key : string -> option UserModel.
Variable ERROR_MESSAGES : Messages.

Definition check_jwt_max_count (data : dict) (token : string) (w : world)
  : (exn + option dict) * world :=
  match py_int ENHANCED_JWT_MAX_COUNT with
  | inl e => (inl e, w)
  | inr jwt_max_count =>
      match redis_client w with
      | None => (inr (Some data), w)
      | Some r =>
          if jwt_max_count <=? 0 then (inr (Some data), w)
          else
            match data, dict_get data "id" with
            | [], _ | _, None => (inr (Some data), w)
            | _ :: _, Some id =>
                let key := jwt_cache_key id in
                let token_map := hgetall r key in
                match token_map with
                | [] => (inr None, w)
                | _ :: _ =>
                    let tokens := sort_tokens (map swap_item token_map) in
                    let to_verify := firstn (Z.to_nat jwt_max_count) tokens in
                    if existsb (fun t => String.eqb (snd t) token) to_verify
                    then (inr (Some data), w)
                    else
                      let to_remove := skipn (Z.to_nat jwt_max_count) tokens in
                      match to_remove with
                      | [] => (inr None, w)
                      | _ :: _ =>
                          (inr None,
                           mkWorld (Some (hdel r key (map snd to_remove)))
                                   (time_ns w) (refreshed w) (scheduled w))
                      end
                end
            end
      end
  end.

Definition set_jwt_token (user_id token : string) (w : world) : (exn + unit) * world :=
  match py_int ENHANCED_JWT_MAX_COUNT with
  | inl e => (inl e, w)
  | inr jwt_max_count =>
      match redis_client w with
      | None => (inr tt, w)
      | Some r =>
          if jwt_max_count <=? 0 then (inr tt, w)
          else
            let key := jwt_cache_key (SStr user_id) in
            (inr tt,
             mkWorld (Some (hset r key token (str_int (time_ns w))))
                     (time_ns w) (refreshed w) (scheduled w))
      end
  end.

(** [decode_token]: every exception of the body gives [None]. *)
Definition decode_token (token : string) (w : world) : option dict * world :=
  match jwt_decode token with
  | inl _ => (None, w)
  | inr decoded =>
      match check_jwt_max_count decoded token w with
      | (inl _, w') => (None, w')
      | (inr data, w') => (data, w')
      end
  end.

(** [auth_header[len("Bearer "):]] *)
Definition extract_token_from_auth_header (auth_header : string) : string :=
  drop (len "Bearer ") auth_header.

(** [get_http_authorization_cred]: unpacking the split into two names
    raises unless there are exactly two pieces. *)
Definition get_http_authorization_cred (auth_header : option string)
  : option (string * string) :=
  match auth_header with
  | None | Some EmptyString => None
  | Some h =>
      match split_char " " h with
      | [scheme; credentials] => Some (scheme, credentials)
      | _ => None
      end
  end.

Definition get_current_user_by_api_key (api_key : string) (w : world)
  : (exn + UserModel) * world :=
  match get_user_by_api_key api_key with
  | None => (inl (HTTPException 401 (INVALID_TOKEN ERROR_MESSAGES)), w)
  | Some user =>
      (inr user,
       mkWorld (redis_client w) (time_ns w) (refreshed w ++ [um_id user]) (scheduled w))
  end.

(** The paths of [API_KEY_ALLOWED_ENDPOINTS]. *)
Definition allowed_paths (endpoints : string) : list string :=
  map strip (split_char "," endpoints).

(** [request.url.path == allowed or request.url.path.startswith(allowed + "/")] *)
Definition path_matches (path allowed : string) : bool :=
  String.eqb path allowed || starts_with (allowed ++ "/")%string path.

(** [get_current_user]; [auth_token] is the credentials of the bearer
    header when the request has one, [background_tasks] tells whether the
    task queue is there. *)
Definition get_current_user (request : Request) (background_tasks : bool)
           (auth_token : option string) (w : world) : (exn + UserModel) * world :=
  let token :=
    match auth_token with
    | Some credentials => Some credentials
    | None => dict_get (cookies request) "token"
    end in
  match token with
  | None => (inl (HTTPException 403 "Not authenticated"), w)
  | Some token =>
      if starts_with "sk-" token then
        if negb (enable_api_key request)
        then (inl (HTTPException 403 (API_KEY_NOT_ALLOWED ERROR_MESSAGES)), w)
        else if ENABLE_API_KEY_ENDPOINT_RESTRICTIONS request
                && negb (existsb (path_matches (url_path request))
                                 (allowed_paths (API_KEY_ALLOWED_ENDPOINTS request)))
        then (inl (HTTPException 403 (API_KEY_NOT_ALLOWED ERROR_MESSAGES)), w)
        else get_current_user_by_api_key token w
      else
        let '(data, w') := decode_token token w in
        match data with
        | Some d =>
            match dict_get d "id" with
            | Some id =>
                match get_user_by_id id with
                | None => (inl (HTTPException 401 (INVALID_TOKEN ERROR_MESSAGES)), w')
                | Some user =>
                    (inr user,
                     if background_tasks
                     then mkWorld (redis_client w') (time_ns w') (refreshed w')
                                  (scheduled w' ++ [um_id user])
                     else w')
                end
            | None => (inl (HTTPException 401 (UNAUTHORIZED ERROR_MESSAGES)), w')
            end
        | None => (inl (HTTPException 401 (UNAUTHORIZED ERROR_MESSAGES)), w')
        end
  end.

(** [user.role not in {"user", "admin"}] *)
Definition get_verified_user (user : UserModel) : exn + UserModel :=
  if negb (String.eqb (um_role user) "user" || String.eqb (um_role user) "admin")
  then inl (HTTPException 401 (ACCESS_PROHIBITED ERROR_MESSAGES))
  else inr user.

Definition get_admin_user (user : UserModel) : exn + UserModel :=
  if negb (String.eqb (um_role user) "admin")
  then inl (HTTPException 401 (ACCESS_PROHIBITED ERROR_MESSAGES))
  else inr user.

End Sessions.
End Auth.

(* ===================================================================== *)
(** ** Concrete configurations and inputs used as test points *)
(* ===================================================================== *)

Module Scenario.
Import Py Ezfp.
Local Open Scope list_scope.

Definition cfg0 : Config :=
  {| EZFP_PID := "1001";
     EZFP_KEY := "s3cret";
     EZFP_ENDPOINT := "https://pay.example.com/";
     EZFP_CALLBACK_HOST := "https://chat.example.com/";
     WEBUI_NAME := "Open WebUI" |}.

(** A callback as the provider sends it. *)
Definition callback0 : dict :=
  [ ("pid", SStr "1001"); ("out_trade_no", SStr "t1");
    ("money", SStr "10.00"); ("trade_status", SStr "TRADE_SUCCESS") ].

(** A payload with a field whose value is the empty string. *)
Definition payload_blank : dict :=
  [ ("pid", SStr "1001"); ("money", SStr "10.00"); ("param", SStr "") ].

(** A payload of strings in which one value contains the separators of
    the canonical text. *)
Definition payload_amp : dict :=
  [ ("pid", SStr "1001"); ("a", SStr "1&a=2"); ("a=1&a", SStr "2&a=1") ].

(** Malformed callbacks: a forged signature, no [pid], no [sign]. *)
Definition callback_forged : dict :=
  [ ("pid", SStr "1001"); ("out_trade_no", SStr "t1");
    ("sign", SStr "00000000000000000000000000000000"); ("sign_type", SStr "MD5") ].
Definition callback_no_pid : dict :=
  [ ("out_trade_no", SStr "t1"); ("sign", SStr "00"); ("sign_type", SStr "MD5") ].
Definition callback_no_sign : dict :=
  [ ("pid", SStr "1001"); ("out_trade_no", SStr "t1") ].

(** A world in which user u1 holds balance [b] and nothing else is stored. *)
Definition world_with_balance (b : Store.decimal) : Store.world :=
  Store.mkWorld
    (Store.mkDatabase [Store.mkCredit 0%N "u1" b 1700000000 1700000000] [] [])
    [] 1700000100 1%N [].

(** A world with no row at all. *)
Definition empty_world : Store.world :=
  Store.mkWorld (Store.mkDatabase [] [] []) [] 1700000100 1%N [].

(** The example of the specification: ticket t1 of user u1 over 10.00 is
    created, then settled with [{"status": "success"}]. *)
Definition settle_detail : Store.jdict := [ ("status", PStr "success") ].

(** A backend that rounds to the nearest value of twelve places, a tie
    away from zero. *)
Definition numeric_nearest (d : Store.Decimal) : Store.decimal :=
  let k := Z.of_N (Store.places d) in
  if k <=? 12 then Store.coefficient d * 10 ^ (12 - k)
  else
    let q := 10 ^ (k - 12) in
    Z.sgn (Store.coefficient d) * ((2 * Z.abs (Store.coefficient d) + q) / (2 * q)).

(** The floats 10.0, 0.5 and 0.1. *)
Definition float_ten : Store.pyfloat := Store.mkFloat 10 0.
Definition float_half : Store.pyfloat := Store.mkFloat 1 1.
Definition float_tenth : Store.pyfloat := Store.mkFloat 3602879701896397 55.

Definition create_t1 : Store.M Store.TradeTicketModel :=
  Credits.insert_new_ticket numeric_nearest "t1" "u1" float_ten [].

Definition ticket_then_settle (default_credit : Store.decimal)
  : Store.M (option Store.TradeTicket) :=
  Store.bind create_t1
    (fun _ => Credits.update_credit_by_id default_credit "t1" settle_detail).

(** The same with the provider delivering its callback twice. *)
Definition ticket_then_settle_twice (default_credit : Store.decimal)
  : Store.M (option Store.TradeTicket) :=
  Store.bind (ticket_then_settle default_credit)
    (fun _ => Credits.update_credit_by_id default_credit "t1" settle_detail).

(** The world after [create_t1] in [world_with_balance 0]. *)
Definition world_with_t1 : Store.world :=
  Store.mkWorld
    (Store.mkDatabase
       [Store.mkCredit 0%N "u1" 0 1700000000 1700000000] []
       [Store.mkTradeTicket "t1" "u1" (Store.decimal_of_int 10) [] 1700000100])
    [] 1700000100 1%N [].

(** A world whose database fails at the next operation. *)
Definition world_db_down : Store.world :=
  Store.mkWorld (Store.mkDatabase [] [] []) [true] 1700000100 1%N [].

(** A world whose log holds two rows of u1 and one of u2. *)
Definition world_with_logs : Store.world :=
  Store.mkWorld
    (Store.mkDatabase
       [Store.mkCredit 0%N "u1" 7 1700000000 1700000050]
       [Store.mkCreditLog 1%N "u1" 5 (Credits.model_dump (Credits.detail_with_desc "set")) 1700000010;
        Store.mkCreditLog 2%N "u2" 9 (Credits.model_dump (Credits.detail_with_desc "set")) 1700000020;
        Store.mkCreditLog 3%N "u1" 7 (Credits.model_dump (Credits.detail_with_desc "add")) 1700000050]
       [])
    [] 1700000100 4%N [].

(** A reading of numerals for the place of [int]: white space around the
    numeral, a sign, and decimal digits with single underscores between
    them.  It stands for the builtin at the test points, which are plain
    numerals. *)
Fixpoint digits_value (s : string) (acc : Z) (after_digit : bool) : option Z :=
  match s with
  | EmptyString => if after_digit then Some acc else None
  | String c s' =>
      let n := Z.of_N (N_of_ascii c) in
      if (48 <=? n) && (n <=? 57) then digits_value s' (10 * acc + (n - 48)) true
      else if Ascii.eqb c "_" && after_digit then digits_value s' acc false
      else None
  end.

Definition int_numeral (s : string) : exn + Z :=
  let bad := inl (ValueError ("invalid literal for int() with base 10: '" ++ s ++ "'")) in
  match Auth.strip s with
  | EmptyString => bad
  | String c s' =>
      let body := if Ascii.eqb c "-" || Ascii.eqb c "+" then s' else String c s' in
      match digits_value body 0 false with
      | Some n => inr (if Ascii.eqb c "-" then - n else n)
      | None => bad
      end
  end.

(** Two requests that add 5 and 3 to the balance of u1. *)
Definition add_five : Credits.AddCreditForm :=
  Credits.mkAddCreditForm "u1" 5 (Credits.detail_with_desc "first").
Definition add_three : Credits.AddCreditForm :=
  Credits.mkAddCreditForm "u1" 3 (Credits.detail_with_desc "second").

(** The reference of a chat message, as the middleware passes it. *)
Definition chat_ref : Store.jdict :=
  [ ("chat_id", PStr "c-42"); ("message_id", PStr "m-7") ].

(** A transport that raises on every request, and one that answers with a
    body that is not JSON. *)
Definition post_down (url : string) (params : dict) : exn + string :=
  inl (TransportError "All connection attempts failed").
Definition post_html (url : string) (params : dict) : exn + string :=
  inr "<html>502</html>".
Definition json_strict (body : string) : exn + pyval :=
  inl (ValueError "Expecting value: line 1 column 1 (char 0)").
Definition cents_2f (cents : Z) : string :=
  PyStr.str_int (cents / 100) ++ "."
    ++ PyStr.str_int ((cents mod 100) / 10) ++ PyStr.str_int (cents mod 10).

(** The world with ticket t1 in which the third database operation, the
    read of the ticket during a settlement, fails. *)
Definition world_read_fails : Store.world :=
  Store.mkWorld (Store.store world_with_t1) [false; false; true] 1700000100 1%N [].

(** A usage report whose [model] is a name and not a dictionary. *)
Definition detail_model_name : Credits.SetCreditFormDetail :=
  Credits.mkDetail "/api/chat/completions" [("model", PStr "gpt-4o")] "usage" [].

(** Sessions: user u1 holds two tokens, tokA the older one. *)
Definition messages0 : Auth.Messages :=
  {| Auth.API_KEY_NOT_ALLOWED := "api key not allowed";
     Auth.INVALID_TOKEN := "invalid token";
     Auth.UNAUTHORIZED := "unauthorized";
     Auth.ACCESS_PROHIBITED := "access prohibited" |}.

Definition user1 : Auth.UserModel := Auth.mkUser "u1" "user".
Definition pending1 : Auth.UserModel := Auth.mkUser "p1" "pending".

Definition user_by_id0 (id : scalar) : option Auth.UserModel :=
  if py_eq id (SStr "u1") then Some user1 else None.

Definition user_by_api_key0 (api_key : string) : option Auth.UserModel :=
  if String.eqb api_key "sk-key1" then Some user1 else None.

Definition jwt_decode0 (token : string) : exn + Auth.dict :=
  if String.eqb token "tokA" || String.eqb token "tokB" || String.eqb token "tokC"
  then inr [("id", SStr "u1")]
  else inl (ValueError "Not enough segments").

Definition redis0 : Auth.redis :=
  [ ("enhanced:jwt:u1",
     [("tokA", "1700000000000000001"); ("tokB", "1700000000000000002")]) ].

Definition session_world : Auth.world :=
  Auth.mkWorld (Some redis0) 1700000000000000003 [] [].

(** A header whose scheme is written with an accented letter (U+00E9, two
    bytes), and the no-break space U+00A0. *)
Definition bearer_accent : string :=
  String "B" (String (ascii_of_N 195) (String (ascii_of_N 169) "arer ")).
Definition nbsp : string := String (ascii_of_N 194) (String (ascii_of_N 160) "").

(** A request for a path that the setting allows, the setting written
    with no-break spaces around the paths. *)
Definition request_nbsp : Auth.Request :=
  {| Auth.cookies := [];
     Auth.enable_api_key := true;
     Auth.ENABLE_API_KEY_ENDPOINT_RESTRICTIONS := true;
     Auth.API_KEY_ALLOWED_ENDPOINTS := "/api/v1/models," ++ nbsp ++ "/api/chat" ++ nbsp;
     Auth.url_path := "/api/chat" |}.

Definition request0 : Auth.Request :=
  {| Auth.cookies := [];
     Auth.enable_api_key := true;
     Auth.ENABLE_API_KEY_ENDPOINT_RESTRICTIONS := true;
     Auth.API_KEY_ALLOWED_ENDPOINTS := "/api/v1/models, /api/chat";
     Auth.url_path := "/api/chat/completions" |}.

End Scenario.

(* ===================================================================== *)
(** * Properties *)
(* ===================================================================== *)

(** ** The digest against the test suite of RFC 1321 *)

Example md5_test_suite :
  MD5.hexdigest "" = "d41d8cd98f00b204e9800998ecf8427e"
  /\ MD5.hexdigest "a" = "0cc175b9c0f1b6a831c399e269772661"
  /\ MD5.hexdigest "abc" = "900150983cd24fb0d6963f7d28e17f72"
  /\ MD5.hexdigest "message digest" = "f96b697d7cb7938d525a2f31aaf161d0"
  /\ MD5.hexdigest "abcdefghijklmnopqrstuvwxyz" = "c3fcd3d76192e4007dfb496cca67e13b"
  /\ MD5.hexdigest "ABCDEFGHIJKLMNOPQRSTUVWXYZabcdefghijklmnopqrstuvwxyz0123456789"
     = "d174ab98d277d9f5a5611c2c9f419d9f"
  /\ MD5.hexdigest
       "12345678901234567890123456789012345678901234567890123456789012345678901234567890"
     = "57edf4a22be3c955ac49da2e2107b67a".
Proof. vm_compute. repeat split. Qed.

Example sign_callback0 :
  Ezfp.plain_text Scenario.cfg0 Scenario.callback0
  = "money=10.00&out_trade_no=t1&pid=1001&trade_status=TRADE_SUCCESSs3cret"
  /\ Py.dict_get (Ezfp.sign Scenario.cfg0 Scenario.callback0) "sign"
     = Some (Py.SStr "f50ca89fb58142bc0cb9c9a08b1d94ad").
Proof. vm_compute. split; reflexivity. Qed.

(** ** Device classification *)

Section DeviceFacts.
Import PyStr Device.

Lemma starts_with_iff (sub s : string) :
  starts_with sub s = true <-> exists post, s = sub ++ post.
Proof.
  revert s; induction sub as [|c sub IH]; intros s; simpl.
  - split; [intros _; exists s; reflexivity | reflexivity].
  - destruct s as [|d s].
    + split; [discriminate | intros [post H]; discriminate].
    + rewrite andb_true_iff, IH, Ascii.eqb_eq.
      split.
      * intros [-> [post ->]]. now exists post.
      * intros [post H]. injection H as -> ->. split; [reflexivity | now exists post].
Qed.

Lemma occurs_here (sub s : string) : starts_with sub s = true -> occurs sub s.
Proof.
  intros H. apply starts_with_iff in H as [post H]. exists "", post. exact H.
Qed.

Lemma occurs_cons (sub s : string) (c : ascii) :
  starts_with sub (String c s) = false ->
  (occurs sub (String c s) <-> occurs sub s).
Proof.
  intros Hp. split; intros [pre [post H]].
  - destruct pre as [|d pre]; simpl in H.
    + assert (starts_with sub (String c s) = true) as Ht
        by (apply starts_with_iff; exists post; exact H).
      congruence.
    + injection H as _ H. exists pre, post. exact H.
  - exists (String c pre), post. simpl. now rewrite H.
Qed.

Lemma find_from_spec (sub s : string) (i : Z) :
  0 <= i ->
  (occurs sub s /\ i <= find_from sub s i) \/ (~ occurs sub s /\ find_from sub s i = -1).
Proof.
  revert i; induction s as [|c s IH]; intros i Hi; simpl.
  - destruct (starts_with sub "") eqn:Hp.
    + left. split; [now apply occurs_here | lia].
    + right. split; [|reflexivity].
      intros [pre [post H]]. destruct pre; [|discriminate].
      assert (starts_with sub "" = true) as Ht
        by (apply starts_with_iff; exists post; exact H).
      congruence.
  - destruct (starts_with sub (String c s)) eqn:Hp.
    + left. split; [now apply occurs_here | lia].
    + destruct (IH (i + 1) ltac:(lia)) as [[Ho Hle]|[Hn He]].
      * left. split; [now apply occurs_cons | lia].
      * right. split; [|exact He]. intros Ho. apply Hn. now apply (occurs_cons sub s c).
Qed.

Lemma find_hit_iff (s sub : string) :
  negb (find s sub =? -1) = true <-> occurs sub s.
Proof.
  unfold find. rewrite negb_true_iff, Z.eqb_neq.
  destruct (find_from_spec sub s 0 (Z.le_refl 0)) as [[Ho Hle]|[Hn He]].
  - split; [intros _; exact Ho | intros _; lia].
  - split; [intros H; contradiction | intros Ho; contradiction].
Qed.

Lemma find_miss_iff (s sub : string) :
  negb (find s sub =? -1) = false <-> ~ occurs sub s.
Proof.
  rewrite <- find_hit_iff. destruct (negb (find s sub =? -1)); split; congruence.
Qed.

Lemma first_match_functional hay rules out1 out2 :
  first_match hay rules out1 -> first_match hay rules out2 -> out1 = out2.
Proof.
  intros H1; revert out2; induction H1; intros out2 H2; inversion H2; subst;
    try reflexivity; try contradiction; auto.
Qed.

Lemma get_device_first_match (ua : string) :
  first_match (lower ua) device_rules (get_device_from_ua ua).
Proof.
  unfold get_device_from_ua, device_rules.
  destruct (negb (find (lower ua) "micromessenger" =? -1)) eqn:H1.
  { apply fm_here. now apply find_hit_iff. }
  apply fm_later; [now apply find_miss_iff|].
  destruct (negb (find (lower ua) "qq" =? -1)) eqn:H2.
  { apply fm_here. now apply find_hit_iff. }
  apply fm_later; [now apply find_miss_iff|].
  destruct (negb (find (lower ua) "alipay" =? -1)) eqn:H3.
  { apply fm_here. now apply find_hit_iff. }
  apply fm_later; [now apply find_miss_iff|].
  destruct (negb (find (lower ua) "android" =? -1)) eqn:H4; simpl.
  { apply fm_here. now apply find_hit_iff. }
  apply fm_later; [now apply find_miss_iff|].
  destruct (negb (find (lower ua) "iphone" =? -1)) eqn:H5.
  { apply fm_here. now apply find_hit_iff. }
  apply fm_later; [now apply find_miss_iff|].
  apply fm_default.
Qed.

(** C6.  The device class of a user-agent string is the first match, on
    the lower-cased string, in the order wechat ("micromessenger"), qq,
    alipay, mobile ("android" or "iphone"), with "pc" as the default; so
    "Mozilla Android QQ/1.0" is "qq", "Mozilla iPhone" is "mobile", and the
    empty string and an unmatched one are "pc". *)
Theorem device_classification_priority :
  (forall ua out,
      first_match (lower ua) device_rules out <-> get_device_from_ua ua = out)
  /\ get_device_from_ua "Mozilla Android QQ/1.0" = "qq"
  /\ get_device_from_ua "Mozilla iPhone" = "mobile"
  /\ get_device_from_ua "" = "pc"
  /\ get_device_from_ua "Mozilla/5.0 (X11; Linux x86_64)" = "pc".
Proof.
  split; [|repeat split; reflexivity].
  intros ua out. split.
  - intros H. exact (first_match_functional _ _ _ _ (get_device_first_match ua) H).
  - intros <-. apply get_device_first_match.
Qed.
End DeviceFacts.

(** ** Signing and verification *)

Section EzfpFacts.
Import Py PyStr Ezfp.
Local Open Scope list_scope.

Variable cfg : Config.

Local Opaque MD5.hexdigest PyStr.sort PyStr.join.

Lemma dict_get_set_same {V} (d : list (string * V)) k v :
  dict_get (dict_set d k v) k = Some v.
Proof.
  induction d as [|[k' v'] d IH]; simpl.
  - now rewrite String.eqb_refl.
  - destruct (String.eqb k' k) eqn:E; simpl.
    + now rewrite String.eqb_refl.
    + now rewrite E.
Qed.

Lemma dict_get_set_other {V} (d : list (string * V)) k k' v :
  k <> k' -> dict_get (dict_set d k v) k' = dict_get d k'.
Proof.
  intros Hne. induction d as [|[k0 v0] d IH]; simpl.
  - destruct (String.eqb_spec k k'); [contradiction | reflexivity].
  - destruct (String.eqb_spec k0 k) as [->|Hk]; simpl.
    + destruct (String.eqb_spec k k'); [contradiction | reflexivity].
    + destruct (String.eqb k0 k'); [reflexivity | exact IH].
Qed.

Lemma sign_params_set_sign_key (d : dict) k v :
  is_sign_key k = true -> sign_params (dict_set d k v) = sign_params d.
Proof.
  intros Hk. unfold sign_params. f_equal.
  induction d as [|[k' v'] d IH]; simpl.
  - rewrite Hk, andb_false_r. reflexivity.
  - destruct (String.eqb_spec k' k) as [->|Hne]; simpl.
    + rewrite Hk, !andb_false_r. reflexivity.
    + rewrite IH. reflexivity.
Qed.

Lemma plain_text_sign (d : dict) : plain_text cfg (sign cfg d) = plain_text cfg d.
Proof.
  unfold plain_text, sign.
  rewrite !sign_params_set_sign_key by reflexivity. reflexivity.
Qed.

Lemma deepcopy_id (d : dict) : deepcopy d = d.
Proof. unfold deepcopy. apply map_id. Qed.

Lemma get_sign_of_sign (d : dict) :
  dict_get (sign cfg d) "sign" = Some (SStr (MD5.hexdigest (plain_text cfg d))).
Proof.
  unfold sign. rewrite dict_get_set_other by discriminate. apply dict_get_set_same.
Qed.

Lemma get_sign_type_of_sign (d : dict) :
  dict_get (sign cfg d) "sign_type" = Some (SStr "MD5").
Proof. unfold sign. apply dict_get_set_same. Qed.

Lemma get_other_of_sign (d : dict) k :
  is_sign_key k = false -> dict_get (sign cfg d) k = dict_get d k.
Proof.
  unfold is_sign_key. rewrite orb_false_iff, !String.eqb_neq. intros [H1 H2].
  unfold sign. rewrite !dict_get_set_other by congruence. reflexivity.
Qed.

(** What [verify] answers on a payload that has all three fields it reads. *)
Lemma verify_complete (payload : dict) pid s t :
  dict_get payload "pid" = Some pid ->
  dict_get payload "sign" = Some s ->
  dict_get payload "sign_type" = Some t ->
  verify cfg payload =
    inr (py_eq pid (SStr (EZFP_PID cfg))
         && py_eq s (SStr (MD5.hexdigest (plain_text cfg payload)))
         && py_eq t (SStr "MD5")).
Proof.
  intros Hp Hs Ht. unfold verify, getitem.
  rewrite Hp, Hs, Ht, deepcopy_id, get_sign_of_sign, get_sign_type_of_sign.
  destruct (py_eq pid _); simpl; [|reflexivity].
  destruct (py_eq s _); reflexivity.
Qed.

Lemma verify_sign (payload : dict) pid :
  dict_get payload "pid" = Some pid ->
  py_eq pid (SStr (EZFP_PID cfg)) = true ->
  verify cfg (sign cfg payload) = inr true.
Proof.
  intros Hp Hpid.
  rewrite (verify_complete _ pid _ _
             ltac:(rewrite get_other_of_sign by reflexivity; exact Hp)
             (get_sign_of_sign payload) (get_sign_type_of_sign payload)).
  rewrite Hpid, plain_text_sign. simpl. now rewrite String.eqb_refl.
Qed.

Lemma verify_tampered (payload : dict) k v' pid' :
  is_sign_key k = false ->
  dict_get (dict_set (sign cfg payload) k v') "pid" = Some pid' ->
  verify cfg (dict_set (sign cfg payload) k v') =
    inr (py_eq pid' (SStr (EZFP_PID cfg))
         && String.eqb (MD5.hexdigest (plain_text cfg payload))
                       (MD5.hexdigest (plain_text cfg (dict_set (sign cfg payload) k v')))).
Proof.
  intros Hk Hp.
  pose proof Hk as Hk'. unfold is_sign_key in Hk'.
  rewrite orb_false_iff, !String.eqb_neq in Hk'. destruct Hk' as [H1 H2].
  rewrite (verify_complete _ pid' (SStr (MD5.hexdigest (plain_text cfg payload))) (SStr "MD5") Hp).
  - simpl. now rewrite andb_true_r.
  - rewrite dict_get_set_other by congruence. apply get_sign_of_sign.
  - rewrite dict_get_set_other by congruence. apply get_sign_type_of_sign.
Qed.

End EzfpFacts.

Section EzfpClaims.
Import Py PyStr Ezfp Scenario.
Local Open Scope list_scope.
Local Opaque MD5.hexdigest PyStr.sort PyStr.join.

(** C3 (as amended).  For a payload whose [pid] equals the configured
    merchant id, [verify (sign payload)] is true.  After the value of a
    non-signature field other than [pid] is changed, [verify] answers
    false when the digest of the canonical text changed and true when the
    canonical text did not change; a [pid] changed to another merchant id
    makes [verify] false. *)
Theorem sign_verify_round_trip (cfg : Config) (payload : dict) (pid : scalar) :
  dict_get payload "pid" = Some pid ->
  py_eq pid (SStr (EZFP_PID cfg)) = true ->
  verify cfg (sign cfg payload) = inr true
  /\ (forall k v', is_sign_key k = false -> k <> "pid" ->
        MD5.hexdigest (plain_text cfg (dict_set (sign cfg payload) k v'))
          <> MD5.hexdigest (plain_text cfg payload) ->
        verify cfg (dict_set (sign cfg payload) k v') = inr false)
  /\ (forall k v', is_sign_key k = false -> k <> "pid" ->
        plain_text cfg (dict_set (sign cfg payload) k v') = plain_text cfg payload ->
        verify cfg (dict_set (sign cfg payload) k v') = inr true)
  /\ (forall v', py_eq v' (SStr (EZFP_PID cfg)) = false ->
        verify cfg (dict_set (sign cfg payload) "pid" v') = inr false).
Proof.
  intros Hp Hpid. split; [exact (verify_sign cfg payload pid Hp Hpid)|].
  assert (forall k v', k <> "pid" ->
            dict_get (dict_set (sign cfg payload) k v') "pid" = Some pid) as Hkeep.
  { intros k v' Hk. rewrite dict_get_set_other by exact Hk.
    rewrite get_other_of_sign by reflexivity. exact Hp. }
  repeat split.
  - intros k v' Hk Hnp Hd.
    rewrite (verify_tampered cfg payload k v' pid Hk (Hkeep k v' Hnp)), Hpid. simpl.
    f_equal. apply String.eqb_neq. congruence.
  - intros k v' Hk Hnp He.
    rewrite (verify_tampered cfg payload k v' pid Hk (Hkeep k v' Hnp)), Hpid, He. simpl.
    f_equal. apply String.eqb_refl.
  - intros v' Hv.
    rewrite (verify_tampered cfg payload "pid" v' v' eq_refl (dict_get_set_same _ _ _)), Hv.
    reflexivity.
Qed.

Lemma sign_verify_round_trip_witness :
  verify cfg0 (sign cfg0 callback0) = inr true
  /\ verify cfg0 (dict_set (sign cfg0 callback0) "money" (SStr "99.00")) = inr false
  /\ verify cfg0 (dict_set (sign cfg0 callback0) "pid" (SStr "2002")) = inr false.
Proof.
  destruct (sign_verify_round_trip cfg0 callback0 (SStr "1001") eq_refl eq_refl)
    as [H1 [H2 [_ H4]]].
  split; [exact H1|]. split.
  - apply H2; [reflexivity | discriminate | vm_compute; discriminate].
  - apply H4. reflexivity.
Defined.

(** C3 as stated fails: a changed non-signature field can leave [verify]
    true.  A field changed from [""] to [None] stays out of the canonical
    text, and a value containing ["&"] and ["="] can be changed so that
    the sorted, joined text is the same. *)
Lemma tampered_field_still_verifies :
  (dict_get (sign cfg0 payload_blank) "param" = Some (SStr "")
   /\ SNone <> SStr ""
   /\ verify cfg0 (dict_set (sign cfg0 payload_blank) "param" SNone) = inr true)
  /\ (dict_get (sign cfg0 payload_amp) "a" = Some (SStr "1&a=2")
      /\ SStr "2&a=1" <> SStr "1&a=2"
      /\ verify cfg0 (dict_set (sign cfg0 payload_amp) "a" (SStr "2&a=1")) = inr true).
Proof.
  repeat split; try discriminate; vm_compute; reflexivity.
Qed.

(** C4 (as amended).  On a payload that has [pid], [sign] and [sign_type],
    [verify] returns a Boolean, true only when all three match.  It
    returns false as soon as a field it has read does not match.  On a
    payload without [pid] it raises [KeyError]; so it does without [sign]
    when [pid] matches, and without [sign_type] when [pid] and [sign]
    match. *)
Theorem verify_missing_fields (cfg : Config) (payload : dict) :
  (forall pid s t,
      dict_get payload "pid" = Some pid ->
      dict_get payload "sign" = Some s ->
      dict_get payload "sign_type" = Some t ->
      exists b, verify cfg payload = inr b
                /\ (b = true <->
                    py_eq pid (SStr (EZFP_PID cfg)) = true
                    /\ py_eq s (SStr (MD5.hexdigest (plain_text cfg payload))) = true
                    /\ py_eq t (SStr "MD5") = true))
  /\ (forall pid, dict_get payload "pid" = Some pid ->
        py_eq pid (SStr (EZFP_PID cfg)) = false -> verify cfg payload = inr false)
  /\ (forall pid s, dict_get payload "pid" = Some pid ->
        py_eq pid (SStr (EZFP_PID cfg)) = true ->
        dict_get payload "sign" = Some s ->
        py_eq s (SStr (MD5.hexdigest (plain_text cfg payload))) = false ->
        verify cfg payload = inr false)
  /\ (dict_get payload "pid" = None -> verify cfg payload = inl (KeyError "pid"))
  /\ (forall pid, dict_get payload "pid" = Some pid ->
        py_eq pid (SStr (EZFP_PID cfg)) = true ->
        dict_get payload "sign" = None -> verify cfg payload = inl (KeyError "sign"))
  /\ (forall pid s, dict_get payload "pid" = Some pid ->
        py_eq pid (SStr (EZFP_PID cfg)) = true ->
        dict_get payload "sign" = Some s ->
        py_eq s (SStr (MD5.hexdigest (plain_text cfg payload))) = true ->
        dict_get payload "sign_type" = None ->
        verify cfg payload = inl (KeyError "sign_type")).
Proof.
  split; [|repeat split].
  - intros pid s t Hp Hs Ht. eexists. split; [exact (verify_complete cfg payload pid s t Hp Hs Ht)|].
    rewrite !andb_true_iff. tauto.
  - intros pid Hp Hne. unfold verify, getitem. now rewrite Hp, Hne.
  - intros pid s Hp Hq Hs Hne. unfold verify, getitem.
    now rewrite Hp, Hq, Hs, deepcopy_id, get_sign_of_sign, Hne.
  - intros Hp. unfold verify, getitem. now rewrite Hp.
  - intros pid Hp Hq Hs. unfold verify, getitem. now rewrite Hp, Hq, Hs.
  - intros pid s Hp Hq Hs He Ht. unfold verify, getitem.
    now rewrite Hp, Hq, Hs, deepcopy_id, get_sign_of_sign, He, Ht.
Qed.

Lemma verify_missing_fields_witness :
  verify cfg0 callback_forged = inr false
  /\ verify cfg0 callback_no_pid = inl (KeyError "pid")
  /\ verify cfg0 callback_no_sign = inl (KeyError "sign").
Proof.
  split; [|split].
  - destruct (verify_missing_fields cfg0 callback_forged) as [_ [_ [H _]]].
    apply (H (SStr "1001") (SStr "00000000000000000000000000000000"));
      [reflexivity | reflexivity | reflexivity | vm_compute; reflexivity].
  - destruct (verify_missing_fields cfg0 callback_no_pid) as [_ [_ [_ [H _]]]].
    apply H. reflexivity.
  - destruct (verify_missing_fields cfg0 callback_no_sign) as [_ [_ [_ [_ [H _]]]]].
    apply (H (SStr "1001")); reflexivity.
Defined.

(** C4 as stated fails: on a callback without [pid], and on one with the
    right [pid] and no [sign], [verify] raises [KeyError] instead of
    returning false. *)
Lemma verify_raises_on_missing_field :
  verify cfg0 callback_no_pid = inl (KeyError "pid")
  /\ verify cfg0 callback_no_pid <> inr false
  /\ verify cfg0 callback_no_sign = inl (KeyError "sign")
  /\ verify cfg0 callback_no_sign <> inr false.
Proof.
  repeat split; try reflexivity; vm_compute; discriminate.
Qed.

(** C7.  Once the request has been built ([int] has read the merchant
    id), a [post] that raises, or a
    response whose [json()] raises, makes [create_trade] return
    [{"code": -1, "msg": str(err)}]; whatever the transport does,
    [create_trade] returns a value and closes the client. *)
Theorem create_trade_transport_failure
        (cfg : Config) (py_int : string -> exn + Z)
        (float : Type) (format_2f : float -> string) (response : Type)
        (client_post : string -> dict -> exn + response)
        (response_json : response -> exn + pyval)
        (pay_type out_trade_no : string) (amount : float) (client_ip ua : string)
        (pid : Z) :
  py_int (EZFP_PID cfg) = inr pid ->
  let url := (rstrip_slash (EZFP_ENDPOINT cfg) ++ "/mapi.php")%string in
  let payload := sign cfg (trade_payload cfg float format_2f pid pay_type out_trade_no
                                         amount client_ip ua) in
  let run := create_trade cfg py_int float format_2f response client_post response_json
                          pay_type out_trade_no amount client_ip ua in
  (forall err, client_post url payload = inl err ->
      fst run = inr (PDict [("code", PInt (-1)); ("msg", PStr (str_exn err))]))
  /\ (forall resp err, client_post url payload = inr resp ->
        response_json resp = inl err ->
        fst run = inr (PDict [("code", PInt (-1)); ("msg", PStr (str_exn err))]))
  /\ (forall resp body, client_post url payload = inr resp ->
        response_json resp = inr body -> fst run = inr body)
  /\ (exists v, fst run = inr v)
  /\ snd run = [EvPost url payload; EvClose].
Proof.
  intros Hpid url payload run. subst run. unfold create_trade. rewrite Hpid.
  fold payload. fold url. cbn [fst snd].
  repeat split.
  - intros err ->. reflexivity.
  - intros resp err -> ->. reflexivity.
  - intros resp body -> ->. reflexivity.
  - destruct (client_post url payload) as [e|r]; [eexists; reflexivity|].
    destruct (response_json r); eexists; reflexivity.
Qed.

Lemma create_trade_transport_failure_witness :
  fst (create_trade cfg0 int_numeral Z cents_2f string post_down json_strict
                    "alipay" "t1" 1000 "203.0.113.7" "Mozilla iPhone")
    = inr (PDict [("code", PInt (-1)); ("msg", PStr "All connection attempts failed")])
  /\ fst (create_trade cfg0 int_numeral Z cents_2f string post_html json_strict
                       "alipay" "t1" 1000 "203.0.113.7" "Mozilla iPhone")
     = inr (PDict [("code", PInt (-1));
                   ("msg", PStr "Expecting value: line 1 column 1 (char 0)")]).
Proof.
  split.
  - destruct (create_trade_transport_failure cfg0 int_numeral Z cents_2f string post_down json_strict
                "alipay" "t1" 1000 "203.0.113.7" "Mozilla iPhone" 1001 eq_refl)
      as [H _].
    exact (H (TransportError "All connection attempts failed") eq_refl).
  - destruct (create_trade_transport_failure cfg0 int_numeral Z cents_2f string post_html json_strict
                "alipay" "t1" 1000 "203.0.113.7" "Mozilla iPhone" 1001 eq_refl)
      as [_ [H _]].
    exact (H "<html>502</html>" (ValueError "Expecting value: line 1 column 1 (char 0)")
             eq_refl eq_refl).
Defined.
End EzfpClaims.

(** ** The credit log listing *)

Section LogListing.
Import Py Store Credits.
Local Open Scope list_scope.

Lemma insert_newest_perm x l : Permutation (insert_newest x l) (x :: l).
Proof.
  induction l as [|y l IH]; simpl; [reflexivity|].
  destruct (l_created_at y <=? l_created_at x); [reflexivity|].
  rewrite IH. apply perm_swap.
Qed.

Lemma order_newest_first_perm l : Permutation (order_newest_first l) l.
Proof.
  induction l as [|x l IH]; simpl; [reflexivity|].
  rewrite insert_newest_perm. now constructor.
Qed.

Lemma insert_newest_sorted x l :
  StronglySorted newer_or_same l -> StronglySorted newer_or_same (insert_newest x l).
Proof.
  induction 1 as [|y l Hs IH Hy]; simpl.
  - repeat constructor.
  - destruct (Z.leb_spec (l_created_at y) (l_created_at x)) as [Hle|Hgt].
    + constructor; [now constructor|].
      constructor; [exact Hle|].
      rewrite Forall_forall in *. intros z Hz. specialize (Hy z Hz).
      unfold newer_or_same in *. lia.
    + constructor; [exact IH|].
      rewrite (Forall_forall (newer_or_same y)). intros z Hz.
      apply (Permutation_in _ (insert_newest_perm x l)) in Hz.
      destruct Hz as [<-|Hz].
      * unfold newer_or_same. lia.
      * rewrite Forall_forall in Hy. now apply Hy.
Qed.

Lemma order_newest_first_sorted l : StronglySorted newer_or_same (order_newest_first l).
Proof.
  induction l as [|x l IH]; simpl; [constructor | now apply insert_newest_sorted].
Qed.

Lemma validate_logs_fields rows : forall w ms w',
  validate_logs rows w = (inr ms, w') ->
  w' = w
  /\ map sm_id ms = map l_id rows
  /\ map sm_user_id ms = map l_user_id rows
  /\ map sm_credit ms = map l_credit rows
  /\ map sm_created_at ms = map l_created_at rows.
Proof.
  induction rows as [|r rows IH]; intros w ms w' H; simpl in H.
  - injection H as <- <-. repeat split.
  - unfold bind, validate_log in H.
    destruct (validate_detail (l_detail r)) as [e|d]; [discriminate|].
    unfold ret at 1 in H.
    destruct (validate_logs rows w) as [[e|ms'] w1] eqn:E; [discriminate|].
    injection H as <- <-.
    destruct (IH _ _ _ E) as (-> & H1 & H2 & H3 & H4).
    simpl. rewrite H1, H2, H3, H4. repeat split.
Qed.

Lemma validate_logs_total rows w :
  Forall (fun r => exists d, validate_detail (l_detail r) = inr d) rows ->
  exists ms, validate_logs rows w = (inr ms, w) /\ List.length ms = List.length rows.
Proof.
  induction 1 as [|r rows [d Hd] _ [ms [IH Hl]]]; simpl.
  - exists []. split; reflexivity.
  - unfold bind, validate_log. rewrite Hd. unfold ret at 1. rewrite IH.
    eexists. split; [reflexivity|]. simpl. now rewrite Hl.
Qed.

(** C10.  In the credit-log listing a limit of 0 and an offset of 0 act
    as an omitted parameter: the answers are equal, and with both at 0
    the answer, when the call returns, holds every log entry of the user
    in newest-first order; it does return, with as many entries as the
    user has rows, when the database answers and the rows validate. *)
Theorem listing_zero_is_unlimited (user_id : string) (w : world) :
  (forall offset, get_credit_log_by_user_id user_id offset (Some 0%nat) w
                  = get_credit_log_by_user_id user_id offset None w)
  /\ (forall limit, get_credit_log_by_user_id user_id (Some 0%nat) limit w
                    = get_credit_log_by_user_id user_id None limit w)
  /\ (forall ms w',
        get_credit_log_by_user_id user_id (Some 0%nat) (Some 0%nat) w = (inr ms, w') ->
        exists rows,
          Permutation rows (logs_of (store w) user_id)
          /\ StronglySorted newer_or_same rows
          /\ map sm_id ms = map l_id rows
          /\ map sm_credit ms = map l_credit rows
          /\ map sm_created_at ms = map l_created_at rows)
  /\ (faults w = [] ->
      Forall (fun r => exists d, validate_detail (l_detail r) = inr d)
             (logs_of (store w) user_id) ->
      exists ms, get_credit_log_by_user_id user_id (Some 0%nat) (Some 0%nat) w = (inr ms, w)
                 /\ List.length ms = List.length (logs_of (store w) user_id)).
Proof.
  split; [reflexivity|]. split; [reflexivity|]. split.
  - intros ms w' H.
    exists (order_newest_first (logs_of (store w) user_id)).
    split; [apply order_newest_first_perm|].
    split; [apply order_newest_first_sorted|].
    unfold get_credit_log_by_user_id, bind, get_db in H.
    destruct (db_op w) as [[e|[]] w1] eqn:E; [discriminate|].
    assert (store w1 = store w) as Hst.
    { unfold db_op in E. destruct (faults w) as [|[] fl]; inversion E; reflexivity. }
    apply validate_logs_fields in H. tauto.
  - intros Hf Hall.
    unfold get_credit_log_by_user_id, bind, get_db, db_op. rewrite Hf.
    fold (logs_of (store w) user_id).
    assert (Forall (fun r => exists d, validate_detail (l_detail r) = inr d)
                   (order_newest_first (logs_of (store w) user_id))) as Hall'.
    { rewrite Forall_forall in *. intros r Hr. apply Hall.
      exact (Permutation_in _ (order_newest_first_perm _) Hr). }
    destruct (validate_logs_total _ w Hall') as [ms [Hv Hl]].
    exists ms. split; [exact Hv|].
    rewrite Hl. apply Permutation_length, order_newest_first_perm.
Qed.
End LogListing.

(** ** The ledger *)

Section Ledger.
Import Py Store Credits.
Local Open Scope list_scope.

Variable D : decimal.
Variable numeric : Decimal -> decimal.

Ltac run :=
  repeat (progress
    (cbv beta iota delta [bind ret raise try_except get_db db_commit db_op time_now uuid4];
     cbn [store faults clock next_uuid chat_errors
          credit_tbl credit_log_tbl trade_ticket_tbl fst snd
          c_id c_user_id c_credit l_id l_user_id t_id t_user_id t_amount
          tm_id tm_user_id tm_amount tm_detail tm_created_at])).

Lemma find_app_fresh (u : string) (tbl : list Credit) (row : Credit) :
  existsb (fun r => N.eqb (c_id r) (c_id row) || String.eqb (c_user_id r) (c_user_id row)) tbl
    = false ->
  c_user_id row = u ->
  List.find (user_is u) tbl = None
  /\ List.find (user_is u) (tbl ++ [row]) = Some row.
Proof.
  intros He <-. unfold user_is.
  assert (List.find (fun r => String.eqb (c_user_id r) (c_user_id row)) tbl = None) as Hn.
  { induction tbl as [|r tbl IH]; simpl in *; [reflexivity|].
    apply orb_false_iff in He as [He1 He2]. apply orb_false_iff in He1 as [_ He1].
    rewrite He1. now apply IH. }
  split; [exact Hn|].
  clear He. induction tbl as [|r tbl IH]; simpl in *.
  - now rewrite String.eqb_refl.
  - destruct (String.eqb (c_user_id r) (c_user_id row)); [discriminate | now apply IH].
Qed.

(** [get_credit_by_user_id] never raises and writes nothing. *)
Lemma get_credit_outcome (u : string) (w : world) :
  exists r w', get_credit_by_user_id u w = (inr r, w')
               /\ store w' = store w /\ chat_errors w' = chat_errors w
               /\ next_uuid w' = next_uuid w /\ clock w' = clock w
               /\ (faults w = [] -> faults w' = []
                    /\ r = List.find (user_is u) (credit_tbl (store w)))
               /\ (forall c, r = Some c ->
                     List.find (user_is u) (credit_tbl (store w)) = Some c).
Proof.
  destruct w as [st fl ck nu ce].
  unfold get_credit_by_user_id, first_credit. run.
  destruct fl as [|[|] fl]; run;
    try (destruct (List.find _ (credit_tbl st)) eqn:E; run);
    do 2 eexists; (split; [reflexivity|]); cbn; repeat split; intros;
      try congruence; try discriminate.
Qed.

(** [insert_new_credit] never raises; it leaves the table alone or appends
    one row for a user who had none. *)
Lemma insert_new_credit_outcome (u : string) (w : world) :
  exists r w',
    insert_new_credit D u w = (inr r, w')
    /\ credit_log_tbl (store w') = credit_log_tbl (store w)
    /\ trade_ticket_tbl (store w') = trade_ticket_tbl (store w)
    /\ chat_errors w' = chat_errors w /\ clock w' = clock w
    /\ next_uuid w' = N.succ (next_uuid w)
    /\ ((credit_tbl (store w') = credit_tbl (store w) /\ r = None)
        \/ (let row := mkCredit (next_uuid w) u D (clock w) (clock w) in
            credit_tbl (store w') = credit_tbl (store w) ++ [row]
            /\ List.find (user_is u) (credit_tbl (store w)) = None
            /\ List.find (user_is u) (credit_tbl (store w')) = Some row
            /\ (r = None \/ r = Some row)))
    /\ (faults w = [] ->
        existsb (fun r => N.eqb (c_id r) (next_uuid w) || String.eqb (c_user_id r) u)
                (credit_tbl (store w)) = false ->
        faults w' = [] /\ r = Some (mkCredit (next_uuid w) u D (clock w) (clock w))).
Proof.
  destruct w as [[ct lt tk] fl ck nu ce].
  unfold insert_new_credit, add_credit. run.
  destruct (existsb _ ct) eqn:Hex.
  - (* the row would violate a constraint *)
    destruct fl as [|[|] fl]; run; rewrite ?Hex; run;
      do 2 eexists; (split; [reflexivity|]); cbn;
        repeat split; try (left; split; reflexivity); intros; discriminate.
  - destruct (find_app_fresh u ct (mkCredit nu u D ck ck) Hex eq_refl) as [Hn Hs].
    destruct fl as [|[|] fl]; run; rewrite ?Hex; run;
      [ | | destruct fl as [|[|] fl]; run; [ | | destruct fl as [|[|] fl]; run ] ];
      do 2 eexists; (split; [reflexivity|]); cbn;
        repeat split; intros; try discriminate;
          first [ left; split; reflexivity
                | right; repeat split; first [exact Hn | exact Hs | left; reflexivity | right; reflexivity] ].
Qed.

Lemma find_user_is (u : string) (tbl : list Credit) (c : Credit) :
  List.find (user_is u) tbl = Some c -> c_user_id c = u.
Proof.
  intros H. apply find_some in H as [_ H]. now apply String.eqb_eq.
Qed.

Lemma fresh_row_absent (u : string) (w : world) :
  ids_fresh w ->
  List.find (user_is u) (credit_tbl (store w)) = None ->
  existsb (fun r => N.eqb (c_id r) (next_uuid w) || String.eqb (c_user_id r) u)
          (credit_tbl (store w)) = false.
Proof.
  intros [Hc _] Hn.
  apply not_true_is_false. intros He.
  apply existsb_exists in He as [r [Hin Hr]].
  apply orb_true_iff in Hr as [Hr|Hr].
  - apply N.eqb_eq in Hr. specialize (Hc r Hin). lia.
  - pose proof (find_none _ _ Hn r Hin) as Hf. unfold user_is in Hf. congruence.
Qed.

(** [init_credit_by_user_id] returns the user's row or raises the 500
    error; it touches no table but [credit], where it may append the
    user's first row. *)
Lemma init_credit_outcome (u : string) (w : world) :
  exists r w',
    init_credit_by_user_id D u w = (r, w')
    /\ credit_log_tbl (store w') = credit_log_tbl (store w)
    /\ trade_ticket_tbl (store w') = trade_ticket_tbl (store w)
    /\ chat_errors w' = chat_errors w /\ clock w' = clock w
    /\ (next_uuid w <= next_uuid w')%N
    /\ (credit_tbl (store w') = credit_tbl (store w)
        \/ (List.find (user_is u) (credit_tbl (store w)) = None
            /\ credit_tbl (store w')
               = credit_tbl (store w) ++ [mkCredit (next_uuid w) u D (clock w) (clock w)]
            /\ next_uuid w' = N.succ (next_uuid w)))
    /\ (forall c, r = inr c -> List.find (user_is u) (credit_tbl (store w')) = Some c)
    /\ (forall e, r = inl e -> e = HTTPException 500 "credit initialize failed")
    /\ (faults w = [] -> ids_fresh w ->
        faults w' = [] /\ exists c, r = inr c /\ c_credit c = opening_balance D (store w) u).
Proof.
  unfold init_credit_by_user_id.
  destruct (get_credit_outcome u w) as (r1 & w1 & Hget & Hst & Hce & Hnu & Hck & Hnf & Hfound).
  cbv beta delta [bind]. rewrite Hget.
  destruct r1 as [c|].
  - (* the row is there *)
    exists (inr c), w1. cbv beta iota delta [ret]. split; [reflexivity|].
    rewrite Hst, Hnu. repeat split; try assumption; try lia.
    + now left.
    + intros c' [= <-]. now apply Hfound.
    + intros e [=].
    + now apply Hnf.
    + exists c. split; [reflexivity|].
      unfold opening_balance, balance_of. now rewrite (Hfound c eq_refl).
  - (* no row was read: insert one *)
    destruct (insert_new_credit_outcome u w1)
      as (r2 & w2 & Hins & Hl2 & Ht2 & Hce2 & Hck2 & Hnu2 & Hcase & Hnf2).
    rewrite Hins. rewrite Hst, Hnu, Hck in *.
    assert (forall c, r2 = Some c -> List.find (user_is u) (credit_tbl (store w2)) = Some c) as Hr2.
    { intros c ->. destruct Hcase as [[_ [=]]|(_ & _ & Hs & [[=]|[= ->]])]. exact Hs. }
    assert (credit_tbl (store w2) = credit_tbl (store w)
            \/ (List.find (user_is u) (credit_tbl (store w)) = None
                /\ credit_tbl (store w2)
                   = credit_tbl (store w) ++ [mkCredit (next_uuid w) u D (clock w) (clock w)]
                /\ next_uuid w2 = N.succ (next_uuid w))) as Htbl.
    { destruct Hcase as [[E _]|(E & Hn & _)]; [now left | right; repeat split; assumption]. }
    assert (faults w = [] -> ids_fresh w ->
            faults w2 = [] /\ r2 = Some (mkCredit (next_uuid w) u D (clock w) (clock w))
            /\ balance_of (store w) u = None) as Hok.
    { intros Hf Hfresh. destruct (Hnf Hf) as [Hf1 Hr1].
      assert (List.find (user_is u) (credit_tbl (store w)) = None) as Hnone by now symmetry.
      destruct (Hnf2 Hf1 (fresh_row_absent u w Hfresh Hnone)) as [Hf2 Hr2'].
      repeat split; try assumption. unfold balance_of. now rewrite Hnone. }
    destruct r2 as [c|]; cbv beta iota delta [ret raise].
    + exists (inr c), w2. split; [reflexivity|].
      repeat split; try congruence; try lia; try assumption.
      * intros c' [= <-]. now apply Hr2.
      * now apply Hok.
      * match goal with Hf : faults w = [], Hfresh : ids_fresh w |- _ =>
          destruct (Hok Hf Hfresh) as (_ & [= ->] & Hb) end.
        eexists. split; [reflexivity|]. unfold opening_balance. now rewrite Hb.
    + exists (inl (HTTPException 500 "credit initialize failed")), w2.
      split; [reflexivity|].
      repeat split; try congruence; try lia; try assumption.
      * now apply Hok.
      * match goal with Hf : faults w = [], Hfresh : ids_fresh w |- _ =>
          destruct (Hok Hf Hfresh) as (_ & [=] & _) end.
Qed.

(** C5.  With the balance row that [init_credit_by_user_id] yields,
    [check_credit_by_user_id] raises [HTTPException(403, error_msg)]
    exactly when the balance is at most zero and returns when it is
    positive; before raising it records the error on the chat message
    when the metadata carries a chat id and a message id. *)
Theorem check_credit_gate (u msg : string) (md : option jdict) (w w1 : world) (c : Credit) :
  init_credit_by_user_id D u w = (inr c, w1) ->
  (0 < c_credit c -> check_credit_by_user_id D u msg md w = (inr tt, w1))
  /\ (c_credit c <= 0 ->
      exists w2,
        check_credit_by_user_id D u msg md w = (inl (HTTPException 403 msg), w2)
        /\ kind_of (HTTPException 403 msg) = AccessDenied
        /\ store w2 = store w1
        /\ (forall m, md = Some m ->
              truthy_val (meta_get m "chat_id") = true ->
              truthy_val (meta_get m "message_id") = true ->
              chat_errors w2
              = chat_errors w1
                  ++ [(meta_get m "chat_id", meta_get m "message_id",
                       PDict [("error", PDict [("content", PStr msg)])])])
        /\ (md = None -> chat_errors w2 = chat_errors w1))
  /\ ((exists e w2, check_credit_by_user_id D u msg md w = (inl e, w2)) <-> c_credit c <= 0).
Proof.
  intros Hinit.
  assert (Hpos : 0 < c_credit c -> check_credit_by_user_id D u msg md w = (inr tt, w1)).
  { intros Hc. unfold check_credit_by_user_id. cbv beta delta [bind]. rewrite Hinit.
    destruct (Z.leb_spec (c_credit c) 0); [lia | reflexivity]. }
  assert (Hneg : c_credit c <= 0 ->
      exists w2,
        check_credit_by_user_id D u msg md w = (inl (HTTPException 403 msg), w2)
        /\ kind_of (HTTPException 403 msg) = AccessDenied
        /\ store w2 = store w1
        /\ (forall m, md = Some m ->
              truthy_val (meta_get m "chat_id") = true ->
              truthy_val (meta_get m "message_id") = true ->
              chat_errors w2
              = chat_errors w1
                  ++ [(meta_get m "chat_id", meta_get m "message_id",
                       PDict [("error", PDict [("content", PStr msg)])])])
        /\ (md = None -> chat_errors w2 = chat_errors w1)).
  { intros Hc. unfold check_credit_by_user_id. cbv beta delta [bind]. rewrite Hinit.
    destruct (Z.leb_spec (c_credit c) 0) as [_|]; [|lia].
    destruct md as [[|kv m]|]; cbn [truthy_val].
    - eexists. split; [reflexivity|]. repeat split; try discriminate.
      intros m [= <-] Hchat. discriminate Hchat.
    - destruct (truthy_val (meta_get (kv :: m) "chat_id")) eqn:Hchat;
        [destruct (truthy_val (meta_get (kv :: m) "message_id")) eqn:Hmsg|].
      + rewrite ?Hmsg. cbn [andb].
        eexists. split; [reflexivity|]. repeat split; try discriminate.
        intros m' [= <-] _ _. reflexivity.
      + cbn [andb].
        destruct (truthy_val (meta_get (kv :: m) "id"));
          (eexists; split; [reflexivity|]; repeat split; try discriminate;
           intros m' [= <-] _ Hm; congruence).
      + cbn [andb]. eexists. split; [reflexivity|]. repeat split; try discriminate.
        intros m' [= <-] Hm; congruence.
    - eexists. split; [reflexivity|]. repeat split; discriminate. }
  split; [exact Hpos|]. split; [exact Hneg|].
  split.
  - intros (e & w2 & He).
    destruct (Z.le_gt_cases (c_credit c) 0) as [|Hgt]; [assumption|].
    rewrite (Hpos Hgt) in He. discriminate.
  - intros Hc. destruct (Hneg Hc) as (w2 & He & _). eauto.
Qed.


Lemma find_map_update (u : string) (f : Credit -> Credit) (tbl : list Credit) :
  (forall r, c_user_id (f r) = c_user_id r) ->
  List.find (user_is u) (map (fun r => if user_is u r then f r else r) tbl)
  = option_map f (List.find (user_is u) tbl).
Proof.
  intros Hf. induction tbl as [|r tbl IH]; simpl; [reflexivity|].
  destruct (user_is u r) eqn:E.
  - unfold user_is in *. now rewrite Hf, E.
  - now rewrite E.
Qed.

(** Steps shared by the proofs about the two transactions. *)
Ltac settle_read :=
  match goal with
  | |- context [get_credit_by_user_id ?u ?w1] =>
      let r := fresh "r" in let w2 := fresh "w" in
      let Hg := fresh "Hg" in let Hs := fresh "Hs" in let Hc := fresh "Hc" in
      let Hn := fresh "Hn" in let Hf := fresh "Hf" in
      destruct (get_credit_outcome u w1) as (r & w2 & Hg & Hs & Hc & Hn & _ & Hf & _);
      rewrite Hg; cbn in Hs, Hc, Hn, Hf
  end.
Ltac failed_tx :=
  do 2 eexists; split; [reflexivity|]; split; [reflexivity|]; split; [reflexivity|];
  left; split; [eauto | reflexivity].
Ltac committed_tx Hbal :=
  settle_read;
  do 2 eexists; split; [reflexivity|]; split; [reflexivity|]; split; [assumption|];
  right; split; [eauto|]; split; [eauto|];
  match goal with Hs : store _ = _ |- _ => rewrite Hs end;
  split; [reflexivity | exact Hbal].

Lemma set_credit_outcome (form : SetCreditForm) (w : world) :
  exists r0 w0 r w',
    init_credit_by_user_id D (set_user_id form) w = (r0, w0)
    /\ set_credit_by_user_id D form w = (r, w')
    /\ chat_errors w' = chat_errors w0
    /\ (((exists e, r = inl e) /\ store w' = store w0)
        \/ ((exists v, r = inr v)
            /\ (exists c, r0 = inr c)
            /\ store w'
               = mkDatabase (map (set_row form w0) (credit_tbl (store w0)))
                            (credit_log_tbl (store w0) ++ [set_log_row form w0])
                            (trade_ticket_tbl (store w0))
            /\ balance_of (store w') (set_user_id form) = Some (set_credit form))).
Proof.
  destruct (init_credit_outcome (set_user_id form) w)
    as (r0 & w0 & Hinit & _ & _ & _ & _ & _ & _ & Hrow & _ & _).
  exists r0, w0. unfold set_credit_by_user_id. cbv beta delta [bind]. rewrite Hinit.
  destruct r0 as [e|c].
  { do 2 eexists. split; [reflexivity|]. split; [reflexivity|]. split; [reflexivity|].
    left. split; [eauto | reflexivity]. }
  specialize (Hrow c eq_refl). rewrite (find_user_is _ _ _ Hrow).
  assert (balance_of
            (mkDatabase (map (set_row form w0) (credit_tbl (store w0)))
                        (credit_log_tbl (store w0) ++ [set_log_row form w0])
                        (trade_ticket_tbl (store w0)))
            (set_user_id form) = Some (set_credit form)) as Hbal.
  { unfold balance_of, set_row. cbn [credit_tbl].
    rewrite (find_map_update (set_user_id form)
               (fun r => mkCredit (c_id r) (c_user_id r) (set_credit form) (clock w0)
                                  (c_created_at r))) by reflexivity.
    now rewrite Hrow. }
  revert Hbal. unfold set_row, set_log_row. clear Hinit Hrow.
  destruct w0 as [[ct lt tk] fl ck nu ce]. cbn [store clock next_uuid credit_tbl credit_log_tbl trade_ticket_tbl].
  intros Hbal. unfold add_credit_log, update_credit. run.
  destruct (existsb (fun r => N.eqb (l_id r) nu) lt) eqn:Hex.
  - destruct fl as [|[|] fl]; run; rewrite ?Hex; run; failed_tx.
  - destruct fl as [|[|] fl]; run; rewrite ?Hex; run;
      [ committed_tx Hbal | failed_tx | ].
    destruct fl as [|[|] fl]; run; [ committed_tx Hbal | failed_tx | ].
    destruct fl as [|[|] fl]; run; [ committed_tx Hbal | failed_tx | committed_tx Hbal ].
Qed.

Ltac committed_add c Hbal :=
  settle_read;
  do 2 eexists; split; [reflexivity|]; split; [reflexivity|]; split; [assumption|];
  split; [ right; split; [eauto|]; exists c; split; [reflexivity|];
           match goal with Hs : store _ = _ |- _ => rewrite Hs end;
           split; [reflexivity | exact Hbal]
         | intros; discriminate ].
Ltac failed_add :=
  do 2 eexists; split; [reflexivity|]; split; [reflexivity|]; split; [reflexivity|];
  split; [left; split; [eauto | reflexivity] | intros; discriminate].

Lemma add_credit_outcome (form : AddCreditForm) (w : world) :
  exists r0 w0 r w',
    init_credit_by_user_id D (add_user_id form) w = (r0, w0)
    /\ add_credit_by_user_id D form w = (r, w')
    /\ chat_errors w' = chat_errors w0
    /\ (((exists e, r = inl e) /\ store w' = store w0)
        \/ ((exists v, r = inr v)
            /\ exists c, r0 = inr c
               /\ store w'
                  = mkDatabase (map (add_row form w0) (credit_tbl (store w0)))
                               (credit_log_tbl (store w0) ++ [add_log_row form w0 c])
                               (trade_ticket_tbl (store w0))
               /\ balance_of (store w') (add_user_id form)
                  = Some (c_credit c + add_amount form)))
    /\ (faults w0 = [] ->
        existsb (fun r => N.eqb (l_id r) (next_uuid w0)) (credit_log_tbl (store w0)) = false ->
        (exists c, r0 = inr c) ->
        (exists v, r = inr v) /\ faults w' = [] /\ next_uuid w' = N.succ (next_uuid w0)).
Proof.
  destruct (init_credit_outcome (add_user_id form) w)
    as (r0 & w0 & Hinit & _ & _ & _ & _ & _ & _ & Hrow & _ & _).
  exists r0, w0. unfold add_credit_by_user_id. cbv beta delta [bind]. rewrite Hinit.
  destruct r0 as [e|c].
  { do 2 eexists. split; [reflexivity|]. split; [reflexivity|]. split; [reflexivity|].
    split; [left; split; [eauto | reflexivity]|]. intros _ _ [c Hc]. discriminate Hc. }
  specialize (Hrow c eq_refl).
  assert (balance_of
            (mkDatabase (map (add_row form w0) (credit_tbl (store w0)))
                        (credit_log_tbl (store w0) ++ [add_log_row form w0 c])
                        (trade_ticket_tbl (store w0)))
            (add_user_id form) = Some (c_credit c + add_amount form)) as Hbal.
  { unfold balance_of, add_row. cbn [credit_tbl].
    rewrite (find_map_update (add_user_id form)
               (fun r => mkCredit (c_id r) (c_user_id r) (c_credit r + add_amount form)
                                  (clock w0) (c_created_at r))) by reflexivity.
    now rewrite Hrow. }
  revert Hbal. unfold add_row, add_log_row. clear Hinit Hrow.
  destruct w0 as [[ct lt tk] fl ck nu ce].
  cbn [store clock next_uuid credit_tbl credit_log_tbl trade_ticket_tbl faults].
  intros Hbal. unfold add_credit_log, update_credit. run.
  destruct (existsb (fun r => N.eqb (l_id r) nu) lt) eqn:Hex.
  - destruct fl as [|[|] fl]; run; rewrite ?Hex; run;
      (do 2 eexists; split; [reflexivity|]; split; [reflexivity|]; split; [reflexivity|];
       split; [left; split; [eauto | reflexivity] | intros; discriminate]).
  - destruct fl as [|[|] fl]; run; rewrite ?Hex; run.
    + settle_read.
      do 2 eexists. split; [reflexivity|]. split; [reflexivity|]. split; [assumption|].
      split.
      * right. split; [eauto|]. exists c. split; [reflexivity|]. rewrite Hs.
        split; [reflexivity | exact Hbal].
      * intros _ _ _. destruct (Hf eq_refl) as [Hf' _]. repeat split; eauto.
    + do 2 eexists. split; [reflexivity|]. split; [reflexivity|]. split; [reflexivity|].
      split; [left; split; [eauto | reflexivity] | intros; discriminate].
    + destruct fl as [|[|] fl]; run; [ committed_add c Hbal | failed_add | ].
      destruct fl as [|[|] fl]; run; [ committed_add c Hbal | failed_add | committed_add c Hbal ].
Qed.

(** *** Runs in which the database answers every operation *)

Lemma init_keeps_ids_fresh (u : string) (w w0 : world) r0 :
  init_credit_by_user_id D u w = (r0, w0) -> ids_fresh w -> ids_fresh w0.
Proof.
  intros Hinit [Hc Hl].
  destruct (init_credit_outcome u w)
    as (r0' & w0' & Hinit' & Hlog & _ & _ & _ & Hle & Htbl & _).
  rewrite Hinit in Hinit'. injection Hinit' as <- <-.
  split.
  - intros r Hin. destruct Htbl as [E|(_ & E & Hn)]; rewrite E in Hin.
    + specialize (Hc r Hin). lia.
    + apply in_app_or in Hin as [Hin|[<-|[]]].
      * specialize (Hc r Hin). lia.
      * cbn. lia.
  - intros r Hin. rewrite Hlog in Hin. specialize (Hl r Hin). lia.
Qed.

Lemma fresh_log_id (w : world) :
  ids_fresh w ->
  existsb (fun r => N.eqb (l_id r) (next_uuid w)) (credit_log_tbl (store w)) = false.
Proof.
  intros [_ Hl]. apply not_true_is_false. intros He.
  apply existsb_exists in He as [r [Hin Hr]].
  apply N.eqb_eq in Hr. specialize (Hl r Hin). lia.
Qed.

(** When no database operation fails, [add_credit_by_user_id] returns,
    the balance has grown by the amount and the log has one more row,
    which holds the new balance. *)
Lemma add_credit_no_faults (form : AddCreditForm) (w : world) :
  faults w = [] -> ids_fresh w ->
  exists v w' entry,
    add_credit_by_user_id D form w = (inr v, w')
    /\ faults w' = [] /\ ids_fresh w'
    /\ balance_of (store w') (add_user_id form)
       = Some (opening_balance D (store w) (add_user_id form) + add_amount form)
    /\ credit_log_tbl (store w') = credit_log_tbl (store w) ++ [entry]
    /\ l_user_id entry = add_user_id form
    /\ l_credit entry = opening_balance D (store w) (add_user_id form) + add_amount form
    /\ l_detail entry = model_dump (add_detail form)
    /\ trade_ticket_tbl (store w') = trade_ticket_tbl (store w).
Proof.
  intros Hf Hfresh.
  destruct (add_credit_outcome form w) as (r0 & w0 & r & w' & Hinit & Hadd & _ & Hcase & Hok).
  destruct (init_credit_outcome (add_user_id form) w)
    as (r0' & w0' & Hinit' & Hlog & Htk & _ & _ & _ & _ & _ & _ & Hnf).
  rewrite Hinit in Hinit'. injection Hinit' as <- <-.
  destruct (Hnf Hf Hfresh) as (Hf0 & c & -> & Hopen).
  pose proof (init_keeps_ids_fresh _ _ _ _ Hinit Hfresh) as Hfresh0.
  destruct (Hok Hf0 (fresh_log_id w0 Hfresh0) ltac:(eauto)) as ([v ->] & Hf' & Hnu').
  destruct Hcase as [[[e [=]] _]|(_ & c' & [= <-] & Hst & Hbal)].
  exists v, w', (add_log_row form w0 c).
  split; [exact Hadd|]. split; [exact Hf'|].
  split.
  { destruct Hfresh0 as [Hc0 Hl0]. unfold ids_fresh. rewrite Hst, Hnu'. split; cbn [store credit_tbl credit_log_tbl].
    - intros r Hin. apply in_map_iff in Hin as (r1 & <- & Hin).
      specialize (Hc0 r1 Hin). unfold add_row. destruct (user_is _ r1); cbn; lia.
    - intros r Hin. apply in_app_or in Hin as [Hin|[<-|[]]].
      + specialize (Hl0 r Hin). lia.
      + cbn. lia. }
  rewrite Hbal, Hst, Hopen, <- Hlog, <- Htk. repeat split.
  cbn. now rewrite Hopen.
Qed.

(** *** Trade tickets *)

Lemma find_ticket_after_update (id : string) (detail : jdict) (tbl : list TradeTicket) t :
  List.find (ticket_is id) tbl = Some t ->
  List.find (ticket_is id)
            (map (fun r => if ticket_is id r
                           then mkTradeTicket (t_id r) (t_user_id r) (t_amount r) detail
                                              (t_created_at r)
                           else r) tbl)
  = Some (mkTradeTicket (t_id t) (t_user_id t) (t_amount t) detail (t_created_at t)).
Proof.
  induction tbl as [|r tbl IH]; simpl; [discriminate|].
  destruct (ticket_is id r) eqn:E.
  - unfold ticket_is in *. cbn [t_id]. rewrite E. now intros [= ->].
  - rewrite E. exact IH.
Qed.

(** One settlement when the database answers: the ticket takes the new
    detail, the user's balance grows by the ticket amount, one log row is
    appended. *)
Lemma settle_no_faults (id : string) (detail : jdict) (w : world) (t : TradeTicket) :
  faults w = [] -> ids_fresh w ->
  List.find (ticket_is id) (trade_ticket_tbl (store w)) = Some t ->
  exists w' entry,
    update_credit_by_id D id detail w = (inr None, w')
    /\ faults w' = [] /\ ids_fresh w'
    /\ List.find (ticket_is id) (trade_ticket_tbl (store w'))
       = Some (mkTradeTicket (t_id t) (t_user_id t) (t_amount t) detail (t_created_at t))
    /\ balance_of (store w') (t_user_id t)
       = Some (opening_balance D (store w) (t_user_id t) + t_amount t)
    /\ credit_log_tbl (store w') = credit_log_tbl (store w) ++ [entry]
    /\ l_user_id entry = t_user_id t
    /\ l_credit entry = opening_balance D (store w) (t_user_id t) + t_amount t
    /\ dict_get (l_detail entry) "desc" = Some (PStr "payment success").
Proof.
  intros Hf Hfresh Hfind.
  destruct w as [[ct lt tk] fl ck nu ce]. cbn in Hf, Hfind. subst fl.
  unfold update_credit_by_id, update_ticket_detail, get_ticket_by_id, first_ticket. run.
  rewrite (find_ticket_after_update id detail tk t Hfind). run.
  match goal with
  | |- context [add_credit_by_user_id D ?form ?w1] =>
      destruct (add_credit_no_faults form w1 eq_refl Hfresh)
        as (v & w' & entry & Hadd & Hf' & Hfresh' & Hbal & Hlog & Hu & Hc & Hd & Htk);
      rewrite Hadd
  end.
  cbn in Hbal, Hlog, Hu, Hc, Hd, Htk.
  exists w', entry.
  split; [reflexivity|]. split; [exact Hf'|]. split; [exact Hfresh'|].
  split; [rewrite Htk; apply (find_ticket_after_update id detail tk t Hfind)|].
  split; [exact Hbal|]. split; [exact Hlog|]. split; [exact Hu|]. split; [exact Hc|].
  now rewrite Hd.
Qed.

(** C1 (as amended).  When the database answers, every call of
    [update_credit_by_id] on a stored ticket stores the detail it is given
    in the ticket, credits the ticket amount to the ticket's user and
    appends a log row; nothing distinguishes a second call from the
    first, so two calls leave the balance two amounts higher. *)
Theorem each_settlement_credits_the_user
        (id : string) (detail1 detail2 : jdict) (w : world) (t : TradeTicket) :
  faults w = [] -> ids_fresh w ->
  List.find (ticket_is id) (trade_ticket_tbl (store w)) = Some t ->
  exists w1 w2 e1 e2,
    update_credit_by_id D id detail1 w = (inr None, w1)
    /\ update_credit_by_id D id detail2 w1 = (inr None, w2)
    /\ balance_of (store w1) (t_user_id t)
       = Some (opening_balance D (store w) (t_user_id t) + t_amount t)
    /\ balance_of (store w2) (t_user_id t)
       = Some (opening_balance D (store w) (t_user_id t) + t_amount t + t_amount t)
    /\ credit_log_tbl (store w2) = credit_log_tbl (store w) ++ [e1; e2]
    /\ l_credit e1 = opening_balance D (store w) (t_user_id t) + t_amount t
    /\ l_credit e2 = opening_balance D (store w) (t_user_id t) + t_amount t + t_amount t
    /\ option_map t_detail (List.find (ticket_is id) (trade_ticket_tbl (store w1)))
       = Some detail1
    /\ option_map t_detail (List.find (ticket_is id) (trade_ticket_tbl (store w2)))
       = Some detail2.
Proof.
  intros Hf Hfresh Hfind.
  destruct (settle_no_faults id detail1 w t Hf Hfresh Hfind)
    as (w1 & e1 & H1 & Hf1 & Hfresh1 & Hfind1 & Hbal1 & Hlog1 & _ & Hc1 & _).
  destruct (settle_no_faults id detail2 w1 _ Hf1 Hfresh1 Hfind1)
    as (w2 & e2 & H2 & _ & _ & Hfind2 & Hbal2 & Hlog2 & _ & Hc2 & _).
  cbn [t_user_id t_amount] in Hbal2, Hc2.
  assert (opening_balance D (store w1) (t_user_id t)
          = opening_balance D (store w) (t_user_id t) + t_amount t) as Hopen.
  { unfold opening_balance at 1. now rewrite Hbal1. }
  rewrite Hopen in Hbal2, Hc2.
  exists w1, w2, e1, e2.
  split; [exact H1|]. split; [exact H2|]. split; [exact Hbal1|]. split; [exact Hbal2|].
  split; [rewrite Hlog2, Hlog1, <- app_assoc; reflexivity|].
  split; [exact Hc1|]. split; [exact Hc2|].
  split; [now rewrite Hfind1 | now rewrite Hfind2].
Qed.

(** C9 (as amended).  Creating a ticket whose id is already in the
    trade-ticket table raises [HTTPException] with status 500, the
    status of every failure of the call, carrying the text of the
    database error; the table is left as it was. *)
Theorem duplicate_ticket_is_rejected
        (id user_id : string) (amount : pyfloat) (detail : jdict) (w : world) :
  (exists t, In t (trade_ticket_tbl (store w)) /\ t_id t = id) ->
  exists cause w',
    insert_new_ticket numeric id user_id amount detail w
    = (inl (HTTPException 500 (str_exn cause)), w')
    /\ kind_of (HTTPException 500 (str_exn cause)) = Internal
    /\ store w' = store w
    /\ (cause = IntegrityError "UNIQUE constraint failed: trade_ticket.id"
        \/ cause = OperationalError "database error")
    /\ (faults w = [] ->
        cause = IntegrityError "UNIQUE constraint failed: trade_ticket.id").
Proof.
  intros (t & Hin & Hid).
  assert (existsb (ticket_is id) (trade_ticket_tbl (store w)) = true) as Hex.
  { apply existsb_exists. exists t. split; [exact Hin|].
    unfold ticket_is. now apply String.eqb_eq. }
  destruct w as [[ct lt tk] fl ck nu ce]. cbn in Hex.
  unfold insert_new_ticket, add_trade_ticket. run.
  destruct fl as [|[|] fl]; run; cbn [t_id]; rewrite ?Hex; run;
    do 2 eexists; (split; [reflexivity|]);
      repeat split; auto; intros; discriminate.
Qed.
(** *** Further properties of the ledger *)

Lemma find_other_after_append (u u' : string) (tbl : list Credit) (row : Credit) :
  c_user_id row = u -> u' <> u ->
  List.find (user_is u') (tbl ++ [row]) = List.find (user_is u') tbl.
Proof.
  intros Hu Hne. induction tbl as [|r tbl IH]; simpl.
  - unfold user_is. rewrite Hu. destruct (String.eqb_spec u u'); congruence.
  - destruct (user_is u' r); [reflexivity | exact IH].
Qed.

Lemma find_map_update_other (u u' : string) (f : Credit -> Credit) (tbl : list Credit) :
  (forall r, c_user_id (f r) = c_user_id r) -> u' <> u ->
  List.find (user_is u') (map (fun r => if user_is u r then f r else r) tbl)
  = List.find (user_is u') tbl.
Proof.
  intros Hf Hne. induction tbl as [|r tbl IH]; simpl; [reflexivity|].
  destruct (user_is u r) eqn:E.
  - assert (user_is u' r = false) as E'.
    { unfold user_is in *. apply String.eqb_eq in E. apply String.eqb_neq. congruence. }
    assert (user_is u' (f r) = false) as E''.
    { unfold user_is in *. now rewrite Hf. }
    now rewrite E', E''.
  - destruct (user_is u' r); [reflexivity | exact IH].
Qed.

Lemma map_update_keeps_users (u : string) (f : Credit -> Credit) (tbl : list Credit) :
  (forall r, c_user_id (f r) = c_user_id r) ->
  map c_user_id (map (fun r => if user_is u r then f r else r) tbl) = map c_user_id tbl.
Proof.
  intros Hf. rewrite map_map. apply map_ext. intros r.
  destruct (user_is u r); [apply Hf | reflexivity].
Qed.

Lemma find_none_not_in (u : string) (tbl : list Credit) :
  List.find (user_is u) tbl = None -> ~ In u (map c_user_id tbl).
Proof.
  intros Hn Hin. apply in_map_iff in Hin as (r & Hr & Hin).
  pose proof (find_none _ _ Hn r Hin) as Hf. unfold user_is in Hf.
  apply String.eqb_neq in Hf. congruence.
Qed.

(** The run of [init_credit_by_user_id] when the database answers. *)
Lemma init_no_faults (u : string) (w : world) :
  faults w = [] -> ids_fresh w ->
  init_credit_by_user_id D u w
  = match List.find (user_is u) (credit_tbl (store w)) with
    | Some c => (inr c, w)
    | None =>
        let row := mkCredit (next_uuid w) u D (clock w) (clock w) in
        (inr row,
         mkWorld (mkDatabase (credit_tbl (store w) ++ [row]) (credit_log_tbl (store w))
                             (trade_ticket_tbl (store w)))
                 [] (clock w) (N.succ (next_uuid w)) (chat_errors w))
    end.
Proof.
  intros Hf Hfresh.
  destruct (List.find (user_is u) (credit_tbl (store w))) as [c|] eqn:Hfind.
  - destruct w as [[ct lt tk] fl ck nu ce]. cbn in Hf, Hfind. subst fl.
    unfold init_credit_by_user_id, get_credit_by_user_id, first_credit. run.
    rewrite Hfind. run. reflexivity.
  - pose proof (fresh_row_absent u w Hfresh Hfind) as Hex.
    destruct w as [[ct lt tk] fl ck nu ce]. cbn in Hf, Hfind, Hex. subst fl.
    unfold init_credit_by_user_id, get_credit_by_user_id, first_credit,
      insert_new_credit, add_credit. run.
    rewrite Hfind. run. rewrite Hex. run. reflexivity.
Qed.

(** The run of [get_credit_by_user_id] when the database answers. *)
Lemma get_credit_no_faults (u : string) (w : world) :
  faults w = [] ->
  get_credit_by_user_id u w = (inr (List.find (user_is u) (credit_tbl (store w))), w).
Proof.
  intros Hf. destruct w as [[ct lt tk] fl ck nu ce]. cbn in Hf. subst fl.
  unfold get_credit_by_user_id, first_credit. run.
  destruct (List.find (user_is u) ct); run; reflexivity.
Qed.

Lemma init_no_faults_world (u : string) (w w0 : world) r0 :
  faults w = [] -> ids_fresh w ->
  init_credit_by_user_id D u w = (r0, w0) ->
  faults w0 = [] /\ ids_fresh w0 /\ clock w0 = clock w /\ chat_errors w0 = chat_errors w
  /\ exists c, r0 = inr c /\ c_user_id c = u
               /\ List.find (user_is u) (credit_tbl (store w0)) = Some c
               /\ c_credit c = opening_balance D (store w) u.
Proof.
  intros Hf Hfresh Hinit.
  pose proof (init_keeps_ids_fresh u w w0 r0 Hinit Hfresh) as Hfresh0.
  destruct (init_credit_outcome u w)
    as (r0' & w0' & Hinit' & _ & _ & Hce & Hck & _ & _ & Hrow & _ & Hnf).
  rewrite Hinit in Hinit'. injection Hinit' as <- <-.
  destruct (Hnf Hf Hfresh) as (Hf0 & c & -> & Hopen).
  split; [exact Hf0|]. split; [exact Hfresh0|]. split; [exact Hck|]. split; [exact Hce|].
  exists c. split; [reflexivity|].
  split; [exact (find_user_is _ _ _ (Hrow c eq_refl))|].
  split; [exact (Hrow c eq_refl) | exact Hopen].
Qed.

(** The run of [set_credit_by_user_id] when the database answers. *)
Lemma set_no_faults (form : SetCreditForm) (w w0 : world) r0 :
  faults w = [] -> ids_fresh w ->
  init_credit_by_user_id D (set_user_id form) w = (r0, w0) ->
  set_credit_by_user_id D form w
  = (inr (List.find (user_is (set_user_id form)) (credit_tbl (store (after_set form w0)))),
     after_set form w0).
Proof.
  intros Hf Hfresh Hinit.
  destruct (init_no_faults_world _ _ _ _ Hf Hfresh Hinit)
    as (Hf0 & Hfresh0 & _ & _ & c & -> & Hu & _ & _).
  pose proof (fresh_log_id w0 Hfresh0) as Hex.
  unfold set_credit_by_user_id. cbv beta delta [bind]. rewrite Hinit. rewrite Hu.
  unfold after_set, set_row, set_log_row.
  destruct w0 as [[ct lt tk] fl ck nu ce]. cbn in Hf0, Hex. subst fl.
  unfold add_credit_log, update_credit, get_credit_by_user_id, first_credit. run.
  rewrite Hex. run.
  match goal with |- context [List.find ?f ?l] => destruct (List.find f l) end;
    run; reflexivity.
Qed.

(** The run of [add_credit_by_user_id] when the database answers. *)
Lemma add_no_faults (form : AddCreditForm) (w w0 : world) (c : Credit) :
  faults w = [] -> ids_fresh w ->
  init_credit_by_user_id D (add_user_id form) w = (inr c, w0) ->
  add_credit_by_user_id D form w
  = (inr (List.find (user_is (add_user_id form)) (credit_tbl (store (after_add form w0 c)))),
     after_add form w0 c).
Proof.
  intros Hf Hfresh Hinit.
  destruct (init_no_faults_world _ _ _ _ Hf Hfresh Hinit)
    as (Hf0 & Hfresh0 & _ & _ & c' & [= <-] & Hu & _ & _).
  pose proof (fresh_log_id w0 Hfresh0) as Hex.
  unfold add_credit_by_user_id. cbv beta delta [bind]. rewrite Hinit.
  unfold after_add, add_row, add_log_row.
  destruct w0 as [[ct lt tk] fl ck nu ce]. cbn in Hf0, Hex. subst fl.
  unfold add_credit_log, update_credit, get_credit_by_user_id, first_credit. run.
  rewrite Hex. run.
  match goal with |- context [List.find ?f ?l] => destruct (List.find f l) end;
    run; reflexivity.
Qed.
(** The write step of [add_credit_by_user_id] when the database answers;
    [c] is the row read earlier, whatever the table holds by now. *)
Lemma add_write_no_faults (form : AddCreditForm) (w1 : world) (c : Credit) :
  faults w1 = [] -> ids_fresh w1 ->
  add_credit_write form c w1
  = (inr (List.find (user_is (add_user_id form)) (credit_tbl (store (after_add form w1 c)))),
     after_add form w1 c).
Proof.
  intros Hf1 Hfresh1.
  pose proof (fresh_log_id w1 Hfresh1) as Hex.
  unfold add_credit_write, after_add, add_row, add_log_row.
  destruct w1 as [[ct lt tk] fl ck nu ce]. cbn in Hf1, Hex. subst fl.
  unfold add_credit_log, update_credit, get_credit_by_user_id, first_credit. run.
  rewrite Hex. run.
  match goal with |- context [List.find ?f ?l] => destruct (List.find f l) end;
    run; reflexivity.
Qed.

(** Two adds to one balance, the second served between the read and the
    write of the first, when the database answers: both amounts reach the
    balance, and the row logged by the first call holds the balance it
    read plus its own amount. *)
Lemma add_interleaved_no_faults (first second : AddCreditForm) (w : world) :
  faults w = [] -> ids_fresh w ->
  add_user_id second = add_user_id first ->
  exists v w' e2 e1,
    add_interleaved D first second w = (inr v, w')
    /\ credit_log_tbl (store w') = credit_log_tbl (store w) ++ [e2; e1]
    /\ l_credit e2
       = opening_balance D (store w) (add_user_id first) + add_amount second
    /\ l_credit e1
       = opening_balance D (store w) (add_user_id first) + add_amount first
    /\ balance_of (store w') (add_user_id first)
       = Some (opening_balance D (store w) (add_user_id first)
               + add_amount second + add_amount first).
Proof.
  intros Hf Hfresh Hu.
  destruct (init_credit_outcome (add_user_id first) w) as (r0 & w0 & Hinit & Hlog0 & _).
  destruct (init_no_faults_world _ _ _ _ Hf Hfresh Hinit)
    as (Hf0 & Hfresh0 & _ & _ & c & -> & _ & Hfind0 & Hcc).
  destruct (add_credit_no_faults second w0 Hf0 Hfresh0)
    as (v2 & w1 & e2 & Hadd2 & Hf1 & Hfresh1 & Hbal1 & Hlog1 & _ & Hc2 & _ & _).
  assert (opening_balance D (store w0) (add_user_id first)
          = opening_balance D (store w) (add_user_id first)) as Hopen.
  { unfold opening_balance, balance_of at 1. rewrite Hfind0. exact Hcc. }
  rewrite Hu, Hopen in Hbal1, Hc2.
  unfold add_interleaved, add_credit_read. cbv beta delta [bind].
  rewrite Hinit, Hadd2, (add_write_no_faults first w1 c Hf1 Hfresh1).
  eexists _, _, e2, (add_log_row first w1 c).
  split; [reflexivity|].
  unfold after_add. cbn [store credit_tbl credit_log_tbl].
  split; [rewrite Hlog1, Hlog0, <- app_assoc; reflexivity|].
  split; [exact Hc2|].
  split; [cbn; now rewrite Hcc|].
  unfold balance_of in *. unfold add_row. cbn [credit_tbl].
  rewrite (find_map_update (add_user_id first)
             (fun r => mkCredit (c_id r) (c_user_id r) (c_credit r + add_amount first)
                                (clock w1) (c_created_at r))) by reflexivity.
  destruct (List.find (user_is (add_user_id first)) (credit_tbl (store w1))) as [r|];
    [|discriminate].
  cbn in *. injection Hbal1 as ->. reflexivity.
Qed.

(** C2.  In [set_credit_by_user_id] and [add_credit_by_user_id] the log
    row and the balance are written by one transaction.  Relative to the
    database left by the initialisation step (which writes no log row),
    a call that raises has persisted neither, and a call that returns has
    persisted both; and the call returns when no database operation
    fails, so only a failure of the database makes it raise. *)
Theorem log_and_balance_written_together :
  (forall (form : SetCreditForm) (w : world),
      exists r0 w0 r w',
        init_credit_by_user_id D (set_user_id form) w = (r0, w0)
        /\ set_credit_by_user_id D form w = (r, w')
        /\ credit_log_tbl (store w0) = credit_log_tbl (store w)
        /\ (((exists e, r = inl e) /\ store w' = store w0)
            \/ ((exists v, r = inr v)
                /\ credit_log_tbl (store w') = credit_log_tbl (store w0) ++ [set_log_row form w0]
                /\ credit_tbl (store w') = map (set_row form w0) (credit_tbl (store w0))
                /\ balance_of (store w') (set_user_id form) = Some (set_credit form)))
        /\ (faults w = [] -> ids_fresh w -> exists v, r = inr v))
  /\ (forall (form : AddCreditForm) (w : world),
        exists r0 w0 r w',
          init_credit_by_user_id D (add_user_id form) w = (r0, w0)
          /\ add_credit_by_user_id D form w = (r, w')
          /\ credit_log_tbl (store w0) = credit_log_tbl (store w)
          /\ (((exists e, r = inl e) /\ store w' = store w0)
              \/ ((exists v, r = inr v)
                  /\ exists c, r0 = inr c
                     /\ credit_log_tbl (store w')
                        = credit_log_tbl (store w0) ++ [add_log_row form w0 c]
                     /\ credit_tbl (store w') = map (add_row form w0) (credit_tbl (store w0))
                     /\ balance_of (store w') (add_user_id form)
                        = Some (c_credit c + add_amount form)))
          /\ (faults w = [] -> ids_fresh w -> exists v, r = inr v)).
Proof.
  split; intros form w.
  - destruct (set_credit_outcome form w) as (r0 & w0 & r & w' & Hinit & Hset & _ & Hcase).
    destruct (init_credit_outcome (set_user_id form) w) as (r0' & w0' & Hinit' & Hlog & _).
    rewrite Hinit in Hinit'. injection Hinit' as <- <-.
    exists r0, w0, r, w'.
    split; [exact Hinit|]. split; [exact Hset|]. split; [exact Hlog|]. split.
    + destruct Hcase as [Hfail|(Hv & _ & Hst & Hbal)]; [now left | right].
      split; [exact Hv|]. rewrite Hst. repeat split. now rewrite <- Hst.
    + intros Hf Hfresh. rewrite (set_no_faults form w w0 r0 Hf Hfresh Hinit) in Hset.
      injection Hset as <- _. eauto.
  - destruct (add_credit_outcome form w) as (r0 & w0 & r & w' & Hinit & Hadd & _ & Hcase & _).
    destruct (init_credit_outcome (add_user_id form) w) as (r0' & w0' & Hinit' & Hlog & _).
    rewrite Hinit in Hinit'. injection Hinit' as <- <-.
    exists r0, w0, r, w'.
    split; [exact Hinit|]. split; [exact Hadd|]. split; [exact Hlog|]. split.
    + destruct Hcase as [Hfail|(Hv & c & Hc & Hst & Hbal)]; [now left | right].
      split; [exact Hv|]. exists c. split; [exact Hc|]. rewrite Hst. repeat split.
      now rewrite <- Hst.
    + intros Hf Hfresh.
      destruct (init_no_faults_world _ _ _ _ Hf Hfresh Hinit) as (_ & _ & _ & _ & c & -> & _).
      rewrite (add_no_faults form w w0 c Hf Hfresh Hinit) in Hadd.
      injection Hadd as <- _. eauto.
Qed.

(** X1.  [get_credit_by_user_id] never raises and writes nothing.  A row
    it returns is the user's row in the table; it answers [None] for a
    user without a row and also when the database fails, so the caller
    cannot tell the two apart. *)
Theorem get_credit_soft_fails (u : string) (w : world) :
  exists r w',
    get_credit_by_user_id u w = (inr r, w')
    /\ store w' = store w
    /\ (forall c, r = Some c -> In c (credit_tbl (store w)) /\ c_user_id c = u)
    /\ (balance_of (store w) u = None -> r = None)
    /\ (forall rest, faults w = true :: rest -> r = None)
    /\ (faults w = [] -> r = List.find (user_is u) (credit_tbl (store w))).
Proof.
  destruct w as [[ct lt tk] fl ck nu ce].
  unfold get_credit_by_user_id, first_credit, balance_of. run.
  destruct fl as [|[|] fl]; run;
    try (destruct (List.find (user_is u) ct) as [c|] eqn:E; run);
    do 2 eexists; (split; [reflexivity|]); cbn [store credit_tbl faults];
    (split; [reflexivity|]);
    (split; [intros c0 [= <-]; split;
             [exact (proj1 (find_some _ _ E)) | exact (find_user_is _ _ _ E)]
            | ]) || (split; [intros c0 [=]|]);
    repeat split; intros; try reflexivity; try discriminate; try congruence.
Qed.

(** X2.  Whatever the database does, [init_credit_by_user_id] keeps one
    row per user when there was one row per user, changes no balance that
    is stored, and writes neither a log row nor a ticket. *)
Theorem init_keeps_one_row_per_user (u : string) (w w' : world) r :
  init_credit_by_user_id D u w = (r, w') ->
  NoDup (map c_user_id (credit_tbl (store w))) ->
  NoDup (map c_user_id (credit_tbl (store w')))
  /\ (forall u' b, balance_of (store w) u' = Some b -> balance_of (store w') u' = Some b)
  /\ credit_log_tbl (store w') = credit_log_tbl (store w)
  /\ trade_ticket_tbl (store w') = trade_ticket_tbl (store w).
Proof.
  intros Hinit Hnd.
  destruct (init_credit_outcome u w) as (r0 & w0 & Hinit' & Hlog & Htk & _ & _ & _ & Htbl & _).
  rewrite Hinit in Hinit'. injection Hinit' as <- <-.
  split; [|split; [|split; assumption]].
  - destruct Htbl as [->|(Hnone & -> & _)]; [exact Hnd|].
    rewrite map_app. cbn [map c_user_id].
    apply NoDup_app; [exact Hnd | repeat constructor; intros [] | ].
    intros x Hx [<-|[]]. exact (find_none_not_in u _ Hnone Hx).
  - intros u' b Hb. unfold balance_of in *.
    destruct Htbl as [->|(Hnone & -> & _)]; [exact Hb|].
    destruct (String.eqb_spec u' u) as [->|Hne].
    + rewrite Hnone in Hb. discriminate.
    + now rewrite (find_other_after_append u u') by (reflexivity || assumption).
Qed.

(** X3.  When the database answers, [init_credit_by_user_id] is
    idempotent: the row it returns carries the stored balance, or the
    default for a user without a row, and a second call and a read return
    that same row and change nothing. *)
Theorem init_is_idempotent (u : string) (w w1 : world) (c : Credit) :
  faults w = [] -> ids_fresh w ->
  init_credit_by_user_id D u w = (inr c, w1) ->
  c_user_id c = u
  /\ c_credit c = opening_balance D (store w) u
  /\ (balance_of (store w) u = None -> c_credit c = D)
  /\ init_credit_by_user_id D u w1 = (inr c, w1)
  /\ get_credit_by_user_id u w1 = (inr (Some c), w1).
Proof.
  intros Hf Hfresh Hinit.
  destruct (init_no_faults_world _ _ _ _ Hf Hfresh Hinit)
    as (Hf1 & Hfresh1 & _ & _ & c' & [= <-] & Hu & Hfind & Hopen).
  split; [exact Hu|]. split; [exact Hopen|].
  split; [intros Hn; rewrite Hopen; unfold opening_balance; now rewrite Hn|].
  split.
  - rewrite (init_no_faults u w1 Hf1 Hfresh1), Hfind. reflexivity.
  - rewrite (get_credit_no_faults u w1 Hf1), Hfind. reflexivity.
Qed.

(** X5.  Whatever the database does, [set_credit_by_user_id] and
    [add_credit_by_user_id] change no other user's balance, leave the
    tickets alone and keep one row per user. *)
Theorem writes_touch_one_user_only :
  (forall (form : SetCreditForm) (w w' : world) r,
      set_credit_by_user_id D form w = (r, w') ->
      (forall u', u' <> set_user_id form ->
         balance_of (store w') u' = balance_of (store w) u')
      /\ trade_ticket_tbl (store w') = trade_ticket_tbl (store w)
      /\ (NoDup (map c_user_id (credit_tbl (store w))) ->
          NoDup (map c_user_id (credit_tbl (store w')))))
  /\ (forall (form : AddCreditForm) (w w' : world) r,
        add_credit_by_user_id D form w = (r, w') ->
        (forall u', u' <> add_user_id form ->
           balance_of (store w') u' = balance_of (store w) u')
        /\ trade_ticket_tbl (store w') = trade_ticket_tbl (store w)
        /\ (NoDup (map c_user_id (credit_tbl (store w))) ->
            NoDup (map c_user_id (credit_tbl (store w'))))).
Proof.
  assert (Hinit_frame : forall u w r0 w0,
             init_credit_by_user_id D u w = (r0, w0) ->
             (forall u', u' <> u -> balance_of (store w0) u' = balance_of (store w) u')
             /\ trade_ticket_tbl (store w0) = trade_ticket_tbl (store w)
             /\ (NoDup (map c_user_id (credit_tbl (store w))) ->
                 NoDup (map c_user_id (credit_tbl (store w0))))).
  { intros u w r0 w0 Hinit.
    destruct (init_credit_outcome u w) as (r0' & w0' & Hinit' & _ & Htk & _ & _ & _ & Htbl & _).
    rewrite Hinit in Hinit'. injection Hinit' as <- <-.
    split; [|split; [exact Htk|]].
    - intros u' Hne. unfold balance_of.
      destruct Htbl as [->|(_ & -> & _)]; [reflexivity|].
      now rewrite (find_other_after_append u u') by (reflexivity || assumption).
    - intros Hnd. destruct Htbl as [->|(Hnone & -> & _)]; [exact Hnd|].
      rewrite map_app. cbn [map c_user_id].
      apply NoDup_app; [exact Hnd | repeat constructor; intros [] | ].
      intros x Hx [<-|[]]. exact (find_none_not_in u _ Hnone Hx). }
  split.
  - intros form w w' r Hset.
    destruct (set_credit_outcome form w) as (r0 & w0 & r' & w1 & Hinit & Hset' & _ & Hcase).
    rewrite Hset in Hset'. injection Hset' as <- <-.
    destruct (Hinit_frame _ _ _ _ Hinit) as (Hb & Htk & Hnd).
    destruct Hcase as [[_ ->]|(_ & _ & -> & _)]; [repeat split; assumption|].
    cbn [store credit_tbl trade_ticket_tbl]. unfold set_row.
    split; [|split; [exact Htk|]].
    + intros u' Hne. rewrite <- (Hb u' Hne). unfold balance_of. cbn [credit_tbl].
      now rewrite (find_map_update_other (set_user_id form) u') by (reflexivity || assumption).
    + intros H. rewrite map_update_keeps_users by reflexivity. now apply Hnd.
  - intros form w w' r Hadd.
    destruct (add_credit_outcome form w) as (r0 & w0 & r' & w1 & Hinit & Hadd' & _ & Hcase & _).
    rewrite Hadd in Hadd'. injection Hadd' as <- <-.
    destruct (Hinit_frame _ _ _ _ Hinit) as (Hb & Htk & Hnd).
    destruct Hcase as [[_ ->]|(_ & c & _ & -> & _)]; [repeat split; assumption|].
    cbn [store credit_tbl trade_ticket_tbl]. unfold add_row.
    split; [|split; [exact Htk|]].
    + intros u' Hne. rewrite <- (Hb u' Hne). unfold balance_of. cbn [credit_tbl].
      now rewrite (find_map_update_other (add_user_id form) u') by (reflexivity || assumption).
    + intros H. rewrite map_update_keeps_users by reflexivity. now apply Hnd.
Qed.

Lemma with_detail_find (id : string) (detail : jdict) (tbl : list TradeTicket) :
  List.find (ticket_is id) (with_detail id detail tbl)
  = option_map (fun t => mkTradeTicket (t_id t) (t_user_id t) (t_amount t) detail
                                       (t_created_at t))
               (List.find (ticket_is id) tbl).
Proof.
  unfold with_detail. induction tbl as [|r tbl IH]; simpl; [reflexivity|].
  destruct (ticket_is id r) eqn:E.
  - unfold ticket_is in *. cbn [t_id]. now rewrite E.
  - now rewrite E.
Qed.

Lemma with_detail_absent (id : string) (detail : jdict) (tbl : list TradeTicket) :
  List.find (ticket_is id) tbl = None -> with_detail id detail tbl = tbl.
Proof.
  unfold with_detail. induction tbl as [|r tbl IH]; simpl; [reflexivity|].
  destruct (ticket_is id r); [discriminate|]. intros H. now rewrite IH.
Qed.

(** [get_ticket_by_id] never raises and writes nothing. *)
Lemma get_ticket_outcome (id : string) (w : world) :
  exists r w', get_ticket_by_id id w = (inr r, w')
               /\ store w' = store w /\ chat_errors w' = chat_errors w
               /\ (forall t, r = Some t ->
                     List.find (ticket_is id) (trade_ticket_tbl (store w)) = Some t)
               /\ (faults w = [] ->
                   faults w' = []
                   /\ r = List.find (ticket_is id) (trade_ticket_tbl (store w))).
Proof.
  destruct w as [[ct lt tk] fl ck nu ce].
  unfold get_ticket_by_id, first_ticket. run.
  destruct fl as [|[|] fl]; run;
    try (destruct (List.find _ tk) eqn:E; run);
    do 2 eexists; (split; [reflexivity|]); cbn; repeat split; intros;
      try congruence; try discriminate.
Qed.
Lemma init_frame (u : string) (w w0 : world) r0 :
  init_credit_by_user_id D u w = (r0, w0) ->
  (forall u' b, balance_of (store w) u' = Some b -> balance_of (store w0) u' = Some b)
  /\ (forall u', u' <> u -> balance_of (store w0) u' = balance_of (store w) u')
  /\ credit_log_tbl (store w0) = credit_log_tbl (store w)
  /\ trade_ticket_tbl (store w0) = trade_ticket_tbl (store w).
Proof.
  intros Hinit.
  destruct (init_credit_outcome u w) as (r0' & w0' & Hinit' & Hlog & Htk & _ & _ & _ & Htbl & _).
  rewrite Hinit in Hinit'. injection Hinit' as <- <-.
  split; [|split; [|split; assumption]].
  - intros u' b Hb. unfold balance_of in *.
    destruct Htbl as [->|(Hnone & -> & _)]; [exact Hb|].
    destruct (String.eqb_spec u' u) as [->|Hne].
    + rewrite Hnone in Hb. discriminate.
    + now rewrite (find_other_after_append u u') by (reflexivity || assumption).
  - intros u' Hne. unfold balance_of.
    destruct Htbl as [->|(_ & -> & _)]; [reflexivity|].
    now rewrite (find_other_after_append u u') by (reflexivity || assumption).
Qed.

(** What [add_credit_by_user_id] leaves, whatever the database does:
    either nothing beyond the initialisation, or the credit with its log
    row. *)
Lemma add_credit_frame (form : AddCreditForm) (w w' : world) r :
  add_credit_by_user_id D form w = (r, w') ->
  trade_ticket_tbl (store w') = trade_ticket_tbl (store w)
  /\ (forall u', u' <> add_user_id form ->
        balance_of (store w') u' = balance_of (store w) u')
  /\ (((exists e, r = inl e)
       /\ credit_log_tbl (store w') = credit_log_tbl (store w)
       /\ (forall u' b, balance_of (store w) u' = Some b -> balance_of (store w') u' = Some b))
      \/ ((exists v, r = inr v)
          /\ exists e, credit_log_tbl (store w') = credit_log_tbl (store w) ++ [e]
                       /\ l_user_id e = add_user_id form
                       /\ l_detail e = model_dump (add_detail form)
                       /\ balance_of (store w') (add_user_id form) = Some (l_credit e))).
Proof.
  intros Hadd.
  destruct (add_credit_outcome form w) as (r0 & w0 & r' & w1 & Hinit & Hadd' & _ & Hcase & _).
  rewrite Hadd in Hadd'. injection Hadd' as <- <-.
  destruct (init_frame _ _ _ _ Hinit) as (Hkeep & Hother & Hlog & Htk).
  destruct Hcase as [[He Hst]|(Hv & c & _ & Hst & Hbal)].
  - rewrite Hst. split; [exact Htk|]. split; [exact Hother|].
    left. split; [exact He|]. split; assumption.
  - split; [rewrite Hst; exact Htk|].
    split.
    + intros u' Hne. rewrite <- (Hother u' Hne), Hst. unfold balance_of, add_row.
      cbn [credit_tbl].
      now rewrite (find_map_update_other (add_user_id form) u') by (reflexivity || assumption).
    + right. split; [exact Hv|]. exists (add_log_row form w0 c).
      rewrite Hbal, Hst, <- Hlog. repeat split.
Qed.

Ltac after_commit id detail tk :=
  match goal with
  | |- context [get_ticket_by_id ?i ?W] =>
      let r := fresh "r" in let w2 := fresh "w" in
      let Hg := fresh "Hg" in let Hs := fresh "Hs" in let Hfound := fresh "Hfound" in
      destruct (get_ticket_outcome i W) as (r & w2 & Hg & Hs & _ & Hfound & _);
      rewrite Hg; cbn in Hs, Hfound;
      fold (with_detail id detail tk) in Hs, Hfound;
      destruct r as [t'|]; run;
      [ specialize (Hfound t' eq_refl); rewrite with_detail_find in Hfound;
        destruct (List.find (ticket_is id) tk) as [t|] eqn:Hfind; [|discriminate];
        injection Hfound as <-; cbn [t_user_id t_amount];
        match goal with
        | |- context [add_credit_by_user_id D ?f ?W2] =>
            let r' := fresh "r" in let w3 := fresh "w" in let Hadd := fresh "Hadd" in
            destruct (add_credit_by_user_id D f W2) as [r' w3] eqn:Hadd;
            destruct (add_credit_frame f W2 w3 r' Hadd) as (Htk & Hother & Hcase);
            cbn [add_user_id add_detail] in Htk, Hother, Hcase;
            rewrite Hs in Htk, Hother, Hcase;
            cbn [credit_tbl credit_log_tbl trade_ticket_tbl] in Htk, Hcase;
            destruct Hcase as [([e ->] & Hlog & Hkeep)|([v ->] & e & Hlog & Hu & Hd & Hbal)];
            run; eexists; (split; [reflexivity|]);
            [ right; left; repeat split; assumption
            | right; right; exists t, e; repeat split; assumption ]
        end
      | eexists; (split; [reflexivity|]); right; left; rewrite Hs;
        repeat split; auto ]
  end.

(** What [update_credit_by_id] leaves, whatever the database does. *)
Lemma settle_outcome (id : string) (detail : jdict) (w : world) :
  exists w',
    update_credit_by_id D id detail w = (inr None, w')
    /\ (store w' = store w
        \/ (trade_ticket_tbl (store w') = with_detail id detail (trade_ticket_tbl (store w))
            /\ credit_log_tbl (store w') = credit_log_tbl (store w)
            /\ (forall u b, balance_of (store w) u = Some b -> balance_of (store w') u = Some b))
        \/ (exists t e,
              List.find (ticket_is id) (trade_ticket_tbl (store w)) = Some t
              /\ trade_ticket_tbl (store w') = with_detail id detail (trade_ticket_tbl (store w))
              /\ (forall u', u' <> t_user_id t ->
                    balance_of (store w') u' = balance_of (store w) u')
              /\ credit_log_tbl (store w') = credit_log_tbl (store w) ++ [e]
              /\ l_user_id e = t_user_id t
              /\ l_detail e = model_dump (detail_with_desc "payment success")
              /\ balance_of (store w') (t_user_id t) = Some (l_credit e))).
Proof.
  destruct w as [[ct lt tk] fl ck nu ce].
  unfold update_credit_by_id, update_ticket_detail. run.
  destruct fl as [|[|] fl]; run.
  - after_commit id detail tk.
  - eexists. split; [reflexivity|]. now left.
  - destruct fl as [|[|] fl]; run.
    + after_commit id detail tk.
    + eexists. split; [reflexivity|]. now left.
    + after_commit id detail tk.
Qed.
(** X7.  [update_credit_by_id] never raises and answers [None] on every
    path.  It leaves the store in one of three states: unchanged; the
    ticket detail stored with no credit and no log row; or the detail
    stored, the ticket's user credited and one "payment success" row
    logged with the new balance.  The second state is what remains when
    the read of the ticket fails after the detail was committed. *)
Theorem settlement_outcomes (id : string) (detail : jdict) (w : world) :
  (exists w',
      update_credit_by_id D id detail w = (inr None, w')
      /\ (store w' = store w
          \/ (trade_ticket_tbl (store w') = with_detail id detail (trade_ticket_tbl (store w))
              /\ credit_log_tbl (store w') = credit_log_tbl (store w)
              /\ (forall u b, balance_of (store w) u = Some b ->
                              balance_of (store w') u = Some b))
          \/ (exists t e,
                List.find (ticket_is id) (trade_ticket_tbl (store w)) = Some t
                /\ trade_ticket_tbl (store w') = with_detail id detail (trade_ticket_tbl (store w))
                /\ (forall u', u' <> t_user_id t ->
                      balance_of (store w') u' = balance_of (store w) u')
                /\ credit_log_tbl (store w') = credit_log_tbl (store w) ++ [e]
                /\ l_user_id e = t_user_id t
                /\ l_detail e = model_dump (detail_with_desc "payment success")
                /\ balance_of (store w') (t_user_id t) = Some (l_credit e))))
  /\ (forall rest, faults w = false :: false :: true :: rest ->
        exists w',
          update_credit_by_id D id detail w = (inr None, w')
          /\ trade_ticket_tbl (store w') = with_detail id detail (trade_ticket_tbl (store w))
          /\ credit_tbl (store w') = credit_tbl (store w)
          /\ credit_log_tbl (store w') = credit_log_tbl (store w)).
Proof.
  split; [exact (settle_outcome id detail w)|].
  intros rest Hf. destruct w as [[ct lt tk] fl ck nu ce]. cbn in Hf. subst fl.
  unfold update_credit_by_id, update_ticket_detail, get_ticket_by_id, first_ticket. run.
  eexists. split; [reflexivity|]. repeat split.
Qed.

(** X8.  A settlement for an id that no ticket has changes nothing and
    credits nobody, whatever the database does. *)
Theorem unknown_ticket_is_ignored (id : string) (detail : jdict) (w : world) :
  List.find (ticket_is id) (trade_ticket_tbl (store w)) = None ->
  exists w', update_credit_by_id D id detail w = (inr None, w') /\ store w' = store w.
Proof.
  intros Hnone. destruct w as [[ct lt tk] fl ck nu ce]. cbn in Hnone.
  pose proof (with_detail_absent id detail tk Hnone) as Hsame. unfold with_detail in Hsame.
  unfold update_credit_by_id, update_ticket_detail. run. rewrite Hsame.
  destruct fl as [|[|] fl]; run;
    [ | eauto | destruct fl as [|[|] fl]; run; [ | eauto | ] ];
    match goal with
    | |- context [get_ticket_by_id ?i ?W] =>
        destruct (get_ticket_outcome i W) as (r & w2 & Hg & Hs & _ & Hfound & _);
        rewrite Hg; cbn in Hs, Hfound;
        destruct r as [t|]; run;
        [ specialize (Hfound t eq_refl); congruence
        | eexists; split; [reflexivity | exact Hs] ]
    end.
Qed.
Lemma check_credit_store (u msg : string) (md : option jdict) (w w' : world) r :
  check_credit_by_user_id D u msg md w = (r, w') ->
  exists r0 w0, init_credit_by_user_id D u w = (r0, w0) /\ store w' = store w0.
Proof.
  unfold check_credit_by_user_id. cbv beta delta [bind].
  destruct (init_credit_by_user_id D u w) as [[e|c] w0] eqn:Hinit; intros Hrun.
  - injection Hrun as <- <-. eauto.
  - exists (inr c), w0. split; [reflexivity|].
    destruct (c_credit c <=? 0); [|injection Hrun as <- <-; reflexivity].
    destruct md as [md|]; [|injection Hrun as <- <-; reflexivity].
    destruct (truthy_val (PDict md)); [|injection Hrun as <- <-; reflexivity].
    destruct (truthy_val (meta_get md "chat_id") && _);
      injection Hrun as <- <-; reflexivity.
Qed.

(** X9.  No operation of the tables removes or rewrites a row of the
    credit log, whatever the database does: setting, adding and settling
    append at most one row, and the balance gate and the creation of a
    ticket leave the log as it is. *)
Theorem log_is_append_only :
  (forall form w r w',
      set_credit_by_user_id D form w = (r, w') ->
      exists suffix, credit_log_tbl (store w') = credit_log_tbl (store w) ++ suffix
                     /\ (List.length suffix <= 1)%nat)
  /\ (forall form w r w',
        add_credit_by_user_id D form w = (r, w') ->
        exists suffix, credit_log_tbl (store w') = credit_log_tbl (store w) ++ suffix
                       /\ (List.length suffix <= 1)%nat)
  /\ (forall id detail w r w',
        update_credit_by_id D id detail w = (r, w') ->
        exists suffix, credit_log_tbl (store w') = credit_log_tbl (store w) ++ suffix
                       /\ (List.length suffix <= 1)%nat)
  /\ (forall u msg md w r w',
        check_credit_by_user_id D u msg md w = (r, w') ->
        credit_log_tbl (store w') = credit_log_tbl (store w))
  /\ (forall id u amount detail w r w',
        insert_new_ticket numeric id u amount detail w = (r, w') ->
        credit_log_tbl (store w') = credit_log_tbl (store w)).
Proof.
  repeat split.
  - intros form w r w' Hset.
    destruct (set_credit_outcome form w) as (r0 & w0 & r' & w1 & Hinit & Hset' & _ & Hcase).
    rewrite Hset in Hset'. injection Hset' as <- <-.
    destruct (init_frame _ _ _ _ Hinit) as (_ & _ & Hlog & _).
    destruct Hcase as [[_ ->]|(_ & _ & -> & _)].
    + exists []. rewrite app_nil_r. split; [exact Hlog | cbn; lia].
    + eexists [_]. cbn [credit_log_tbl]. rewrite Hlog. split; [reflexivity | cbn; lia].
  - intros form w r w' Hadd.
    destruct (add_credit_frame form w w' r Hadd) as (_ & _ & [(_ & Hlog & _)|(_ & e & Hlog & _)]).
    + exists []. rewrite app_nil_r. split; [exact Hlog | cbn; lia].
    + exists [e]. split; [exact Hlog | cbn; lia].
  - intros id detail w r w' Hrun.
    destruct (settle_outcome id detail w) as (w1 & Hrun' & Hcase).
    rewrite Hrun in Hrun'. injection Hrun' as -> <-.
    destruct Hcase as [->|[(_ & Hlog & _)|(t & e & _ & _ & _ & Hlog & _)]].
    + exists []. rewrite app_nil_r. split; [reflexivity | cbn; lia].
    + exists []. rewrite app_nil_r. split; [exact Hlog | cbn; lia].
    + exists [e]. split; [exact Hlog | cbn; lia].
  - intros u msg md w r w' Hrun.
    destruct (check_credit_store u msg md w w' r Hrun) as (r0 & w0 & Hinit & ->).
    now destruct (init_frame _ _ _ _ Hinit) as (_ & _ & Hlog & _).
  - intros id u amount detail w r w'.
    destruct w as [[ct lt tk] fl ck nu ce].
    unfold insert_new_ticket, add_trade_ticket. run.
    destruct fl as [|[|] fl]; run; cbn [t_id];
      try (destruct (existsb (ticket_is id) tk); run);
      try (destruct fl as [|[|] fl]; run);
      intros [= <- <-]; reflexivity.
Qed.
(** A float with an odd numerator over more than twelve binary places,
    such as 0.1, is not a number of twelve decimal places. *)
Lemma long_float_fits_no_column (x : pyfloat) (v : decimal) :
  Z.odd (numerator x) = true -> (12 < log2_denominator x)%N ->
  ~ same_number (Decimal_of_float x) (Decimal_of_column v).
Proof.
  intros Hodd Hk. unfold same_number, Decimal_of_float, Decimal_of_column.
  cbn [coefficient places]. intros E.
  set (k := Z.of_N (log2_denominator x)) in *.
  assert (12 < k) as Hk' by (subst k; lia).
  replace k with ((k - 12) + 12) in E at 2 by lia.
  rewrite Z.pow_add_r in E by lia.
  rewrite Z.mul_assoc in E. apply Z.mul_cancel_r in E; [|discriminate].
  assert (Z.odd (numerator x * 5 ^ k) = true) as Ho.
  { rewrite Z.odd_mul, Hodd, Z.odd_pow by lia. reflexivity. }
  rewrite E in Ho.
  replace (k - 12) with (1 + (k - 13)) in Ho by lia.
  rewrite Z.pow_add_r, Z.mul_assoc, !Z.odd_mul in Ho by lia.
  cbn in Ho. rewrite andb_false_r in Ho. discriminate.
Qed.

(** A float of at most twelve binary places is a number of twelve decimal
    places. *)
Lemma short_float_fits_column (x : pyfloat) :
  (log2_denominator x <= 12)%N ->
  same_number (Decimal_of_float x)
              (Decimal_of_column (numerator x * 5 ^ Z.of_N (log2_denominator x)
                                  * 10 ^ (12 - Z.of_N (log2_denominator x)))).
Proof.
  intros Hk. unfold same_number, Decimal_of_float, Decimal_of_column.
  cbn [coefficient places].
  set (k := Z.of_N (log2_denominator x)).
  assert (0 <= k <= 12) as Hk' by (subst k; lia).
  change (Z.of_N 12) with 12.
  rewrite <- (Z.mul_assoc _ (10 ^ (12 - k))), <- Z.pow_add_r by lia.
  replace (12 - k + k) with 12 by lia. reflexivity.
Qed.

(** X10.  When the database answers, [insert_new_ticket] under an id that
    no ticket has returns the model built in memory, whose amount is the
    exact value of the float, and stores a row whose amount is what the
    column keeps of it; [get_ticket_by_id] returns the row.  For a float
    with more than twelve binary places (0.1 is one) the amount read back
    is not the amount returned, whatever the backend does; for a float of
    at most twelve binary places it is the same number when the backend
    keeps the numbers of twelve places as they are.  The other tickets,
    the balances and the log are untouched. *)
Theorem ticket_insert_then_get
        (id user_id : string) (amount : pyfloat) (detail : jdict) (w : world) :
  faults w = [] ->
  List.find (ticket_is id) (trade_ticket_tbl (store w)) = None ->
  exists w',
    insert_new_ticket numeric id user_id amount detail w
    = (inr (mkTicketModel id user_id (Decimal_of_float amount) detail (clock w)), w')
    /\ get_ticket_by_id id w'
       = (inr (Some (mkTradeTicket id user_id (numeric (Decimal_of_float amount)) detail
                                   (clock w))), w')
    /\ (Z.odd (numerator amount) = true -> (12 < log2_denominator amount)%N ->
        ~ same_number (Decimal_of_float amount)
                      (Decimal_of_column (numeric (Decimal_of_float amount))))
    /\ ((forall d v, same_number d (Decimal_of_column v) -> numeric d = v) ->
        (log2_denominator amount <= 12)%N ->
        same_number (Decimal_of_float amount)
                    (Decimal_of_column (numeric (Decimal_of_float amount))))
    /\ (forall id', id' <> id ->
          List.find (ticket_is id') (trade_ticket_tbl (store w'))
          = List.find (ticket_is id') (trade_ticket_tbl (store w)))
    /\ credit_tbl (store w') = credit_tbl (store w)
    /\ credit_log_tbl (store w') = credit_log_tbl (store w).
Proof.
  intros Hf Hnone. destruct w as [[ct lt tk] fl ck nu ce]. cbn in Hf, Hnone. subst fl.
  assert (existsb (ticket_is id) tk = false) as Hex.
  { apply not_true_is_false. intros He. apply existsb_exists in He as (t & Hin & Ht).
    pose proof (find_none _ _ Hnone t Hin). congruence. }
  set (amount' := numeric (Decimal_of_float amount)).
  assert (forall id', List.find (ticket_is id')
                                (tk ++ [mkTradeTicket id user_id amount' detail ck])
                      = match List.find (ticket_is id') tk with
                        | Some t => Some t
                        | None => if String.eqb id id'
                                  then Some (mkTradeTicket id user_id amount' detail ck)
                                  else None
                        end) as Hfind.
  { intros id'. induction tk as [|t tk IH]; [reflexivity|]. simpl in *.
    destruct (ticket_is id t); [discriminate|].
    apply orb_false_iff in Hex as [_ Hex].
    destruct (ticket_is id' t); [reflexivity | now apply IH]. }
  unfold insert_new_ticket, add_trade_ticket, get_ticket_by_id, first_ticket. run.
  cbn [t_id]. rewrite Hex. run.
  eexists. split; [reflexivity|]. run. fold amount'.
  rewrite Hfind, Hnone, String.eqb_refl. run.
  split; [reflexivity|].
  split; [intros Hodd Hk; now apply long_float_fits_no_column|].
  split.
  { intros Hexact Hk. pose proof (short_float_fits_column amount Hk) as Hs.
    subst amount'. now rewrite (Hexact _ _ Hs). }
  split; [|split; reflexivity].
  intros id' Hne. rewrite Hfind.
  destruct (List.find (ticket_is id') tk); [reflexivity|].
  destruct (String.eqb_spec id id'); congruence.
Qed.

(** X11.  [list_credits_by_user_id] never raises and writes nothing.  The
    rows it returns are rows of the table whose user is among the ids
    asked for; when the database answers they are all such rows, so a
    user without a row is left out and an empty list of ids gives an
    empty answer; when the database fails the answer is empty. *)
Theorem list_credits_selects (user_ids : list string) (w : world) :
  exists rows w',
    list_credits_by_user_id user_ids w = (inr rows, w')
    /\ store w' = store w
    /\ (forall c, In c rows -> In c (credit_tbl (store w)) /\ In (c_user_id c) user_ids)
    /\ (faults w = [] ->
        forall c, In c (credit_tbl (store w)) -> In (c_user_id c) user_ids -> In c rows)
    /\ (user_ids = [] -> rows = [])
    /\ (forall rest, faults w = true :: rest -> rows = []).
Proof.
  assert (Hsel : forall ct c,
             In c (filter (fun r => existsb (String.eqb (c_user_id r)) user_ids) ct)
             <-> In c ct /\ In (c_user_id c) user_ids).
  { intros ct c. rewrite filter_In, existsb_exists. split.
    - intros [Hin (x & Hx & He)]. apply String.eqb_eq in He. subst x. now split.
    - intros [Hin Hu]. split; [exact Hin|]. exists (c_user_id c).
      split; [exact Hu | apply String.eqb_refl]. }
  assert (Hnil : forall ct, user_ids = [] ->
             filter (fun r => existsb (String.eqb (c_user_id r)) user_ids) ct = []).
  { intros ct ->. induction ct; [reflexivity | exact IHct]. }
  destruct w as [[ct lt tk] fl ck nu ce].
  unfold list_credits_by_user_id. run.
  destruct fl as [|[|] fl]; run;
    do 2 eexists; (split; [reflexivity|]); cbn [store credit_tbl faults];
      (split; [reflexivity|]);
      (split; [intros c Hc; first [now apply Hsel | destruct Hc]|]);
      (split; [intros Hf c Hin Hu; first [discriminate | now apply Hsel]|]);
      (split; [intros He; first [now apply Hnil | reflexivity]|]);
      intros rest Hr; first [reflexivity | discriminate].
Qed.
Lemma firstn_sorted {A} (R : A -> A -> Prop) (n : nat) (l : list A) :
  StronglySorted R l -> StronglySorted R (firstn n l).
Proof.
  revert n. induction l as [|x l IH]; intros n Hs; destruct n; cbn; try constructor.
  - apply IH. now inversion Hs.
  - inversion Hs as [|? ? _ Hall]; subst. rewrite Forall_forall in *.
    intros y Hy. apply Hall. revert Hy. clear. revert n.
    induction l as [|z l IH]; intros n Hy; destruct n; cbn in *; try contradiction.
    destruct Hy as [<-|Hy]; [now left | right; eauto].
Qed.

Lemma skipn_sorted {A} (R : A -> A -> Prop) (n : nat) (l : list A) :
  StronglySorted R l -> StronglySorted R (skipn n l).
Proof.
  revert l. induction n as [|n IH]; intros l Hs; [exact Hs|].
  destruct l as [|x l]; [constructor|]. cbn. apply IH. now inversion Hs.
Qed.

Lemma page_incl {A} (offset limit : option nat) (l : list A) (x : A) :
  In x (match limit with
        | Some n => if Nat.eqb n 0 then (match offset with
                                         | Some o => if Nat.eqb o 0 then l else skipn o l
                                         | None => l
                                         end)
                    else firstn n (match offset with
                                   | Some o => if Nat.eqb o 0 then l else skipn o l
                                   | None => l
                                   end)
        | None => match offset with
                  | Some o => if Nat.eqb o 0 then l else skipn o l
                  | None => l
                  end
        end) -> In x l.
Proof.
  assert (Hs : forall o (l' : list A), In x (skipn o l') -> In x l').
  { induction o as [|o IH]; intros l' H; [exact H|].
    destruct l' as [|y l']; [destruct H | right; now apply IH]. }
  assert (Hf : forall n (l' : list A), In x (firstn n l') -> In x l').
  { induction n as [|n IH]; intros l' H; [destruct H|].
    destruct l' as [|y l']; [destruct H|]. destruct H as [<-|H]; [now left | right; eauto]. }
  assert (Ho : In x (match offset with
                     | Some o => if Nat.eqb o 0 then l else skipn o l
                     | None => l
                     end) -> In x l).
  { destruct offset as [o|]; [|trivial]. destruct (Nat.eqb o 0); eauto. }
  destruct limit as [n|]; [|exact Ho].
  destruct (Nat.eqb n 0); [exact Ho|]. intros H. apply Ho. eauto.
Qed.

Lemma sorted_times (rows : list CreditLog) :
  StronglySorted newer_or_same rows ->
  StronglySorted (fun a b => b <= a) (map l_created_at rows).
Proof.
  induction 1 as [|r rows Hs IH Hall]; cbn; constructor; [exact IH|].
  rewrite Forall_forall in *. intros t Ht.
  apply in_map_iff in Ht as (r' & <- & Hin). exact (Hall r' Hin).
Qed.

(** X12.  A page of the credit-log listing holds only rows of the user
    asked for, each of them a row of the log, in newest-first order, and
    no more rows than a positive limit. *)
Theorem listing_page_bounds (user_id : string) (offset limit : option nat)
        (w w' : world) (ms : list CreditLogSimpleModel) :
  get_credit_log_by_user_id user_id offset limit w = (inr ms, w') ->
  Forall (fun u => u = user_id) (map sm_user_id ms)
  /\ (forall i, In i (map sm_id ms) -> In i (map l_id (credit_log_tbl (store w))))
  /\ StronglySorted (fun a b => b <= a) (map sm_created_at ms)
  /\ (forall n, limit = Some n -> n <> 0%nat -> (List.length ms <= n)%nat)
  /\ store w' = store w.
Proof.
  unfold get_credit_log_by_user_id. cbv beta iota zeta delta [bind get_db].
  fold (logs_of (store w) user_id).
  match goal with |- context [validate_logs ?p] => set (page := p) end.
  destruct (db_op w) as [[e|[]] w1] eqn:Hop; [discriminate|]. intros Hv.
  assert (store w1 = store w) as Hst.
  { unfold db_op in Hop. destruct (faults w) as [|[] fl]; inversion Hop; reflexivity. }
  destruct (validate_logs_fields _ _ _ _ Hv) as (-> & Hid & Hu & _ & Ht).
  assert (forall r, In r page -> In r (order_newest_first (logs_of (store w) user_id))) as Hincl.
  { intros r. subst page. apply page_incl. }
  assert (forall r, In r page -> In r (logs_of (store w) user_id)) as Hin.
  { intros r Hr. exact (Permutation_in _ (order_newest_first_perm _) (Hincl r Hr)). }
  split; [|split; [|split; [|split]]].
  - rewrite Hu, Forall_forall. intros u Hin'.
    apply in_map_iff in Hin' as (r & <- & Hr). apply Hin in Hr.
    unfold logs_of in Hr. apply filter_In in Hr as [_ Hr]. now apply String.eqb_eq.
  - rewrite Hid. intros i Hi. apply in_map_iff in Hi as (r & <- & Hr).
    apply in_map. apply Hin in Hr. unfold logs_of in Hr. now apply filter_In in Hr.
  - rewrite Ht. apply sorted_times. subst page.
    pose proof (order_newest_first_sorted (logs_of (store w) user_id)) as Hs.
    assert (StronglySorted newer_or_same
              (match offset with
               | Some o => if Nat.eqb o 0 then order_newest_first (logs_of (store w) user_id)
                           else skipn o (order_newest_first (logs_of (store w) user_id))
               | None => order_newest_first (logs_of (store w) user_id)
               end)) as Hso.
    { destruct offset as [o|]; [|exact Hs].
      destruct (Nat.eqb o 0); [exact Hs | now apply skipn_sorted]. }
    destruct limit as [n|]; [|exact Hso].
    destruct (Nat.eqb n 0); [exact Hso | now apply firstn_sorted].
  - intros n -> Hn. subst page.
    assert (List.length ms = List.length (map sm_id ms)) as -> by now rewrite length_map.
    rewrite Hid, length_map.
    destruct (Nat.eqb_spec n 0); [contradiction|]. apply firstn_le_length.
  - exact Hst.
Qed.
(** X13.  The balance gate on first touch: when the database answers and the
    user has no row, [check_credit_by_user_id] creates the row with the
    default credit whether it lets the user pass or not, and it refuses
    exactly when the default credit is not positive. *)
Theorem gate_on_first_touch (u msg : string) (md : option jdict) (w : world) :
  faults w = [] -> ids_fresh w ->
  balance_of (store w) u = None ->
  exists r w',
    check_credit_by_user_id D u msg md w = (r, w')
    /\ credit_tbl (store w')
       = credit_tbl (store w) ++ [mkCredit (next_uuid w) u D (clock w) (clock w)]
    /\ balance_of (store w') u = Some D
    /\ (D <= 0 -> r = inl (HTTPException 403 msg))
    /\ (0 < D -> r = inr tt).
Proof.
  intros Hf Hfresh Hnone.
  assert (List.find (user_is u) (credit_tbl (store w)) = None) as Hfind.
  { unfold balance_of in Hnone. destruct (List.find _ _); [discriminate | reflexivity]. }
  pose proof (init_no_faults u w Hf Hfresh) as Hinit. rewrite Hfind in Hinit. cbv zeta in Hinit.
  pose proof (fresh_row_absent u w Hfresh Hfind) as Hex.
  destruct (find_app_fresh u (credit_tbl (store w))
              (mkCredit (next_uuid w) u D (clock w) (clock w)) Hex eq_refl) as [_ Hnew].
  destruct (check_credit_by_user_id D u msg md w) as [r w'] eqn:Hrun.
  destruct (check_credit_store u msg md w w' r Hrun) as (r0 & w0 & Hinit' & Hst).
  rewrite Hinit in Hinit'. injection Hinit' as <- <-. cbn [store] in Hst.
  exists r, w'. split; [reflexivity|]. rewrite Hst. cbn [credit_tbl].
  split; [reflexivity|]. split; [unfold balance_of; cbn [credit_tbl]; now rewrite Hnew|].
  unfold check_credit_by_user_id in Hrun. cbv beta delta [bind] in Hrun.
  rewrite Hinit in Hrun. cbn [c_credit] in Hrun.
  destruct (Z.leb_spec D 0) as [Hle|Hgt].
  - split; [intros _|lia].
    destruct md as [md|]; [|now injection Hrun as <- _].
    destruct (truthy_val (PDict md)); [|now injection Hrun as <- _].
    destruct (truthy_val (meta_get md "chat_id") && _); now injection Hrun as <- _.
  - split; [lia|]. intros _. now injection Hrun as <- _.
Qed.
End Ledger.

(** ** The ledger on concrete worlds *)

Section LedgerScenarios.
Import Py Store Credits Scenario.
Local Open Scope list_scope.

Lemma listing_zero_is_unlimited_witness :
  (exists ms,
      get_credit_log_by_user_id "u1" (Some 0%nat) (Some 0%nat) world_with_logs
      = (inr ms, world_with_logs)
      /\ List.length ms = List.length (logs_of (store world_with_logs) "u1"))
  /\ List.length (logs_of (store world_with_logs) "u1") = 2%nat.
Proof.
  split; [|reflexivity].
  destruct (listing_zero_is_unlimited "u1" world_with_logs) as [_ [_ [_ H]]].
  apply H; [reflexivity|].
  repeat constructor; eexists; reflexivity.
Defined.

Example create_t1_world :
  create_t1 (world_with_balance 0)
  = (inr (mkTicketModel "t1" "u1" (mkDecimal 10 0) [] 1700000100), world_with_t1).
Proof. reflexivity. Qed.

(** The backend of the test points keeps the numbers of twelve places as
    they are. *)
Lemma numeric_nearest_exact (d : Decimal) (v : decimal) :
  same_number d (Decimal_of_column v) -> numeric_nearest d = v.
Proof.
  unfold same_number, Decimal_of_column, numeric_nearest. cbn [coefficient places].
  change (Z.of_N 12) with 12.
  set (k := Z.of_N (places d)). assert (0 <= k) as Hk by (subst k; lia).
  intros E. destruct (Z.leb_spec k 12) as [Hle|Hgt].
  - replace 12 with ((12 - k) + k) in E at 1 by lia.
    rewrite Z.pow_add_r, Z.mul_assoc in E by lia.
    apply Z.mul_cancel_r in E; [exact E|].
    apply Z.pow_nonzero; lia.
  - set (q := 10 ^ (k - 12)) in *.
    assert (0 < q) as Hq by (subst q; apply Z.pow_pos_nonneg; lia).
    replace k with ((k - 12) + 12) in E at 1 by lia.
    rewrite Z.pow_add_r in E by lia. fold q in E.
    rewrite Z.mul_assoc in E. apply Z.mul_cancel_r in E; [|discriminate].
    rewrite E, Z.sgn_mul, (Z.sgn_pos q Hq), Z.mul_1_r, Z.abs_mul, (Z.abs_eq q) by lia.
    replace (2 * (Z.abs v * q) + q) with ((2 * Z.abs v + 1) * q) by ring.
    rewrite Z.div_mul_cancel_r by lia.
    replace ((2 * Z.abs v + 1) / 2) with (Z.abs v)
      by (apply (Z.div_unique _ 2 (Z.abs v) 1); lia).
    destruct v; simpl; lia.
Qed.

Lemma world_with_t1_fresh : ids_fresh world_with_t1.
Proof.
  split; intros r Hin; cbn in Hin.
  - destruct Hin as [<-|[]]. cbn. lia.
  - destruct Hin.
Qed.

Lemma each_settlement_credits_the_user_witness :
  exists w1 w2 e1 e2,
    update_credit_by_id 0 "t1" settle_detail world_with_t1 = (inr None, w1)
    /\ update_credit_by_id 0 "t1" settle_detail w1 = (inr None, w2)
    /\ balance_of (store w1) "u1" = Some (0 + decimal_of_int 10)
    /\ balance_of (store w2) "u1" = Some (0 + decimal_of_int 10 + decimal_of_int 10)
    /\ credit_log_tbl (store w2) = [] ++ [e1; e2]
    /\ l_credit e1 = 0 + decimal_of_int 10
    /\ l_credit e2 = 0 + decimal_of_int 10 + decimal_of_int 10
    /\ option_map t_detail (List.find (ticket_is "t1") (trade_ticket_tbl (store w1)))
       = Some settle_detail
    /\ option_map t_detail (List.find (ticket_is "t1") (trade_ticket_tbl (store w2)))
       = Some settle_detail.
Proof.
  exact (each_settlement_credits_the_user 0 "t1" settle_detail settle_detail world_with_t1
           (mkTradeTicket "t1" "u1" (decimal_of_int 10) [] 1700000100)
           eq_refl world_with_t1_fresh eq_refl).
Defined.

(** C1 as stated fails: after ticket t1 over 10 is settled twice the
    balance of u1 is 20, and the log holds two rows. *)
Lemma second_settlement_credits_again :
  let w1 := snd (ticket_then_settle 0 (world_with_balance 0)) in
  let w2 := snd (ticket_then_settle_twice 0 (world_with_balance 0)) in
  balance_of (store w1) "u1" = Some (decimal_of_int 10)
  /\ balance_of (store w2) "u1" = Some (decimal_of_int 20)
  /\ balance_of (store w2) "u1" <> balance_of (store w1) "u1"
  /\ List.length (logs_of (store w2) "u1") = 2%nat.
Proof.
  vm_compute. repeat split. discriminate.
Qed.

Lemma check_credit_gate_witness :
  check_credit_by_user_id 0 "u1" "Insufficient credit" (Some chat_ref) (world_with_balance 1)
  = (inr tt, world_with_balance 1)
  /\ exists w2,
      check_credit_by_user_id 0 "u1" "Insufficient credit" (Some chat_ref) (world_with_balance 0)
      = (inl (HTTPException 403 "Insufficient credit"), w2)
      /\ chat_errors w2
         = [(PStr "c-42", PStr "m-7",
             PDict [("error", PDict [("content", PStr "Insufficient credit")])])].
Proof.
  split.
  - apply (check_credit_gate 0 "u1" "Insufficient credit" (Some chat_ref)
             (world_with_balance 1) (world_with_balance 1)
             (mkCredit 0%N "u1" 1 1700000000 1700000000) eq_refl).
    cbn. lia.
  - destruct (check_credit_gate 0 "u1" "Insufficient credit" (Some chat_ref)
                (world_with_balance 0) (world_with_balance 0)
                (mkCredit 0%N "u1" 0 1700000000 1700000000) eq_refl) as [_ [H _]].
    destruct (H ltac:(cbn; lia)) as (w2 & Hrun & _ & _ & Hchat & _).
    exists w2. split; [exact Hrun|].
    exact (Hchat chat_ref eq_refl eq_refl eq_refl).
Defined.

Lemma duplicate_ticket_is_rejected_witness :
  exists cause w',
    insert_new_ticket numeric_nearest "t1" "u2" (mkFloat 5 0) [] world_with_t1
    = (inl (HTTPException 500 (str_exn cause)), w')
    /\ kind_of (HTTPException 500 (str_exn cause)) = Internal
    /\ store w' = store world_with_t1
    /\ (cause = IntegrityError "UNIQUE constraint failed: trade_ticket.id"
        \/ cause = OperationalError "database error")
    /\ (faults world_with_t1 = [] ->
        cause = IntegrityError "UNIQUE constraint failed: trade_ticket.id").
Proof.
  apply (duplicate_ticket_is_rejected numeric_nearest "t1" "u2" (mkFloat 5 0) [] world_with_t1).
  exists (mkTradeTicket "t1" "u1" (decimal_of_int 10) [] 1700000100).
  split; [left; reflexivity | reflexivity].
Defined.

(** C9 as stated fails: the duplicate is refused with status 500, the
    internal kind that a database outage produces as well, not with a
    conflict kind. *)
Lemma duplicate_ticket_is_not_a_conflict :
  fst (insert_new_ticket numeric_nearest "t1" "u1" float_ten [] world_with_t1)
  = inl (HTTPException 500 "UNIQUE constraint failed: trade_ticket.id")
  /\ kind_of (HTTPException 500 "UNIQUE constraint failed: trade_ticket.id") <> Conflict
  /\ fst (insert_new_ticket numeric_nearest "t1" "u1" float_ten [] world_db_down)
     = inl (HTTPException 500 "database error")
  /\ kind_of (HTTPException 500 "database error")
     = kind_of (HTTPException 500 "UNIQUE constraint failed: trade_ticket.id").
Proof.
  repeat split; try reflexivity. discriminate.
Qed.

(** C8 (as amended).  Ticket t1 of user u1 over 10.00, settled from a
    balance of 0: the balance is 10.000000000000 and u1 has one log row,
    whose credit is 10.000000000000 and whose detail says "payment
    success"; the same holds when u1 has no row yet and the default
    credit is 0.  A call of [add_credit_by_user_id] that runs with no
    other request in between logs the balance it leaves.  The call is a
    read followed by a write in a session of its own, and the row logged
    is the balance read plus the amount: with a second add served between
    the two steps both amounts reach the balance and the row of the first
    call holds the balance without the second amount. *)
Theorem settled_ticket_scenario :
  (forall D,
      let w' := snd (ticket_then_settle D (world_with_balance 0)) in
      balance_of (store w') "u1" = Some (decimal_of_int 10)
      /\ option_map str_decimal (balance_of (store w') "u1") = Some "10.000000000000"
      /\ map (fun e => (l_credit e, str_decimal (l_credit e), dict_get (l_detail e) "desc"))
             (logs_of (store w') "u1")
         = [(decimal_of_int 10, "10.000000000000", Some (PStr "payment success"))])
  /\ (let w' := snd (ticket_then_settle 0 empty_world) in
      option_map str_decimal (balance_of (store w') "u1") = Some "10.000000000000"
      /\ map (fun e => (l_credit e, str_decimal (l_credit e), dict_get (l_detail e) "desc"))
             (logs_of (store w') "u1")
         = [(decimal_of_int 10, "10.000000000000", Some (PStr "payment success"))])
  /\ (forall D form w v w',
        add_credit_by_user_id D form w = (inr v, w') ->
        exists entry,
          credit_log_tbl (store w') = credit_log_tbl (store w) ++ [entry]
          /\ l_user_id entry = add_user_id form
          /\ l_detail entry = model_dump (add_detail form)
          /\ balance_of (store w') (add_user_id form) = Some (l_credit entry))
  /\ (forall D form,
        add_credit_by_user_id D form
        = bind (add_credit_read D form) (add_credit_write form))
  /\ (forall D first second w,
        faults w = [] -> ids_fresh w ->
        add_user_id second = add_user_id first ->
        exists v w' e2 e1,
          add_interleaved D first second w = (inr v, w')
          /\ credit_log_tbl (store w') = credit_log_tbl (store w) ++ [e2; e1]
          /\ l_credit e1
             = opening_balance D (store w) (add_user_id first) + add_amount first
          /\ balance_of (store w') (add_user_id first)
             = Some (opening_balance D (store w) (add_user_id first)
                     + add_amount second + add_amount first)).
Proof.
  split; [|split; [|split; [|split]]].
  4: { intros D form. reflexivity. }
  4: { intros D first second w Hf Hfresh Hu.
       destruct (add_interleaved_no_faults D first second w Hf Hfresh Hu)
         as (v & w' & e2 & e1 & Hrun & Hlog & _ & Hc1 & Hbal).
       exists v, w', e2, e1. repeat split; assumption. }
  - intros D. vm_compute. repeat split.
  - vm_compute. repeat split.
  - intros D form w v w' Hadd.
    destruct (add_credit_outcome D form w) as (r0 & w0 & r & w1 & Hinit & Hadd' & _ & Hcase & _).
    destruct (init_credit_outcome D (add_user_id form) w) as (r0' & w0' & Hinit' & Hlog & _).
    rewrite Hinit in Hinit'. injection Hinit' as <- <-.
    rewrite Hadd in Hadd'. injection Hadd' as <- <-.
    destruct Hcase as [[[e [=]] _]|(_ & c & _ & Hst & Hbal)].
    exists (add_log_row form w0 c). rewrite Hbal, Hst, <- Hlog. repeat split.
Qed.

(** C8 as stated fails: from a balance of 0, an add of 5 with an add of 3
    served between its read and its write leaves the balance at 8, and
    the row the add of 5 logged holds 5. *)
Lemma interleaved_add_logs_stale_balance :
  let w' := snd (add_interleaved 0 add_five add_three (world_with_balance 0)) in
  balance_of (store w') "u1" = Some 8
  /\ map (fun e => (l_credit e, dict_get (l_detail e) "desc")) (logs_of (store w') "u1")
     = [(3, Some (PStr "second")); (5, Some (PStr "first"))]
  /\ Some 5 <> balance_of (store w') "u1".
Proof.
  vm_compute. repeat split. discriminate.
Qed.

Lemma settled_ticket_scenario_witness :
  exists entry,
    credit_log_tbl (store (snd (add_credit_by_user_id 0
                                  (mkAddCreditForm "u1" (decimal_of_int 10)
                                                   (detail_with_desc "payment success"))
                                  world_with_t1)))
    = credit_log_tbl (store world_with_t1) ++ [entry]
    /\ l_user_id entry = "u1"
    /\ l_detail entry = model_dump (detail_with_desc "payment success")
    /\ balance_of (store (snd (add_credit_by_user_id 0
                                 (mkAddCreditForm "u1" (decimal_of_int 10)
                                                  (detail_with_desc "payment success"))
                                 world_with_t1))) "u1"
       = Some (l_credit entry).
Proof.
  destruct settled_ticket_scenario as [_ [_ [H _]]].
  assert (exists v,
             add_credit_by_user_id 0
               (mkAddCreditForm "u1" (decimal_of_int 10) (detail_with_desc "payment success"))
               world_with_t1
             = (inr v,
                snd (add_credit_by_user_id 0
                       (mkAddCreditForm "u1" (decimal_of_int 10)
                                        (detail_with_desc "payment success"))
                       world_with_t1))) as [v E].
  { vm_compute. eexists. reflexivity. }
  exact (H _ _ _ _ _ E).
Defined.
End LedgerScenarios.

(** ** The canonical text does not depend on the order of the fields *)

Section CanonicalOrder.
Import Py PyStr Ezfp.
Local Open Scope list_scope.

Lemma ascii_compare_N (x y : ascii) :
  Ascii.compare x y = N.compare (N_of_ascii x) (N_of_ascii y).
Proof. reflexivity. Qed.

Lemma str_le_trans (a b c : string) : str_le a b -> str_le b c -> str_le a c.
Proof.
  unfold str_le, String.leb. revert b c.
  induction a as [|x a IH]; intros [|y b] [|z c]; simpl; try easy.
  rewrite !ascii_compare_N.
  destruct (N.compare_spec (N_of_ascii x) (N_of_ascii y)) as [Exy|Lxy|Gxy];
    destruct (N.compare_spec (N_of_ascii y) (N_of_ascii z)) as [Eyz|Lyz|Gyz];
    try easy.
  - rewrite Exy, Eyz, N.compare_refl. apply IH.
  - intros _ _. rewrite Exy. now rewrite (proj2 (N.compare_lt_iff _ _) Lyz).
  - intros _ _. rewrite <- Eyz. now rewrite (proj2 (N.compare_lt_iff _ _) Lxy).
  - intros _ _. now rewrite (proj2 (N.compare_lt_iff _ _) (N.lt_trans _ _ _ Lxy Lyz)).
Qed.

Lemma insert_sorted_perm (x : string) (l : list string) :
  Permutation (insert_sorted x l) (x :: l).
Proof.
  induction l as [|y l IH]; simpl; [reflexivity|].
  destruct (String.leb x y); [reflexivity|]. rewrite IH. apply perm_swap.
Qed.

Lemma sort_perm (l : list string) : Permutation (sort l) l.
Proof.
  induction l as [|x l IH]; simpl; [reflexivity|].
  rewrite insert_sorted_perm. now constructor.
Qed.

Lemma insert_sorted_sorted (x : string) (l : list string) :
  StronglySorted str_le l -> StronglySorted str_le (insert_sorted x l).
Proof.
  induction 1 as [|y l Hs IH Hy]; simpl.
  - repeat constructor.
  - destruct (String.leb x y) eqn:E.
    + constructor; [now constructor|]. constructor; [exact E|].
      rewrite Forall_forall in *. intros z Hz.
      exact (str_le_trans x y z E (Hy z Hz)).
    + constructor; [exact IH|].
      rewrite (Forall_forall (str_le y)). intros z Hz.
      apply (Permutation_in _ (insert_sorted_perm x l)) in Hz.
      destruct Hz as [<-|Hz].
      * destruct (String.leb_total x y) as [H|H]; [congruence | exact H].
      * rewrite Forall_forall in Hy. now apply Hy.
Qed.

Lemma sort_sorted (l : list string) : StronglySorted str_le (sort l).
Proof.
  induction l as [|x l IH]; simpl; [constructor | now apply insert_sorted_sorted].
Qed.

(** Two sorted arrangements of the same strings are the same list. *)
Lemma sorted_perm_unique (l1 l2 : list string) :
  StronglySorted str_le l1 -> StronglySorted str_le l2 -> Permutation l1 l2 -> l1 = l2.
Proof.
  revert l2. induction l1 as [|x l1 IH]; intros l2 H1 H2 Hp.
  - apply Permutation_nil in Hp. now subst.
  - destruct l2 as [|y l2]; [apply Permutation_sym, Permutation_nil in Hp; discriminate|].
    inversion H1 as [|? ? H1' Hx]; subst. inversion H2 as [|? ? H2' Hy]; subst.
    rewrite Forall_forall in Hx, Hy.
    assert (x = y) as ->.
    { assert (In x (y :: l2)) as Hxin by (apply (Permutation_in _ Hp); now left).
      assert (In y (x :: l1)) as Hyin
          by (apply (Permutation_in _ (Permutation_sym Hp)); now left).
      destruct Hxin as [->|Hxin]; [reflexivity|].
      destruct Hyin as [->|Hyin]; [reflexivity|].
      apply String.leb_antisym; [exact (Hx y Hyin) | exact (Hy x Hxin)]. }
    f_equal. apply IH; try assumption. exact (Permutation_cons_inv Hp).
Qed.

Lemma sort_of_perm (l1 l2 : list string) : Permutation l1 l2 -> sort l1 = sort l2.
Proof.
  intros Hp. apply sorted_perm_unique; try apply sort_sorted.
  rewrite !sort_perm. exact Hp.
Qed.

Lemma filter_perm {A} (f : A -> bool) (l1 l2 : list A) :
  Permutation l1 l2 -> Permutation (filter f l1) (filter f l2).
Proof.
  induction 1 as [|x l1 l2 _ IH|x y l|l1 l2 l3 _ IH1 _ IH2]; simpl.
  - constructor.
  - destruct (f x); [now constructor | exact IH].
  - destruct (f x), (f y); try reflexivity. apply perm_swap.
  - now transitivity (filter f l2).
Qed.

(** X14.  The text that [sign] digests, and so the signature, depends on
    the fields of the payload and not on the order in which the dictionary
    holds them. *)
Theorem signature_ignores_field_order (cfg : Config) (p q : dict) :
  Permutation p q ->
  plain_text cfg p = plain_text cfg q
  /\ dict_get (sign cfg p) "sign" = dict_get (sign cfg q) "sign".
Proof.
  intros Hp.
  assert (plain_text cfg p = plain_text cfg q) as Ht.
  { unfold plain_text, sign_params. f_equal. f_equal. apply sort_of_perm.
    apply Permutation_map, filter_perm, Hp. }
  split; [exact Ht|].
  rewrite !get_sign_of_sign. now rewrite Ht.
Qed.
End CanonicalOrder.

(** ** Signing twice *)

Section SignTwice.
Import Py PyStr Ezfp.
Local Open Scope list_scope.
Local Opaque MD5.hexdigest PyStr.sort PyStr.join.

Lemma dict_set_present {V} (d : list (string * V)) k v :
  dict_get d k = Some v -> dict_set d k v = d.
Proof.
  induction d as [|[k' v'] d IH]; simpl; [discriminate|].
  destruct (String.eqb_spec k' k) as [->|Hne].
  - now intros [= ->].
  - intros H. now rewrite IH.
Qed.

(** X15.  [sign] is idempotent and its result depends on the fields that
    are not signature fields only: signing a signed payload changes
    nothing, a [sign] or [sign_type] already in the payload is overwritten
    by the computed one, and every other field is kept as it is. *)
Theorem sign_is_idempotent (cfg : Config) (payload : dict) :
  sign cfg (sign cfg payload) = sign cfg payload
  /\ (forall k v, is_sign_key k = true ->
        dict_get (sign cfg (dict_set payload k v)) "sign" = dict_get (sign cfg payload) "sign"
        /\ dict_get (sign cfg (dict_set payload k v)) "sign_type" = Some (SStr "MD5"))
  /\ (forall k, is_sign_key k = false ->
        dict_get (sign cfg payload) k = dict_get payload k).
Proof.
  split; [|split].
  - unfold sign at 1. rewrite plain_text_sign.
    rewrite (dict_set_present (sign cfg payload) "sign" _ (get_sign_of_sign cfg payload)).
    apply dict_set_present, get_sign_type_of_sign.
  - intros k v Hk. rewrite !get_sign_of_sign, get_sign_type_of_sign.
    unfold plain_text. now rewrite (sign_params_set_sign_key payload k v Hk).
  - intros k Hk. now apply get_other_of_sign.
Qed.
End SignTwice.

(** ** Authorization headers and roles *)

Section HeaderFacts.
Import Py PyStr Auth.
Local Open Scope list_scope.

Lemma split_char_nonempty (sep : ascii) (s : string) : split_char sep s <> [].
Proof.
  destruct s as [|c s]; simpl; [discriminate|].
  destruct (Ascii.eqb c sep); [discriminate|].
  destruct (split_char sep s); discriminate.
Qed.

Lemma split_char_free (sep : ascii) (s : string) :
  free_of sep s -> split_char sep s = [s].
Proof.
  unfold free_of. induction s as [|c s IH]; simpl; intros Hf; [reflexivity|].
  destruct (Ascii.eqb_spec c sep) as [->|Hne]; [exfalso; apply Hf; now left|].
  rewrite IH; [reflexivity|]. intros Hin. apply Hf. now right.
Qed.

Lemma split_char_one (sep : ascii) (s p : string) :
  split_char sep s = [p] -> s = p /\ free_of sep s.
Proof.
  unfold free_of. revert p. induction s as [|c s IH]; simpl; intros p H.
  - injection H as <-. split; [reflexivity | intros []].
  - destruct (Ascii.eqb_spec c sep) as [->|Hne].
    + injection H as _ H. now destruct (split_char_nonempty sep s).
    + destruct (split_char sep s) as [|q qs] eqn:E; [now destruct (split_char_nonempty sep s)|].
      injection H as <- ->. destruct (IH q eq_refl) as [-> Hf].
      split; [reflexivity|]. intros [Hc|Hin]; [congruence | now apply Hf].
Qed.

Lemma split_char_two (sep : ascii) (s a b : string) :
  split_char sep s = [a; b] <->
  s = (a ++ String sep b)%string /\ free_of sep a /\ free_of sep b.
Proof.
  split.
  - revert a. induction s as [|c s IH]; simpl; intros a H; [discriminate|].
    destruct (Ascii.eqb_spec c sep) as [->|Hne].
    + injection H as <- H. destruct (split_char_one sep s b H) as [-> Hf].
      repeat split; [intros [] | exact Hf].
    + destruct (split_char sep s) as [|q qs] eqn:E; [discriminate|].
      injection H as <- ->. destruct (IH q eq_refl) as (-> & Ha & Hb).
      repeat split; [|exact Hb].
      intros [Hc|Hin]; [congruence | now apply Ha].
  - intros (-> & Ha & Hb). revert Ha. unfold free_of.
    induction a as [|c a IH]; simpl; intros Ha.
    + rewrite Ascii.eqb_refl. now rewrite (split_char_free sep b Hb).
    + destruct (Ascii.eqb_spec c sep) as [->|Hne]; [exfalso; apply Ha; now left|].
      rewrite IH; [reflexivity|]. intros Hin. apply Ha. now right.
Qed.

(** X16.  [get_http_authorization_cred] answers with a scheme and
    credentials exactly for a header made of two pieces free of spaces
    with one space between them; a missing or empty header, one without a
    space and one with a second space give [None]. *)
Theorem authorization_header_has_two_pieces :
  (forall h scheme credentials,
      get_http_authorization_cred h = Some (scheme, credentials) <->
      h = Some (scheme ++ " " ++ credentials)%string
      /\ free_of " " scheme /\ free_of " " credentials)
  /\ get_http_authorization_cred None = None
  /\ get_http_authorization_cred (Some "") = None
  /\ (forall h, free_of " " h -> get_http_authorization_cred (Some h) = None)
  /\ (forall a b c, get_http_authorization_cred (Some (a ++ " " ++ b ++ " " ++ c)%string) = None).
Proof.
  assert (Hmain : forall h scheme credentials,
             get_http_authorization_cred h = Some (scheme, credentials) <->
             h = Some (scheme ++ " " ++ credentials)%string
             /\ free_of " " scheme /\ free_of " " credentials).
  { intros h scheme credentials. split.
    - unfold get_http_authorization_cred. destruct h as [[|c h]|]; try discriminate.
      destruct (split_char " " (String c h)) as [|a [|b [|x l]]] eqn:E; try discriminate.
      intros [= -> ->]. apply split_char_two in E as (-> & Ha & Hb). now repeat split.
    - intros (-> & Ha & Hb).
      assert (split_char " " (scheme ++ String " " credentials) = [scheme; credentials]) as E
          by (apply split_char_two; now repeat split).
      unfold get_http_authorization_cred.
      change (scheme ++ " " ++ credentials)%string with (scheme ++ String " " credentials)%string.
      rewrite E. destruct scheme; reflexivity. }
  split; [exact Hmain|]. split; [reflexivity|]. split; [reflexivity|]. split.
  - intros h Hf. destruct (get_http_authorization_cred (Some h)) as [[a b]|] eqn:E; [|reflexivity].
    apply Hmain in E as ([= ->] & _ & _). exfalso. apply Hf.
    clear. induction a; simpl; [now left | now right].
  - intros a b c.
    destruct (get_http_authorization_cred (Some (a ++ " " ++ b ++ " " ++ c)%string))
      as [[x y]|] eqn:E; [|reflexivity].
    apply Hmain in E as ([= E] & Hx & Hy). exfalso.
    (* the text has two spaces, a split into two pieces free of spaces has one *)
    assert (Hcount : forall s t, free_of " " s -> free_of " " t ->
               forall a' b' c', (s ++ " " ++ t)%string <> (a' ++ " " ++ b' ++ " " ++ c')%string).
    { clear. intros s. induction s as [|ch s IH]; intros t Hs Ht a' b' c' Heq.
      - destruct a' as [|ch' a']; simpl in Heq.
        + injection Heq as ->. apply Ht. clear.
          induction b'; simpl; [now left | now right].
        + injection Heq as <- ->. apply Ht. clear.
          induction a'; simpl; [now left | right; assumption].
      - destruct a' as [|ch' a']; simpl in Heq.
        + injection Heq as -> _. apply Hs. now left.
        + injection Heq as -> Heq. apply (IH t) in Heq; [exact Heq| |exact Ht].
          intros Hin. apply Hs. now right. }
    exact (Hcount x y Hx Hy a b c (eq_sym E)).
Qed.

Lemma whole_skip_continuation (s : string) : whole (skip_continuation s) = true.
Proof.
  induction s as [|c s IH]; simpl; [reflexivity|].
  destruct (is_continuation c) eqn:E; [exact IH | simpl; now rewrite E].
Qed.

Lemma len_skip_continuation (s : string) : len (skip_continuation s) = len s.
Proof.
  induction s as [|c s IH]; simpl; [reflexivity|].
  destruct (is_continuation c) eqn:E; [exact IH | simpl; now rewrite E].
Qed.

Lemma skip_continuation_app (p rest : string) :
  whole rest = true ->
  skip_continuation (p ++ rest) = (skip_continuation p ++ rest)%string.
Proof.
  intros Hr. induction p as [|c p IH]; simpl.
  - destruct rest as [|r rest]; [reflexivity|]. simpl in *.
    now destruct (is_continuation r).
  - destruct (is_continuation c); [exact IH | reflexivity].
Qed.

Lemma drop_characters (n : nat) :
  forall prefix rest,
    whole prefix = true -> len prefix = n -> whole rest = true ->
    drop n (prefix ++ rest) = rest.
Proof.
  induction n as [|n IH]; intros [|c p] rest Hp Hl Hr; simpl in *.
  - reflexivity.
  - destruct (is_continuation c); discriminate.
  - discriminate.
  - destruct (is_continuation c); [discriminate|]. injection Hl as Hl.
    rewrite (skip_continuation_app p rest Hr).
    apply IH; [apply whole_skip_continuation | now rewrite len_skip_continuation | exact Hr].
Qed.

Lemma drop_short (n : nat) :
  forall h, whole h = true -> (len h <= n)%nat -> drop n h = "".
Proof.
  induction n as [|n IH]; intros [|c h] Hw Hl; simpl in *; try reflexivity.
  - destruct (is_continuation c); [discriminate | lia].
  - destruct (is_continuation c); [discriminate|].
    apply IH; [apply whole_skip_continuation | rewrite len_skip_continuation; lia].
Qed.

(** X17.  [extract_token_from_auth_header] drops the first seven characters
    of the header whatever they are: it returns the token of a "Bearer "
    header, the rest after any other prefix of seven characters, of one
    byte or of several, and the empty string for a header of at most
    seven characters.  The scheme is not looked at. *)
Theorem extract_token_drops_seven :
  (forall token, whole token = true ->
     extract_token_from_auth_header ("Bearer " ++ token) = token)
  /\ (forall prefix rest,
        whole prefix = true -> len prefix = 7%nat -> whole rest = true ->
        extract_token_from_auth_header (prefix ++ rest) = rest)
  /\ (forall h, whole h = true -> (len h <= 7)%nat ->
        extract_token_from_auth_header h = "").
Proof.
  unfold extract_token_from_auth_header.
  change (len "Bearer ") with 7%nat.
  split; [|split].
  - intros token Ht. now apply drop_characters.
  - intros prefix rest Hp Hl Hr. now apply drop_characters.
  - intros h Hw Hl. now apply drop_short.
Qed.

(** X18.  [get_admin_user] lets a user pass exactly when the role is
    "admin" and [get_verified_user] exactly when it is "user" or "admin",
    so whoever passes as admin passes as verified; every other role is
    answered with status 401 and the access-prohibited text. *)
Theorem role_gates (msgs : Messages) (user : UserModel) :
  (get_admin_user msgs user = inr user <-> um_role user = "admin")
  /\ (get_verified_user msgs user = inr user <->
      um_role user = "user" \/ um_role user = "admin")
  /\ (get_admin_user msgs user = inr user -> get_verified_user msgs user = inr user)
  /\ (um_role user <> "admin" ->
      get_admin_user msgs user = inl (HTTPException 401 (ACCESS_PROHIBITED msgs)))
  /\ (um_role user <> "user" -> um_role user <> "admin" ->
      get_verified_user msgs user = inl (HTTPException 401 (ACCESS_PROHIBITED msgs))).
Proof.
  unfold get_admin_user, get_verified_user.
  destruct (String.eqb_spec (um_role user) "admin") as [Ha|Ha];
    destruct (String.eqb_spec (um_role user) "user") as [Hu|Hu]; simpl;
    repeat split; intros; try reflexivity; try discriminate; try congruence; auto;
    try (destruct H; congruence).
Qed.
End HeaderFacts.

(** ** The limit on session tokens *)

Section SessionLimit.
Import Py PyStr Auth.
Local Open Scope list_scope.

Lemma ltb_not_leb (a b : string) : String.ltb a b = true -> String.leb b a = false.
Proof.
  unfold String.ltb, String.leb. rewrite (String.compare_antisym a b).
  destruct (String.compare b a); simpl; congruence.
Qed.

Lemma insert_token_perm x l : Permutation (insert_token x l) (x :: l).
Proof.
  induction l as [|y l IH]; simpl; [reflexivity|].
  destruct (String.leb (fst y) (fst x)); [reflexivity|]. rewrite IH. apply perm_swap.
Qed.

Lemma sort_tokens_perm l : Permutation (sort_tokens l) l.
Proof.
  induction l as [|x l IH]; simpl; [reflexivity|].
  rewrite insert_token_perm. now constructor.
Qed.

Lemma insert_token_sorted x l :
  StronglySorted newer_token l -> StronglySorted newer_token (insert_token x l).
Proof.
  induction 1 as [|y l Hs IH Hy]; simpl.
  - repeat constructor.
  - destruct (String.leb (fst y) (fst x)) eqn:E.
    + constructor; [now constructor|]. constructor; [exact E|].
      rewrite Forall_forall in *. intros z Hz. specialize (Hy z Hz).
      unfold newer_token in *. exact (str_le_trans _ _ _ Hy E).
    + constructor; [exact IH|].
      rewrite (Forall_forall (newer_token y)). intros z Hz.
      apply (Permutation_in _ (insert_token_perm x l)) in Hz.
      destruct Hz as [<-|Hz].
      * unfold newer_token. destruct (String.leb_total (fst x) (fst y)); congruence.
      * rewrite Forall_forall in Hy. now apply Hy.
Qed.

Lemma sort_tokens_sorted l : StronglySorted newer_token (sort_tokens l).
Proof.
  induction l as [|x l IH]; simpl; [constructor | now apply insert_token_sorted].
Qed.

Lemma sorted_app_order {A} (R : A -> A -> Prop) (l1 l2 : list A) :
  StronglySorted R (l1 ++ l2) -> forall a b, In a l1 -> In b l2 -> R a b.
Proof.
  induction l1 as [|x l1 IH]; simpl; intros Hs a b Ha Hb; [destruct Ha|].
  inversion Hs as [|? ? Hs' Hall]; subst.
  destruct Ha as [<-|Ha].
  - rewrite Forall_forall in Hall. apply Hall, in_or_app. now right.
  - now apply IH.
Qed.

(** The newest token of a list heads the sorted list. *)
Lemma sort_tokens_head (x : string * string) (l : list (string * string)) :
  In x l ->
  (forall y, In y l -> y <> x -> String.ltb (fst y) (fst x) = true) ->
  exists rest, sort_tokens l = x :: rest.
Proof.
  induction l as [|a l IH]; intros Hin Hnew; [destruct Hin|].
  simpl.
  assert (Hhead : forall rest', (forall y, In y rest' -> In y l) ->
             exists rest, insert_token x rest' = x :: rest).
  { intros [|y rest'] Hsub; simpl; [eauto|].
    assert (String.leb (fst y) (fst x) = true) as ->; [|eauto].
    assert (In y (a :: l)) as Hy by (right; apply Hsub; now left).
    destruct (string_dec (fst y) (fst x)) as [E|E].
    - rewrite E. now destruct (String.leb_total (fst x) (fst x)).
    - assert (y <> x) as Hne by congruence.
      pose proof (Hnew y Hy Hne) as Hlt. unfold String.ltb, String.leb in *.
      destruct (String.compare (fst y) (fst x)); congruence. }
  destruct (list_eq_dec string_dec [fst a; snd a] [fst x; snd x]) as [E|E].
  - assert (a = x) as -> by (destruct a, x; simpl in E; congruence).
    apply Hhead. intros y Hy. exact (Permutation_in _ (sort_tokens_perm l) Hy).
  - assert (a <> x) as Hax by (intros ->; now apply E).
    destruct Hin as [Hin|Hin]; [congruence|].
    destruct (IH Hin) as [rest Hrest].
    { intros y Hy Hne. apply Hnew; [now right | exact Hne]. }
    rewrite Hrest. simpl.
    rewrite (ltb_not_leb _ _ (Hnew a ltac:(now left) Hax)). eauto.
Qed.

Lemma hgetall_hset (r : redis) (name field value : string) :
  hgetall (hset r name field value) name = dict_set (hgetall r name) field value.
Proof. unfold hgetall at 1, hset. now rewrite dict_get_set_same. Qed.

Lemma in_dict_set_self (h : hash) (k v : string) : In (k, v) (dict_set h k v).
Proof.
  induction h as [|[k' v'] h IH]; simpl; [now left|].
  destruct (String.eqb k' k); [now left | right; exact IH].
Qed.

Lemma in_dict_set_inv (h : hash) (k v f c : string) :
  NoDup (map fst h) ->
  In (f, c) (dict_set h k v) -> (f, c) = (k, v) \/ (In (f, c) h /\ f <> k).
Proof.
  induction h as [|[k' v'] h IH]; simpl; intros Hnd Hin.
  - destruct Hin as [Hin|[]]. left. now symmetry.
  - inversion Hnd as [|? ? Hnotin Hnd']; subst.
    destruct (String.eqb_spec k' k) as [->|Hne].
    + destruct Hin as [Hin|Hin]; [left; now symmetry|].
      right. split; [now right|]. intros ->. apply Hnotin.
      change k with (fst (k, c)). now apply in_map.
    + destruct Hin as [[= <- <-]|Hin]; [right; split; [now left | exact Hne]|].
      destruct (IH Hnd' Hin) as [E|[Hin' Hf]]; [now left | right; split; [now right | exact Hf]].
Qed.

(** X19.  The limit on session tokens is off when no Redis is configured or
    the configured count is not positive: [check_jwt_max_count] then
    returns the decoded data and [set_jwt_token] records nothing.  Even
    with the limit on, decoded data that is empty or has no [id] is
    returned as it is, without a look at the stored tokens. *)
Theorem session_limit_off
        (max_count : string) (py_int : string -> exn + Z) (n : Z)
        (data : dict) (token : string) (w : world) :
  py_int max_count = inr n ->
  (redis_client w = None \/ n <= 0 ->
   check_jwt_max_count max_count py_int data token w = (inr (Some data), w)
   /\ forall user_id, set_jwt_token max_count py_int user_id token w = (inr tt, w))
  /\ (dict_get data "id" = None ->
      check_jwt_max_count max_count py_int data token w = (inr (Some data), w)).
Proof.
  intros Hn. unfold check_jwt_max_count, set_jwt_token. rewrite Hn. split.
  - intros [Hr|Hle].
    + rewrite Hr. split; reflexivity.
    + destruct (redis_client w); [|split; reflexivity].
      destruct (Z.leb_spec n 0); [split; reflexivity | lia].
  - intros Hid. destruct (redis_client w); [|reflexivity].
    destruct (n <=? 0); [reflexivity|].
    destruct data as [|d0 data]; [reflexivity|]. now rewrite Hid.
Qed.

(** X20.  With the limit on, a token registered by [set_jwt_token] at a
    time whose text is greater than the time of every other token of the
    user is accepted by [check_jwt_max_count] right after, and the check
    changes nothing. *)
Theorem registered_token_is_accepted
        (max_count : string) (py_int : string -> exn + Z) (n : Z)
        (user_id token : string) (data : dict)
        (r : redis) (w : world) :
  py_int max_count = inr n -> 0 < n ->
  redis_client w = Some r ->
  dict_get data "id" = Some (SStr user_id) ->
  NoDup (map fst (hgetall r (jwt_cache_key (SStr user_id)))) ->
  (forall f c, In (f, c) (hgetall r (jwt_cache_key (SStr user_id))) -> f <> token ->
               String.ltb c (str_int (time_ns w)) = true) ->
  exists w1,
    set_jwt_token max_count py_int user_id token w = (inr tt, w1)
    /\ hgetall (match redis_client w1 with Some r1 => r1 | None => [] end)
               (jwt_cache_key (SStr user_id))
       = dict_set (hgetall r (jwt_cache_key (SStr user_id))) token (str_int (time_ns w))
    /\ check_jwt_max_count max_count py_int data token w1 = (inr (Some data), w1).
Proof.
  intros Hn Hpos Hr Hid Hnd Hnew.
  unfold set_jwt_token. rewrite Hn, Hr.
  destruct (Z.leb_spec n 0) as [|_]; [lia|].
  eexists. split; [reflexivity|]. cbn [redis_client]. split; [apply hgetall_hset|].
  unfold check_jwt_max_count. rewrite Hn. cbn [redis_client time_ns refreshed scheduled].
  destruct (Z.leb_spec n 0) as [|_]; [lia|].
  destruct data as [|d0 data]; [discriminate|]. rewrite Hid.
  rewrite hgetall_hset.
  set (h := hgetall r (jwt_cache_key (SStr user_id))) in *.
  set (ts := str_int (time_ns w)) in *.
  pose proof (in_dict_set_self h token ts) as Hself.
  destruct (dict_set h token ts) as [|e h'] eqn:Eh; [destruct Hself|].
  rewrite <- Eh in *. clear Eh e h'.
  destruct (sort_tokens_head (ts, token) (map swap_item (dict_set h token ts)))
    as [rest Hsort].
  - change (ts, token) with (swap_item (token, ts)). now apply in_map.
  - intros y Hy Hne. apply in_map_iff in Hy as ([f c] & <- & Hin). cbn.
    destruct (in_dict_set_inv h token ts f c Hnd Hin) as [[= -> ->]|[Hin' Hf]].
    + now contradiction Hne.
    + exact (Hnew f c Hin' Hf).
  - rewrite Hsort. destruct (Z.to_nat n) as [|m] eqn:En; [lia|].
    cbn [firstn existsb snd]. now rewrite String.eqb_refl.
Qed.

Lemma dict_get_filter_other {V} (r : list (string * V)) (name k : string) :
  k <> name ->
  dict_get (filter (fun kh => negb (String.eqb (fst kh) name)) r) k = dict_get r k.
Proof.
  intros Hne. induction r as [|[k' v] r IH]; simpl; [reflexivity|].
  destruct (String.eqb_spec k' name) as [->|Hk]; simpl.
  - destruct (String.eqb_spec name k); [congruence | exact IH].
  - destruct (String.eqb k' k); [reflexivity | exact IH].
Qed.

Lemma dict_get_filter_self {V} (r : list (string * V)) (name : string) :
  dict_get (filter (fun kh => negb (String.eqb (fst kh) name)) r) name = None.
Proof.
  induction r as [|[k' v] r IH]; simpl; [reflexivity|].
  destruct (String.eqb_spec k' name) as [->|Hk]; simpl; [exact IH|].
  destruct (String.eqb_spec k' name); [congruence | exact IH].
Qed.

Lemma hgetall_hdel (r : redis) (name : string) (fields : list string) :
  hgetall (hdel r name fields) name
  = filter (fun kv => negb (existsb (String.eqb (fst kv)) fields)) (hgetall r name).
Proof.
  unfold hdel.
  destruct (filter _ (hgetall r name)) as [|e h] eqn:E; unfold hgetall at 1.
  - now rewrite dict_get_filter_self.
  - now rewrite dict_get_set_same.
Qed.

Lemma hgetall_hdel_other (r : redis) (name k : string) (fields : list string) :
  k <> name -> hgetall (hdel r name fields) k = hgetall r k.
Proof.
  intros Hne. unfold hdel.
  destruct (filter _ (hgetall r name)) as [|e h]; unfold hgetall.
  - now rewrite dict_get_filter_other.
  - rewrite dict_get_set_other; [reflexivity | congruence].
Qed.

Lemma nodup_fst_items (h : hash) : NoDup (map fst h) -> NoDup (map swap_item h).
Proof.
  induction h as [|[f c] h IH]; simpl; intros Hnd; [constructor|].
  inversion Hnd as [|? ? Hnotin Hnd']; subst. constructor; [|now apply IH].
  intros Hin. apply in_map_iff in Hin as ([f' c'] & [= -> ->] & Hin).
  apply Hnotin. change f with (fst (f, c)). now apply in_map.
Qed.

Lemma same_field_same_item (h : hash) (f c c' : string) :
  NoDup (map fst h) -> In (f, c) h -> In (f, c') h -> c = c'.
Proof.
  induction h as [|[f0 c0] h IH]; simpl; intros Hnd H1 H2; [destruct H1|].
  inversion Hnd as [|? ? Hnotin Hnd']; subst.
  destruct H1 as [E1|H1], H2 as [E2|H2].
  - congruence.
  - injection E1 as -> _. exfalso. apply Hnotin.
    change f with (fst (f, c')). now apply in_map.
  - injection E2 as -> _. exfalso. apply Hnotin.
    change f with (fst (f, c)). now apply in_map.
  - now apply IH.
Qed.

(** X21.  With the limit on and the user's tokens stored under distinct
    fields: a token that is not stored is rejected; so is a stored token
    when at least the configured count of other stored tokens carry a
    greater time; after a rejection the user's hash holds at most the
    configured count of tokens, all of them tokens it held before, and the
    hashes of other users are untouched; an accepted check changes
    nothing. *)
Theorem superseded_token_is_rejected
        (max_count : string) (py_int : string -> exn + Z) (n : Z)
        (data : dict) (id : scalar) (token : string)
        (r : redis) (w : world) :
  py_int max_count = inr n -> 0 < n ->
  redis_client w = Some r ->
  dict_get data "id" = Some id ->
  NoDup (map fst (hgetall r (jwt_cache_key id))) ->
  (~ In token (map fst (hgetall r (jwt_cache_key id))) ->
   fst (check_jwt_max_count max_count py_int data token w) = inr None)
  /\ (forall c newer,
        In (token, c) (hgetall r (jwt_cache_key id)) ->
        NoDup newer -> incl newer (hgetall r (jwt_cache_key id)) ->
        (forall e, In e newer -> String.ltb c (snd e) = true) ->
        (Z.to_nat n <= List.length newer)%nat ->
        fst (check_jwt_max_count max_count py_int data token w) = inr None)
  /\ (fst (check_jwt_max_count max_count py_int data token w) = inr None ->
      exists r',
        redis_client (snd (check_jwt_max_count max_count py_int data token w)) = Some r'
        /\ (List.length (hgetall r' (jwt_cache_key id)) <= Z.to_nat n)%nat
        /\ incl (hgetall r' (jwt_cache_key id)) (hgetall r (jwt_cache_key id))
        /\ (forall k, k <> jwt_cache_key id -> hgetall r' k = hgetall r k))
  /\ (forall d, fst (check_jwt_max_count max_count py_int data token w) = inr (Some d) ->
        d = data /\ snd (check_jwt_max_count max_count py_int data token w) = w).
Proof.
  intros Hn Hpos Hr Hid Hnd.
  set (key := jwt_cache_key id) in *.
  remember (hgetall r key) as h eqn:Hh.
  set (tokens := sort_tokens (map swap_item h)).
  set (m := Z.to_nat n).
  assert (Hrun : check_jwt_max_count max_count py_int data token w
                 = match h with
                   | [] => (inr None, w)
                   | _ :: _ =>
                       if existsb (fun t => String.eqb (snd t) token) (firstn m tokens)
                       then (inr (Some data), w)
                       else match skipn m tokens with
                            | [] => (inr None, w)
                            | _ :: _ =>
                                (inr None,
                                 mkWorld (Some (hdel r key (map snd (skipn m tokens))))
                                         (time_ns w) (refreshed w) (scheduled w))
                            end
                   end).
  { unfold check_jwt_max_count. rewrite Hn, Hr.
    destruct (Z.leb_spec n 0) as [|_]; [lia|].
    destruct data as [|d0 data]; [discriminate|]. rewrite Hid.
    subst tokens. rewrite Hh. reflexivity. }
  assert (Hperm : Permutation tokens (map swap_item h)) by apply sort_tokens_perm.
  assert (Hsplit : tokens = firstn m tokens ++ skipn m tokens)
    by (symmetry; apply firstn_skipn).
  assert (Hsorted : StronglySorted newer_token (firstn m tokens ++ skipn m tokens))
    by (rewrite <- Hsplit; apply sort_tokens_sorted).
  assert (Hfound : existsb (fun t => String.eqb (snd t) token) (firstn m tokens) = true ->
                   exists c, In (token, c) h /\ In (c, token) (firstn m tokens)).
  { intros He. apply existsb_exists in He as ([c t] & Hin & Ht). cbn in Ht.
    apply String.eqb_eq in Ht. subst t. exists c. split; [|exact Hin].
    assert (In (c, token) tokens) as Hin' by (rewrite Hsplit; apply in_or_app; now left).
    apply (Permutation_in _ Hperm) in Hin'.
    apply in_map_iff in Hin' as ([f c'] & [= -> ->] & Hin'). exact Hin'. }
  split; [|split; [|split]].
  - (* a token that is not stored *)
    intros Hnot. rewrite Hrun. destruct h as [|e h'] eqn:Eh; [reflexivity|].
    rewrite <- Eh in *.
    destruct (existsb _ (firstn m tokens)) eqn:He.
    + destruct (Hfound eq_refl) as (c & Hin & _). exfalso. apply Hnot.
      change token with (fst (token, c)). now apply in_map.
    + destruct (skipn m tokens); reflexivity.
  - (* a token with enough newer ones *)
    intros c newer Hin Hnewer Hincl Hlt Hlen. rewrite Hrun.
    destruct h as [|e h'] eqn:Eh; [reflexivity|]. rewrite <- Eh in *.
    destruct (existsb _ (firstn m tokens)) eqn:He; [|destruct (skipn m tokens); reflexivity].
    exfalso. destruct (Hfound eq_refl) as (c' & Hin' & Hfirst).
    assert (c' = c) as -> by exact (same_field_same_item h token c' c Hnd Hin' Hin).
    assert (Hall : incl ((c, token) :: map swap_item newer) (firstn m tokens)).
    { intros x [<-|Hx]; [exact Hfirst|].
      apply in_map_iff in Hx as (e0 & <- & He0).
      assert (In (swap_item e0) tokens) as Ht.
      { apply (Permutation_in _ (Permutation_sym Hperm)). apply in_map. now apply Hincl. }
      rewrite Hsplit in Ht. apply in_app_or in Ht as [Ht|Ht]; [exact Ht|].
      pose proof (sorted_app_order _ _ _ Hsorted _ _ Hfirst Ht) as Hord.
      unfold newer_token in Hord. cbn in Hord.
      rewrite (ltb_not_leb _ _ (Hlt e0 He0)) in Hord. discriminate. }
    assert (Hnd' : NoDup ((c, token) :: map swap_item newer)).
    { constructor.
      - intros Hx. apply in_map_iff in Hx as ([f c0] & [= <- <-] & He0).
        pose proof (Hlt _ He0) as Hl. cbn in Hl.
        pose proof (ltb_not_leb _ _ Hl) as Hl'.
        destruct (String.leb_total c0 c0); congruence.
      - apply nodup_fst_items.
        assert (NoDup (map fst h)) as Huniq by exact Hnd.
        clear - Hnewer Hincl Huniq.
        induction newer as [|[f c0] newer IH]; [constructor|].
        inversion Hnewer as [|? ? Hnotin Hnewer']; subst. cbn. constructor.
        + intros Hx. apply in_map_iff in Hx as ([f' c1] & Hf & Hx). cbn in Hf. subst f'.
          assert (c1 = c0) as ->.
          { apply (same_field_same_item h f c1 c0 Huniq); apply Hincl;
              [now right | now left]. }
          contradiction.
        + apply IH; [exact Hnewer'|]. intros x Hx. apply Hincl. now right. }
    pose proof (NoDup_incl_length Hnd' Hall) as Hle.
    pose proof (firstn_le_length m tokens) as Hm.
    cbn [List.length] in Hle. rewrite length_map in Hle. lia.
  - (* what a rejection leaves *)
    intros Hrej. rewrite Hrun in *.
    destruct h as [|e h'] eqn:Eh.
    { exists r. cbn [snd]. split; [exact Hr|]. rewrite <- Hh.
      repeat split; [cbn; lia | intros x [] ]. }
    rewrite <- Eh in *.
    destruct (existsb _ (firstn m tokens)) eqn:He; [discriminate|].
    destruct (skipn m tokens) as [|x rm] eqn:Erm.
    + exists r. cbn [snd]. split; [exact Hr|]. rewrite <- Hh.
      repeat split; [|intros y Hy; exact Hy].
      assert (List.length tokens <= m)%nat as Hlen.
      { rewrite Hsplit, app_nil_r. apply firstn_le_length. }
      rewrite (Permutation_length Hperm), length_map in Hlen. exact Hlen.
    + rewrite <- Erm in *. eexists. cbn [snd redis_client]. split; [reflexivity|].
      rewrite hgetall_hdel, <- Hh.
      set (kept := filter (fun kv => negb (existsb (String.eqb (fst kv))
                                                   (map snd (skipn m tokens)))) h).
      assert (Hkept : incl (map swap_item kept) (firstn m tokens)).
      { intros y Hy. apply in_map_iff in Hy as ([f c] & <- & Hin).
        apply filter_In in Hin as [Hin Hkeep].
        assert (In (swap_item (f, c)) tokens) as Ht
            by (apply (Permutation_in _ (Permutation_sym Hperm)); now apply in_map).
        rewrite Hsplit in Ht. apply in_app_or in Ht as [Ht|Ht]; [exact Ht|].
        exfalso. apply negb_true_iff in Hkeep.
        assert (existsb (String.eqb (fst (f, c))) (map snd (skipn m tokens)) = true) as Hx.
        { apply existsb_exists. exists f. split; [|apply String.eqb_refl].
          change f with (snd (swap_item (f, c))). now apply in_map. }
        congruence. }
      assert (Hndk : NoDup (map swap_item kept)).
      { apply nodup_fst_items. unfold kept.
        assert (NoDup (map fst h)) as Huniq by exact Hnd. clear - Huniq.
        induction h as [|[f c] h IH]; [constructor|]. cbn.
        inversion Huniq as [|? ? Hnotin Huniq']; subst.
        destruct (negb _); [|now apply IH]. cbn. constructor; [|now apply IH].
        intros Hx. apply Hnotin. apply in_map_iff in Hx as (e0 & Hf & Hin).
        apply filter_In in Hin as [Hin _]. rewrite <- Hf. now apply in_map. }
      split; [|split].
      * pose proof (NoDup_incl_length Hndk Hkept) as Hle.
        pose proof (firstn_le_length m tokens) as Hm.
        rewrite length_map in Hle. lia.
      * intros y Hy. unfold kept in Hy. now apply filter_In in Hy.
      * intros k Hk. now apply hgetall_hdel_other.
  - (* an accepted check *)
    intros d Hacc. rewrite Hrun in *.
    destruct h as [|e h']; [discriminate|].
    destruct (existsb _ (firstn m tokens)).
    + cbn in Hacc. injection Hacc as <-. split; reflexivity.
    + destruct (skipn m tokens); discriminate.
Qed.
End SessionLimit.

(** ** [get_current_user] *)

Section CurrentUser.
Import Py PyStr Auth.
Local Open Scope list_scope.

Variable max_count : string.
Variable py_int : string -> exn + Z.
Variable jwt_decode : string -> exn + dict.
Variable get_user_by_id : scalar -> option UserModel.
Variable get_user_by_api_key : string -> option UserModel.
Variable msgs : Messages.


Lemma string_app_assoc (a b c : string) : ((a ++ b) ++ c = a ++ (b ++ c))%string.
Proof. induction a as [|x a IH]; simpl; [reflexivity | now rewrite IH]. Qed.

Lemma path_matches_iff (path allowed : string) :
  path_matches path allowed = true <->
  path = allowed \/ exists rest, path = (allowed ++ "/" ++ rest)%string.
Proof.
  unfold path_matches. rewrite orb_true_iff, String.eqb_eq, starts_with_iff.
  split; (intros [H|[rest H]]; [now left | right; exists rest]).
  - now rewrite H, string_app_assoc.
  - now rewrite H, string_app_assoc.
Qed.

(** X22.  A token that starts with "sk-" is handled as an API key.  It is
    refused with status 403 when API keys are disabled, and, when the
    endpoint restrictions are on, unless the request path is one of the
    allowed paths or lies below one; nothing is looked up or recorded for
    a refused key.  Otherwise the answer is that of
    [get_current_user_by_api_key].  The allowed paths are the pieces of
    the setting between commas, without the white space around them.  An
    empty entry in the allowed paths admits every path that begins with
    "/", and an empty setting is such an entry. *)
Theorem api_key_gate (request : Request) (background_tasks : bool)
        (token : string) (w : world) :
  starts_with "sk-" token = true ->
  (enable_api_key request = false ->
   get_current_user max_count py_int jwt_decode get_user_by_id get_user_by_api_key msgs
     request background_tasks (Some token) w
   = (inl (HTTPException 403 (API_KEY_NOT_ALLOWED msgs)), w))
  /\ (enable_api_key request = true ->
      ENABLE_API_KEY_ENDPOINT_RESTRICTIONS request = true ->
      (forall allowed, In allowed (allowed_paths (API_KEY_ALLOWED_ENDPOINTS request)) ->
         url_path request <> allowed
         /\ forall rest, url_path request <> (allowed ++ "/" ++ rest)%string) ->
      get_current_user max_count py_int jwt_decode get_user_by_id get_user_by_api_key msgs
     request background_tasks (Some token) w
      = (inl (HTTPException 403 (API_KEY_NOT_ALLOWED msgs)), w))
  /\ (enable_api_key request = true ->
      (ENABLE_API_KEY_ENDPOINT_RESTRICTIONS request = false
       \/ exists allowed,
           In allowed (allowed_paths (API_KEY_ALLOWED_ENDPOINTS request))
           /\ (url_path request = allowed
               \/ exists rest, url_path request = (allowed ++ "/" ++ rest)%string)) ->
      get_current_user max_count py_int jwt_decode get_user_by_id get_user_by_api_key msgs
     request background_tasks (Some token) w = get_current_user_by_api_key get_user_by_api_key msgs token w)
  /\ (enable_api_key request = true ->
      In "" (allowed_paths (API_KEY_ALLOWED_ENDPOINTS request)) ->
      forall rest, url_path request = ("/" ++ rest)%string ->
      get_current_user max_count py_int jwt_decode get_user_by_id get_user_by_api_key msgs
     request background_tasks (Some token) w = get_current_user_by_api_key get_user_by_api_key msgs token w)
  /\ allowed_paths "" = [""].
Proof.
  intros Hsk. unfold get_current_user. rewrite Hsk.
  assert (Hpass : enable_api_key request = true ->
            (ENABLE_API_KEY_ENDPOINT_RESTRICTIONS request = false
             \/ exists allowed,
                 In allowed (allowed_paths (API_KEY_ALLOWED_ENDPOINTS request))
                 /\ (url_path request = allowed
                     \/ exists rest, url_path request = (allowed ++ "/" ++ rest)%string)) ->
            (if negb (enable_api_key request)
             then (inl (HTTPException 403 (API_KEY_NOT_ALLOWED msgs)), w)
             else if ENABLE_API_KEY_ENDPOINT_RESTRICTIONS request
                     && negb (existsb (path_matches (url_path request))
                                      (allowed_paths (API_KEY_ALLOWED_ENDPOINTS request)))
             then (inl (HTTPException 403 (API_KEY_NOT_ALLOWED msgs)), w)
             else get_current_user_by_api_key get_user_by_api_key msgs token w)
            = get_current_user_by_api_key get_user_by_api_key msgs token w).
  { intros He Hok. rewrite He. cbn [negb].
    destruct Hok as [->|(allowed & Hin & Hm)]; [reflexivity|].
    assert (existsb (path_matches (url_path request))
                    (allowed_paths (API_KEY_ALLOWED_ENDPOINTS request)) = true) as ->.
    { apply existsb_exists. exists allowed. split; [exact Hin|]. now apply path_matches_iff. }
    now rewrite andb_false_r. }
  split; [|split; [|split; [|split]]].
  - intros ->. reflexivity.
  - intros -> -> Hnone. cbn [negb andb].
    assert (existsb (path_matches (url_path request))
                    (allowed_paths (API_KEY_ALLOWED_ENDPOINTS request)) = false) as ->.
    { apply not_true_is_false. intros He. apply existsb_exists in He as (a & Hin & Hm).
      apply path_matches_iff in Hm. destruct (Hnone a Hin) as [H1 H2].
      destruct Hm as [Hm|[rest Hm]]; [now apply H1 | now apply (H2 rest)]. }
    reflexivity.
  - exact Hpass.
  - intros He Hin rest Hpath. apply Hpass; [exact He|].
    right. exists "". split; [exact Hin|]. right. exists rest. exact Hpath.
  - reflexivity.
Qed.

(** X23.  A token that does not start with "sk-" is handled as a session
    token.  When it does not decode, when the session limit rejects it or
    when the decoded data has no [id], the answer is status 401 with the
    unauthorized text; for an [id] that no user has it is status 401 with
    the invalid-token text; otherwise the user is returned, the
    last-active refresh is handed to the background tasks when there are
    any, and no refresh is made at once. *)
Theorem session_token_path (request : Request) (background_tasks : bool)
        (token : string) (w : world) :
  starts_with "sk-" token = false ->
  let '(data, w') := decode_token max_count py_int jwt_decode token w in
  (data = None ->
   get_current_user max_count py_int jwt_decode get_user_by_id get_user_by_api_key msgs
     request background_tasks (Some token) w
   = (inl (HTTPException 401 (UNAUTHORIZED msgs)), w'))
  /\ (forall d, data = Some d -> dict_get d "id" = None ->
        get_current_user max_count py_int jwt_decode get_user_by_id get_user_by_api_key msgs
     request background_tasks (Some token) w
        = (inl (HTTPException 401 (UNAUTHORIZED msgs)), w'))
  /\ (forall d id, data = Some d -> dict_get d "id" = Some id ->
        get_user_by_id id = None ->
        get_current_user max_count py_int jwt_decode get_user_by_id get_user_by_api_key msgs
     request background_tasks (Some token) w
        = (inl (HTTPException 401 (INVALID_TOKEN msgs)), w'))
  /\ (forall d id user, data = Some d -> dict_get d "id" = Some id ->
        get_user_by_id id = Some user ->
        exists w'',
          get_current_user max_count py_int jwt_decode get_user_by_id get_user_by_api_key msgs
     request background_tasks (Some token) w = (inr user, w'')
          /\ redis_client w'' = redis_client w'
          /\ refreshed w'' = refreshed w'
          /\ scheduled w''
             = if background_tasks then scheduled w' ++ [um_id user] else scheduled w')
  /\ (forall e, jwt_decode token = inl e -> data = None /\ w' = w)
  /\ (forall decoded, jwt_decode token = inr decoded ->
        fst (check_jwt_max_count max_count py_int decoded token w) = inr None -> data = None).
Proof.
  intros Hsk. unfold get_current_user. rewrite Hsk.
  destruct (decode_token max_count py_int jwt_decode token w) as [data w'] eqn:Hdec.
  repeat split.
  - intros ->. reflexivity.
  - intros d -> ->. reflexivity.
  - intros d id -> -> ->. reflexivity.
  - intros d id user -> -> ->. eexists. split; [reflexivity|].
    destruct background_tasks; repeat split.
  - unfold decode_token in Hdec. rewrite H in Hdec. now injection Hdec as <- _.
  - unfold decode_token in Hdec. rewrite H in Hdec. now injection Hdec as _ <-.
  - intros decoded Hd Hrej. unfold decode_token in Hdec. rewrite Hd in Hdec.
    destruct (check_jwt_max_count max_count py_int decoded token w) as [[e|r] w1];
      cbn in Hrej; [discriminate|]. injection Hrej as ->. now injection Hdec as <- _.
Qed.
End CurrentUser.

(** ** The request of [create_trade] and the rows the listing can read *)

Section RequestAndRows.
Import Py PyStr Ezfp Store Credits.
Local Open Scope list_scope.
Local Opaque MD5.hexdigest PyStr.sort PyStr.join.

(** X24.  When [int(EZFP_PID.value)] raises, [create_trade] raises that
    error without sending anything; when it gives a number, the call
    sends one request to the [mapi.php] endpoint and closes the client, and
    the payload it sends holds the trade number, the formatted amount and
    the device class together with a signature that is the digest of the
    payload's own canonical text. *)
Theorem create_trade_sends_signed_request
        (cfg : Config) (py_int : string -> exn + Z)
        (float : Type) (format_2f : float -> string) (response : Type)
        (client_post : string -> dict -> exn + response)
        (response_json : response -> exn + pyval)
        (pay_type out_trade_no : string) (amount : float) (client_ip ua : string) :
  (forall e, py_int (EZFP_PID cfg) = inl e ->
     create_trade cfg py_int float format_2f response client_post response_json
                  pay_type out_trade_no amount client_ip ua = (inl e, []))
  /\ (forall pid, py_int (EZFP_PID cfg) = inr pid ->
        exists payload,
          snd (create_trade cfg py_int float format_2f response client_post response_json
                            pay_type out_trade_no amount client_ip ua)
          = [EvPost (rstrip_slash (EZFP_ENDPOINT cfg) ++ "/mapi.php")%string payload; EvClose]
          /\ dict_get payload "sign" = Some (SStr (MD5.hexdigest (plain_text cfg payload)))
          /\ dict_get payload "sign_type" = Some (SStr "MD5")
          /\ dict_get payload "pid" = Some (SInt pid)
          /\ dict_get payload "type" = Some (SStr pay_type)
          /\ dict_get payload "out_trade_no" = Some (SStr out_trade_no)
          /\ dict_get payload "money" = Some (SStr (format_2f amount))
          /\ dict_get payload "clientip" = Some (SStr client_ip)
          /\ dict_get payload "device" = Some (SStr (Device.get_device_from_ua ua))).
Proof.
  split.
  - intros e He. unfold create_trade. now rewrite He.
  - intros pid Hpid. unfold create_trade. rewrite Hpid. cbn [snd].
    eexists. split; [reflexivity|].
    split; [rewrite plain_text_sign; apply get_sign_of_sign|].
    split; [apply get_sign_type_of_sign|].
    repeat split; rewrite get_other_of_sign by reflexivity; reflexivity.
Qed.

Lemma validate_logs_fails (rows : list CreditLog) (r : CreditLog) (e : exn) (w : world) :
  In r rows -> validate_detail (l_detail r) = inl e ->
  exists e', validate_logs rows w = (inl e', w).
Proof.
  induction rows as [|r0 rows IH]; intros Hin He; [destruct Hin|].
  cbn [validate_logs]. unfold bind, validate_log.
  destruct (validate_detail (l_detail r0)) as [e0|d0] eqn:E0.
  - eexists. reflexivity.
  - destruct Hin as [->|Hin]; [congruence|].
    destruct (IH Hin He) as [e' He']. unfold ret at 1. rewrite He'. eauto.
Qed.

(** X25.  A log detail written from a form validates for the listing when
    [api_params] has no [model] or a dictionary there; with any other
    [model] it does not, and one such row among a user's rows makes the
    whole listing of that user raise. *)
Theorem listing_needs_model_dictionaries :
  (forall d, dict_get (api_params d) "model" = None ->
     validate_detail (model_dump d) = inr (mkSimpleDetail (desc d) [] (usage d)))
  /\ (forall d m, dict_get (api_params d) "model" = Some (PDict m) ->
        validate_detail (model_dump d) = inr (mkSimpleDetail (desc d) m (usage d)))
  /\ (forall d v, dict_get (api_params d) "model" = Some v ->
        (forall m, v <> PDict m) ->
        exists e, validate_detail (model_dump d) = inl e)
  /\ (forall user_id w r e,
        faults w = [] ->
        In r (logs_of (store w) user_id) ->
        validate_detail (l_detail r) = inl e ->
        exists e', get_credit_log_by_user_id user_id None None w = (inl e', w)).
Proof.
  split; [|split; [|split]].
  - intros d Hm. unfold validate_detail, model_dump. cbn. now rewrite Hm.
  - intros d m Hm. unfold validate_detail, model_dump. cbn. now rewrite Hm.
  - intros d v Hm Hnot. unfold validate_detail, model_dump. cbn. rewrite Hm.
    destruct v as [a|l|m]; [eauto | eauto | now contradiction (Hnot m)].
  - intros user_id w r e Hf Hin He.
    unfold get_credit_log_by_user_id, bind, get_db, db_op. rewrite Hf.
    fold (logs_of (store w) user_id).
    apply (validate_logs_fails _ r e); [|exact He].
    exact (Permutation_in _ (Permutation_sym (order_newest_first_perm _)) Hin).
Qed.
End RequestAndRows.

(** ** The ledger properties at the test points *)

Section LedgerInstances.
Import Py Store Credits Scenario.
Local Open Scope list_scope.

Lemma world_with_balance_fresh (b : decimal) : ids_fresh (world_with_balance b).
Proof.
  split; intros r Hin; cbn in Hin.
  - destruct Hin as [<-|[]]. cbn. lia.
  - destruct Hin.
Qed.

Lemma empty_world_fresh : ids_fresh empty_world.
Proof. split; intros r Hin; destruct Hin. Qed.

Lemma log_and_balance_written_together_witness :
  exists v w',
    set_credit_by_user_id 0 (mkSetCreditForm "u1" 42 (detail_with_desc "set"))
                          (world_with_balance 7)
    = (inr v, w')
    /\ balance_of (store w') "u1" = Some 42
    /\ List.length (credit_log_tbl (store w')) = 1%nat.
Proof.
  destruct (log_and_balance_written_together 0) as [Hset _].
  destruct (Hset (mkSetCreditForm "u1" 42 (detail_with_desc "set")) (world_with_balance 7))
    as (r0 & w0 & r & w' & _ & Hrun & Hlog & Hcase & Hret).
  destruct (Hret eq_refl (world_with_balance_fresh 7)) as [v ->].
  destruct Hcase as [[[e He] _]|(_ & Hl & _ & Hb)]; [discriminate He|].
  exists v, w'. split; [exact Hrun|]. split; [exact Hb|].
  rewrite Hl, Hlog. reflexivity.
Defined.

Lemma get_credit_soft_fails_witness :
  (exists w', get_credit_by_user_id "u2" (world_with_balance 5) = (inr None, w'))
  /\ (exists w', get_credit_by_user_id "u1" world_db_down = (inr None, w')).
Proof.
  split.
  - destruct (get_credit_soft_fails "u2" (world_with_balance 5))
      as (r & w' & Hrun & _ & _ & Hnone & _).
    exists w'. rewrite Hrun, (Hnone eq_refl). reflexivity.
  - destruct (get_credit_soft_fails "u1" world_db_down)
      as (r & w' & Hrun & _ & _ & _ & Hdown & _).
    exists w'. rewrite Hrun, (Hdown [] eq_refl). reflexivity.
Defined.

Lemma init_keeps_one_row_per_user_witness :
  NoDup (map c_user_id
             (credit_tbl (store (snd (init_credit_by_user_id 5 "u2" (world_with_balance 0))))))
  /\ balance_of (store (snd (init_credit_by_user_id 5 "u2" (world_with_balance 0)))) "u1"
     = Some 0.
Proof.
  destruct (init_keeps_one_row_per_user 5 "u2" (world_with_balance 0)
              (snd (init_credit_by_user_id 5 "u2" (world_with_balance 0)))
              (fst (init_credit_by_user_id 5 "u2" (world_with_balance 0))))
    as (Hone & Hkeep & _).
  - reflexivity.
  - cbn. repeat constructor. intros [].
  - split; [exact Hone | apply Hkeep; reflexivity].
Defined.

Lemma init_is_idempotent_witness :
  exists c w1,
    init_credit_by_user_id 5 "u1" empty_world = (inr c, w1)
    /\ c_credit c = 5
    /\ init_credit_by_user_id 5 "u1" w1 = (inr c, w1)
    /\ get_credit_by_user_id "u1" w1 = (inr (Some c), w1).
Proof.
  assert (E : exists c w1, init_credit_by_user_id 5 "u1" empty_world = (inr c, w1))
    by (vm_compute; eauto).
  destruct E as (c & w1 & E). exists c, w1.
  destruct (init_is_idempotent 5 "u1" empty_world w1 c eq_refl empty_world_fresh E)
    as (_ & _ & Hd & Hagain & Hget).
  split; [exact E|]. split; [exact (Hd eq_refl)|]. split; assumption.
Defined.


Lemma writes_touch_one_user_only_witness :
  balance_of
    (store (snd (add_credit_by_user_id 0 (mkAddCreditForm "u2" 9 (detail_with_desc "add"))
                                       (world_with_balance 7)))) "u1"
  = Some 7.
Proof.
  destruct (writes_touch_one_user_only 0) as [_ Hadd].
  destruct (Hadd (mkAddCreditForm "u2" 9 (detail_with_desc "add")) (world_with_balance 7)
                 _ _ (surjective_pairing _)) as (Hother & _).
  rewrite (Hother "u1"); [reflexivity | discriminate].
Defined.


Lemma settlement_outcomes_witness :
  exists w',
    update_credit_by_id 0 "t1" settle_detail world_read_fails = (inr None, w')
    /\ option_map t_detail (List.find (ticket_is "t1") (trade_ticket_tbl (store w')))
       = Some settle_detail
    /\ balance_of (store w') "u1" = Some 0
    /\ credit_log_tbl (store w') = [].
Proof.
  destruct (settlement_outcomes 0 "t1" settle_detail world_read_fails) as [_ H].
  destruct (H [] eq_refl) as (w' & Hrun & Ht & Hc & Hl).
  exists w'. split; [exact Hrun|].
  unfold balance_of. rewrite Ht, Hc, Hl. repeat split.
Defined.

Lemma unknown_ticket_is_ignored_witness :
  exists w',
    update_credit_by_id 0 "t9" settle_detail world_with_t1 = (inr None, w')
    /\ store w' = store world_with_t1.
Proof.
  exact (unknown_ticket_is_ignored 0 "t9" settle_detail world_with_t1 eq_refl).
Defined.

Lemma log_is_append_only_witness :
  exists suffix,
    credit_log_tbl
      (store (snd (set_credit_by_user_id 0 (mkSetCreditForm "u1" 1 (detail_with_desc "set"))
                                         world_with_logs)))
    = credit_log_tbl (store world_with_logs) ++ suffix
    /\ (List.length suffix <= 1)%nat.
Proof.
  destruct (log_is_append_only 0 numeric_nearest) as [Hset _].
  exact (Hset (mkSetCreditForm "u1" 1 (detail_with_desc "set")) world_with_logs
              _ _ (surjective_pairing _)).
Defined.

Lemma ticket_insert_then_get_witness :
  (exists w',
      insert_new_ticket numeric_nearest "t2" "u1" float_tenth [] world_with_t1
      = (inr (mkTicketModel "t2" "u1" (Decimal_of_float float_tenth) [] 1700000100), w')
      /\ get_ticket_by_id "t2" w'
         = (inr (Some (mkTradeTicket "t2" "u1" 100000000000 [] 1700000100)), w')
      /\ ~ same_number (Decimal_of_float float_tenth) (Decimal_of_column 100000000000)
      /\ credit_tbl (store w') = credit_tbl (store world_with_t1))
  /\ (exists w',
        insert_new_ticket numeric_nearest "t2" "u1" float_half [] world_with_t1
        = (inr (mkTicketModel "t2" "u1" (mkDecimal 5 1) [] 1700000100), w')
        /\ get_ticket_by_id "t2" w'
           = (inr (Some (mkTradeTicket "t2" "u1" 500000000000 [] 1700000100)), w')
        /\ same_number (mkDecimal 5 1) (Decimal_of_column 500000000000)).
Proof.
  split.
  - assert (E : numeric_nearest (Decimal_of_float float_tenth) = 100000000000)
      by (vm_compute; reflexivity).
    destruct (ticket_insert_then_get numeric_nearest "t2" "u1" float_tenth [] world_with_t1
                                     eq_refl eq_refl)
      as (w' & Hins & Hget & Hdiff & _ & _ & Hc & _).
    rewrite E in Hget, Hdiff.
    exists w'. split; [exact Hins|]. split; [exact Hget|].
    split; [apply Hdiff; reflexivity | exact Hc].
  - destruct (ticket_insert_then_get numeric_nearest "t2" "u1" float_half [] world_with_t1
                                     eq_refl eq_refl)
      as (w' & Hins & Hget & _ & Hsame & _).
    exists w'. split; [exact Hins|]. split; [exact Hget|].
    apply (Hsame numeric_nearest_exact). cbn. lia.
Defined.

Lemma list_credits_selects_witness :
  exists rows w',
    list_credits_by_user_id ["u1"; "u9"] (world_with_balance 3) = (inr rows, w')
    /\ In (mkCredit 0%N "u1" 3 1700000000 1700000000) rows
    /\ (forall c, In c rows -> c_user_id c = "u1" \/ c_user_id c = "u9").
Proof.
  destruct (list_credits_selects ["u1"; "u9"] (world_with_balance 3))
    as (rows & w' & Hrun & _ & Hsound & Hall & _).
  exists rows, w'. split; [exact Hrun|]. split.
  - apply (Hall eq_refl); [left; reflexivity | left; reflexivity].
  - intros c Hc. destruct (Hsound c Hc) as [_ [H|[H|[]]]]; [left | right]; now symmetry.
Defined.

Lemma listing_page_bounds_witness :
  exists ms w',
    get_credit_log_by_user_id "u1" (Some 1%nat) (Some 1%nat) world_with_logs = (inr ms, w')
    /\ Forall (fun u => u = "u1") (map sm_user_id ms)
    /\ (List.length ms <= 1)%nat.
Proof.
  assert (E : exists ms w',
             get_credit_log_by_user_id "u1" (Some 1%nat) (Some 1%nat) world_with_logs
             = (inr ms, w')) by (vm_compute; eauto).
  destruct E as (ms & w' & E). exists ms, w'.
  destruct (listing_page_bounds "u1" (Some 1%nat) (Some 1%nat) world_with_logs w' ms E)
    as (Hu & _ & _ & Hn & _).
  split; [exact E|]. split; [exact Hu|].
  apply (Hn 1%nat eq_refl). discriminate.
Defined.

Lemma gate_on_first_touch_witness :
  exists w',
    check_credit_by_user_id 0 "u1" "Insufficient credit" None empty_world
    = (inl (HTTPException 403 "Insufficient credit"), w')
    /\ balance_of (store w') "u1" = Some 0.
Proof.
  destruct (gate_on_first_touch 0 "u1" "Insufficient credit" None empty_world
                                eq_refl empty_world_fresh eq_refl)
    as (r & w' & Hrun & _ & Hbal & Hno & _).
  exists w'. rewrite Hrun, (Hno ltac:(lia)). split; [reflexivity | exact Hbal].
Defined.

End LedgerInstances.

(** ** The signature and session properties at the test points *)

Section SessionInstances.
Import Py PyStr Ezfp Store Credits Auth Scenario.
Local Open Scope list_scope.

Lemma signature_ignores_field_order_witness :
  plain_text cfg0 callback0 = plain_text cfg0 (rev callback0)
  /\ dict_get (sign cfg0 callback0) "sign" = dict_get (sign cfg0 (rev callback0)) "sign".
Proof.
  exact (signature_ignores_field_order cfg0 callback0 (rev callback0) (Permutation_rev _)).
Defined.

Lemma sign_is_idempotent_witness :
  sign cfg0 (sign cfg0 callback0) = sign cfg0 callback0
  /\ dict_get (sign cfg0 callback_forged) "sign"
     = dict_get (sign cfg0 callback_no_sign) "sign".
Proof.
  split.
  - exact (proj1 (sign_is_idempotent cfg0 callback0)).
  - destruct (sign_is_idempotent cfg0 (dict_set callback_no_sign "sign"
                 (SStr "00000000000000000000000000000000"))) as (_ & Hover & _).
    destruct (Hover "sign_type" (SStr "MD5") eq_refl) as [H1 _].
    destruct (sign_is_idempotent cfg0 callback_no_sign) as (_ & Hover' & _).
    destruct (Hover' "sign" (SStr "00000000000000000000000000000000") eq_refl) as [H2 _].
    exact (eq_trans H1 H2).
Defined.

Lemma authorization_header_has_two_pieces_witness :
  get_http_authorization_cred (Some "Bearer abc.def") = Some ("Bearer", "abc.def")
  /\ get_http_authorization_cred (Some "Bearer") = None.
Proof.
  pose proof authorization_header_has_two_pieces as (Hiff & _ & _ & Hfree & _).
  split.
  - apply (proj2 (Hiff (Some "Bearer abc.def") "Bearer" "abc.def")).
    split; [reflexivity|].
    split; intros Hin; cbn in Hin; repeat (destruct Hin as [Hin|Hin]; [discriminate|]); exact Hin.
  - apply Hfree. intros Hin; cbn in Hin.
    repeat (destruct Hin as [Hin|Hin]; [discriminate|]); exact Hin.
Defined.

Lemma extract_token_drops_seven_witness :
  extract_token_from_auth_header (bearer_accent ++ "tok") = "tok"
  /\ extract_token_from_auth_header "Basic: abc" = "abc".
Proof.
  pose proof extract_token_drops_seven as (_ & Hany & _).
  split.
  - exact (Hany bearer_accent "tok" eq_refl eq_refl eq_refl).
  - exact (Hany "Basic: " "abc" eq_refl eq_refl eq_refl).
Defined.

Lemma role_gates_witness :
  get_verified_user messages0 pending1 = inl (HTTPException 401 "access prohibited")
  /\ get_admin_user messages0 user1 = inl (HTTPException 401 "access prohibited").
Proof.
  split.
  - destruct (role_gates messages0 pending1) as (_ & _ & _ & _ & H).
    apply H; discriminate.
  - destruct (role_gates messages0 user1) as (_ & _ & _ & H & _).
    apply H; discriminate.
Defined.

Lemma session_limit_off_witness :
  check_jwt_max_count "0" int_numeral [("id", SStr "u1")] "tokZ" session_world
  = (inr (Some [("id", SStr "u1")]), session_world)
  /\ set_jwt_token "0" int_numeral "u1" "tokZ" session_world = (inr tt, session_world).
Proof.
  destruct (session_limit_off "0" int_numeral 0 [("id", SStr "u1")] "tokZ" session_world eq_refl)
    as [Hoff _].
  destruct (Hoff (or_intror (Z.le_refl 0))) as [Hcheck Hset].
  split; [exact Hcheck | exact (Hset "u1")].
Defined.

Lemma registered_token_is_accepted_witness :
  exists w1,
    set_jwt_token "2" int_numeral "u1" "tokC" session_world = (inr tt, w1)
    /\ check_jwt_max_count "2" int_numeral [("id", SStr "u1")] "tokC" w1
       = (inr (Some [("id", SStr "u1")]), w1).
Proof.
  destruct (registered_token_is_accepted "2" int_numeral 2 "u1" "tokC" [("id", SStr "u1")]
              redis0 session_world eq_refl eq_refl eq_refl eq_refl)
    as (w1 & Hset & _ & Hcheck).
  - cbn. repeat constructor; cbn; intuition discriminate.
  - intros f c Hin _. cbn in Hin.
    destruct Hin as [E|[E|[]]]; injection E as <- <-; reflexivity.
  - exists w1. split; assumption.
Defined.

Lemma superseded_token_is_rejected_witness :
  fst (check_jwt_max_count "1" int_numeral [("id", SStr "u1")] "tokA" session_world) = inr None
  /\ exists r',
      redis_client (snd (check_jwt_max_count "1" int_numeral [("id", SStr "u1")] "tokA" session_world))
      = Some r'
      /\ (List.length (hgetall r' "enhanced:jwt:u1") <= 1)%nat.
Proof.
  destruct (superseded_token_is_rejected "1" int_numeral 1 [("id", SStr "u1")] (SStr "u1") "tokA"
              redis0 session_world eq_refl eq_refl eq_refl eq_refl)
    as (_ & Hold & Hafter & _).
  - cbn. repeat constructor; cbn; intuition discriminate.
  - assert (Hno : fst (check_jwt_max_count "1" int_numeral [("id", SStr "u1")] "tokA" session_world)
                  = inr None).
    { apply (Hold "1700000000000000001" [("tokB", "1700000000000000002")]).
      - left. reflexivity.
      - repeat constructor. intros [].
      - intros e [<-|[]]. right. left. reflexivity.
      - intros e [<-|[]]. reflexivity.
      - cbn. lia. }
    split; [exact Hno|].
    destruct (Hafter Hno) as (r' & Hr & Hlen & _).
    exists r'. split; [exact Hr | exact Hlen].
Defined.

Lemma api_key_gate_witness :
  get_current_user "1" int_numeral jwt_decode0 user_by_id0 user_by_api_key0 messages0
                   request0 true (Some "sk-key1") session_world
  = get_current_user_by_api_key user_by_api_key0 messages0 "sk-key1" session_world
  /\ get_current_user "1" int_numeral jwt_decode0 user_by_id0 user_by_api_key0 messages0
                      request_nbsp true (Some "sk-key1") session_world
     = get_current_user_by_api_key user_by_api_key0 messages0 "sk-key1" session_world.
Proof.
  split.
  - destruct (api_key_gate "1" int_numeral jwt_decode0 user_by_id0 user_by_api_key0 messages0
                           request0 true "sk-key1" session_world eq_refl)
      as (_ & _ & Hpass & _).
    apply Hpass; [reflexivity|].
    right. exists "/api/chat". split.
    + right. left. reflexivity.
    + right. exists "completions". reflexivity.
  - destruct (api_key_gate "1" int_numeral jwt_decode0 user_by_id0 user_by_api_key0 messages0
                           request_nbsp true "sk-key1" session_world eq_refl)
      as (_ & _ & Hpass & _).
    apply Hpass; [reflexivity|].
    right. exists "/api/chat". split.
    + right. left. reflexivity.
    + left. reflexivity.
Defined.

Lemma session_token_path_witness :
  exists w',
    get_current_user "1" int_numeral jwt_decode0 user_by_id0 user_by_api_key0 messages0
                     request0 true (Some "tokB") session_world
    = (inr user1, w')
    /\ scheduled w' = ["u1"] /\ refreshed w' = [].
Proof.
  pose proof (session_token_path "1" int_numeral jwt_decode0 user_by_id0 user_by_api_key0 messages0
                                 request0 true "tokB" session_world eq_refl) as H.
  assert (E : decode_token "1" int_numeral jwt_decode0 "tokB" session_world
              = (Some [("id", SStr "u1")], session_world)) by reflexivity.
  rewrite E in H.
  destruct H as (_ & _ & _ & H & _).
  destruct (H _ _ _ eq_refl eq_refl eq_refl) as (w' & Hrun & _ & Hr & Hs).
  exists w'. split; [exact Hrun|]. split; [exact Hs | exact Hr].
Defined.

Lemma create_trade_sends_signed_request_witness :
  exists payload,
    snd (create_trade cfg0 int_numeral Z cents_2f string post_down json_strict
                      "alipay" "t1" 1000 "203.0.113.7" "Mozilla/5.0 (iPhone)")
    = [EvPost "https://pay.example.com/mapi.php" payload; EvClose]
    /\ dict_get payload "money" = Some (SStr "10.00")
    /\ dict_get payload "device" = Some (SStr "mobile")
    /\ dict_get payload "sign" = Some (SStr (MD5.hexdigest (plain_text cfg0 payload))).
Proof.
  destruct (create_trade_sends_signed_request cfg0 int_numeral Z cents_2f string post_down json_strict
              "alipay" "t1" 1000 "203.0.113.7" "Mozilla/5.0 (iPhone)") as [_ H].
  destruct (H 1001 eq_refl) as (payload & Hev & Hsign & _ & _ & _ & _ & Hmoney & _ & Hdev).
  exists payload. split; [exact Hev|]. split; [exact Hmoney|]. split; [exact Hdev | exact Hsign].
Defined.

Lemma listing_needs_model_dictionaries_witness :
  (exists e, validate_detail (model_dump detail_model_name) = inl e)
  /\ validate_detail (model_dump (detail_with_desc "payment success"))
     = inr (mkSimpleDetail "payment success" [] []).
Proof.
  pose proof listing_needs_model_dictionaries as (Hnone & _ & Hbad & _).
  split.
  - apply (Hbad detail_model_name (PStr "gpt-4o") eq_refl). discriminate.
  - exact (Hnone (detail_with_desc "payment success") eq_refl).
Defined.

End SessionInstances.
